(** * X-ray image processing: calibration pipeline and image encoders

    A shallow embedding of [main.cpp]: the calibration function
    [process_data], the normalized-view encoder [create_and_save_image]
    and the thickness encoder [calculate_and_save_thickness], the bitmap
    writer [generateBitmapImage] with its two header builders, the reader
    [read_data_from_file] and [main], run on a machine that decides which
    vectors are obtained, followed by the properties of the
    specification that were checked against them and by further
    properties of the code.
    The first part transcribes the source; the second holds the
    definitions the statements and proofs use; the lemmas follow.

    Modelling choices.
    - [double] is Rocq's primitive binary64 float; arithmetic and
      comparisons are the IEEE 754 ones, NaN and infinities included.
    - [int] readings are [Z]; [unsigned] sizes and indices are [nat], the
      truncation of a [size_t] to 32 bits being written out
      ([to_unsigned]).
    - [std::vector<std::vector<PixelData>>] is a list of rows, read with
      [cell] and written with [set_value] / [set_calibrated].
    - a thrown [std::runtime_error] is the [Throw] outcome carrying the
      message; a conversion whose behaviour the language leaves undefined
      is [None]. *)

From Stdlib Require Import ZArith Lia List Bool String Floats Uint63.
From stdpp Require Import base option list.

#[local] Open Scope Z_scope.

(** ** Constants *)

Definition BYTES_PER_PIXEL : nat := 3.
Definition SIGNAL_THRESHOLD : Z := 2048.
Definition BETA_THORNE_ROWS_COUNT : nat := 15.
Definition MEDIAN_DETECTOR_COUNT : nat := 50.

(** ** Machine numbers *)

(** [unsigned m = data.size()]: the low 32 bits of the size. *)
Definition to_unsigned (k : nat) : nat :=
  Z.to_nat (Z.of_nat k mod 4294967296).

(** Conversion of an [unsigned] to [int]: the values from 2^31 on become
    negative. *)
Definition int_of_unsigned (k : nat) : Z :=
  if Z.of_nat k <? 2147483648 then Z.of_nat k else Z.of_nat k - 4294967296.

(** Conversion of an [int] or [unsigned] to [double]; exact below 2^53. *)
Definition double_of_Z (z : Z) : float :=
  if z <? 0 then PrimFloat.opp (PrimFloat.of_uint63 (Uint63.of_Z (- z)))
  else PrimFloat.of_uint63 (Uint63.of_Z z).

Definition double_of_nat (k : nat) : float := double_of_Z (Z.of_nat k).

(** [a != b] on doubles: true as soon as one side is NaN. *)
Definition double_neq (a b : float) : bool := negb (PrimFloat.eqb a b).

(** [a > b] on doubles. *)
Definition double_gt (a b : float) : bool := PrimFloat.ltb b a.

(** The integer part of a double, toward zero; [None] for NaN and the
    infinities. *)
Definition truncate (x : float) : option Z :=
  match Prim2SF x with
  | S754_zero _ => Some 0
  | S754_finite s m e =>
      let a := Z.shiftl (Z.pos m) e in
      Some (if s then - a else a)
  | S754_infinity _ | S754_nan => None
  end.

(** [static_cast<unsigned char>(x)] for a double [x]: undefined unless the
    integer part fits the type. *)
Definition uchar_of_double (x : float) : option Z :=
  t ← truncate x; if (0 <=? t) && (t <=? 255) then Some t else None.

(** [static_cast<int>(x)] for a double [x]. *)
Definition int_of_double (x : float) : option Z :=
  t ← truncate x; if (-2147483648 <=? t) && (t <=? 2147483647) then Some t else None.

(** [static_cast<unsigned char>(iv)] for an [int]: the low 8 bits. *)
Definition uchar_of_int (iv : Z) : Z := iv mod 256.

(** [std::round]: the nearest integer, halfway cases away from zero; NaN,
    infinities, zeros and doubles that are already integers are returned
    unchanged. *)
Definition std_round (x : float) : float :=
  match Prim2SF x with
  | S754_finite s m e =>
      if 0 <=? e then x
      else
        let q := Z.shiftr (Z.pos m) (- e) in
        let r := if Z.testbit (Z.pos m) (- e - 1) then q + 1 else q in
        if r =? 0 then (if s then neg_zero else zero)
        else
          let f := PrimFloat.of_uint63 (Uint63.of_Z r) in
          if s then PrimFloat.opp f else f
  | _ => x
  end.

(** ** Pixels and grids *)

Record PixelData := mkPixel { value : float; is_calibrated : bool }.

(** What [std::vector<PixelData>(n)] holds: value-initialised pixels. *)
Definition pixel0 : PixelData := mkPixel 0%float false.

Abbreviation Grid := (list (list PixelData)).
Abbreviation RawGrid := (list (list Z)).

(** [data[i][j]] *)
Definition raw (data : RawGrid) (i j : nat) : Z :=
  default 0 (row ← data !! i; row !! j).

(** [processed_data[i][j]] *)
Definition cell (pd : Grid) (i j : nat) : PixelData :=
  default pixel0 (row ← pd !! i; row !! j).

(** [processed_data[i][j].value = v] *)
Definition set_value (pd : Grid) (i j : nat) (v : float) : Grid :=
  alter (alter (fun c => mkPixel v (is_calibrated c)) j) i pd.

(** [processed_data[i][j].is_calibrated = b] *)
Definition set_calibrated (pd : Grid) (i j : nat) (b : bool) : Grid :=
  alter (alter (fun c => mkPixel (value c) b) j) i pd.

(** ** Loops *)

(** [for (unsigned i = lo; i < hi; ++i) body], threading the state. *)
Definition for_range {S : Type} (lo hi : nat) (body : nat -> S -> S) (s : S) : S :=
  fold_left (fun s i => body i s) (seq lo (hi - lo)) s.

(** [std::accumulate(v.begin(), v.end(), 0.0)] *)
Definition accumulate (v : list float) : float :=
  fold_left PrimFloat.add v 0%float.

(** ** [process_data], block by block *)

(** Background normalization (lines 143-152). *)
Definition background_normalization (data : RawGrid) (m n : nat) (pd : Grid) : Grid :=
  for_range 0 m (fun i pd =>
    for_range 0 n (fun j pd =>
      let pd :=
        if raw data i j >? SIGNAL_THRESHOLD
        then set_value pd i j (double_of_Z (raw data i j - SIGNAL_THRESHOLD))
        else set_value pd i j 0%float in
      set_calibrated pd i j false) pd) pd.

(** Column averages over the last 15 rows (lines 158-166); returns the
    grid with the scanned cells flagged and [median_betathrone]. *)
Definition betathorne_reference (m n : nat) (pd : Grid) : Grid * list float :=
  for_range 0 n (fun j '(pd, median_betathrone) =>
    let '(sum, pd) :=
      for_range (m - BETA_THORNE_ROWS_COUNT) m (fun i '(sum, pd) =>
        (PrimFloat.add sum (value (cell pd i j)), set_calibrated pd i j true))
        (0%float, pd) in
    (pd, <[j := PrimFloat.div sum (double_of_nat BETA_THORNE_ROWS_COUNT)]> median_betathrone))
    (pd, replicate n 0%float).

(** Proportion scaling of the cells not yet calibrated (lines 169-181). *)
Definition betathorne_scaling (m n : nat) (median_betathrone : list float)
    (overall_median : float) (pd : Grid) : Grid :=
  for_range 0 m (fun i pd =>
    for_range 0 n (fun j pd =>
      if negb (is_calibrated (cell pd i j)) then
        if double_neq (default 0%float (median_betathrone !! j)) 0 then
          let proportion :=
            PrimFloat.div overall_median (default 0%float (median_betathrone !! j)) in
          set_value pd i j (PrimFloat.mul (value (cell pd i j)) proportion)
        else set_value pd i j 0%float
      else pd) pd) pd.

(** Row averages over the last 50 columns (lines 187-197); returns the
    grid with the scanned cells flagged and [median_detector]. *)
Definition detector_reference (m n : nat) (pd : Grid) : Grid * list float :=
  for_range 0 m (fun i '(pd, median_detector) =>
    let '(sum, pd) :=
      for_range (n - MEDIAN_DETECTOR_COUNT) n (fun j '(sum, pd) =>
        if negb (is_calibrated (cell pd i j))
        then (PrimFloat.add sum (value (cell pd i j)), set_calibrated pd i j true)
        else (sum, pd))
        (0%float, pd) in
    (pd, <[i := PrimFloat.div sum (double_of_nat MEDIAN_DETECTOR_COUNT)]> median_detector))
    (pd, replicate m 0%float).

(** Division by the row average, then the clamp (lines 199-208). *)
Definition detector_division (m n : nat) (median_detector : list float) (pd : Grid) : Grid :=
  for_range 0 m (fun i pd =>
    for_range 0 n (fun j pd =>
      let pd :=
        if negb (is_calibrated (cell pd i j))
        then set_value pd i j
               (PrimFloat.div (value (cell pd i j)) (default 0%float (median_detector !! i)))
        else pd in
      if double_gt (value (cell pd i j)) 1
      then set_value pd i j 1%float
      else pd) pd) pd.

(** What a call of [process_data] ends with. *)
Inductive outcome : Type :=
  | Returns (processed_data : Grid)
  | Throw (what : string).

Definition not_enough_rows : string :=
  "Error: Not enough rows for beta-thorne calibration.".
Definition not_enough_columns : string :=
  "Error: Not enough columns for detector calibration.".

(** [process_data] (lines 138-210), in the order of the source: the error
    about rows is thrown after the background block, the error about
    columns after the row calibration. The subtractions
    [m - BETA_THORNE_ROWS_COUNT] and [n - MEDIAN_DETECTOR_COUNT] are only
    reached past these checks, where they do not wrap. *)
Definition process_data (data : RawGrid) : outcome :=
  let m := to_unsigned (length data) in
  let n := to_unsigned (length (default [] (data !! 0%nat))) in
  let processed_data := replicate m (replicate n pixel0) in
  let processed_data := background_normalization data m n processed_data in
  if (m <? BETA_THORNE_ROWS_COUNT)%nat then Throw not_enough_rows else
  let '(processed_data, median_betathrone) := betathorne_reference m n processed_data in
  let overall_median :=
    PrimFloat.div (accumulate median_betathrone) (double_of_nat n) in
  let processed_data :=
    betathorne_scaling m n median_betathrone overall_median processed_data in
  if (n <? MEDIAN_DETECTOR_COUNT)%nat then Throw not_enough_columns else
  let '(processed_data, median_detector) := detector_reference m n processed_data in
  let processed_data := detector_division m n median_detector processed_data in
  Returns processed_data.

(** ** The pixel buffer and the two encoders

    Each encoder is modelled up to the buffer it hands to
    [generateBitmapImage] (three bytes per pixel, in the order blue, green,
    red); the call that writes the file comes with
    [create_and_save_image_file] and [calculate_and_save_thickness_file]
    below. [std::log] belongs to the C library and is a parameter of the
    thickness encoder. *)

(** [int pixel_index = (i * n + j) * BYTES_PER_PIXEL]: the product is
    computed on [unsigned] and converted to [int]. *)
Definition pixel_index (n i j : nat) : Z :=
  int_of_unsigned (to_unsigned ((i * n + j) * BYTES_PER_PIXEL)).

(** [image[idx] = b]; an index outside the vector is undefined. *)
Definition store (image : list Z) (idx : Z) (b : Z) : option (list Z) :=
  if (0 <=? idx) && (idx <? Z.of_nat (length image))
  then Some (<[Z.to_nat idx := b]> image)
  else None.

(** [create_and_save_image] (lines 212-233). *)
Definition create_and_save_image (data : Grid) : option (list Z) :=
  let m := to_unsigned (length data) in
  let n := to_unsigned (length (default [] (data !! 0%nat))) in
  let image := replicate (to_unsigned (m * n * BYTES_PER_PIXEL)) 0 in
  for_range 0 m (fun i image =>
    for_range 0 n (fun j image =>
      image ← image;
      let pixel_index := pixel_index n i j in
      if is_calibrated (cell data i j) then
        image ← store image (pixel_index + 2) 255;
        image ← store image (pixel_index + 1) 0;
        store image (pixel_index + 0) 0
      else
        color_value ← uchar_of_double (PrimFloat.mul (value (cell data i j)) 255);
        image ← store image (pixel_index + 2) color_value;
        image ← store image (pixel_index + 1) color_value;
        store image (pixel_index + 0) color_value) image) (Some image).

(** [calculate_and_save_thickness] (lines 236-259). *)
Definition calculate_and_save_thickness (log : float -> float) (data : Grid)
    : option (list Z) :=
  let m := to_unsigned (length data) in
  let n := to_unsigned (length (default [] (data !! 0%nat))) in
  let image := replicate (to_unsigned (m * n * BYTES_PER_PIXEL)) 0 in
  for_range 0 m (fun i image =>
    for_range 0 n (fun j image =>
      image ← image;
      let pixel_index := pixel_index n i j in
      let v := value (cell data i j) in
      let t := if double_gt v 0 then PrimFloat.opp (log v) else 10%float in
      iv ← int_of_double (std_round (PrimFloat.mul t 25));
      let iv := if iv <? 0 then 0 else iv in
      let iv := if iv >? 255 then 255 else iv in
      let color_value := uchar_of_int iv in
      image ← store image (pixel_index + 2) color_value;
      image ← store image (pixel_index + 1) color_value;
      store image (pixel_index + 0) color_value) image) (Some image).

(** ** The bitmap file

    [generateBitmapImage] and the two header builders. The file is the
    list of bytes written to it, in order; opening the file is assumed to
    succeed. The header builders fill function-local [static] arrays,
    which keep their content from one call to the next: the arrays are an
    explicit state, [statics], threaded through the calls. An [int]
    computation that leaves the type is undefined ([None]); [>>] on an
    [int] is the arithmetic shift. *)

Definition FILE_HEADER_SIZE : Z := 14.
Definition INFO_HEADER_SIZE : Z := 40.

(** The value of an [int] expression, undefined outside the type. *)
Definition int_result (z : Z) : option Z :=
  if (-2147483648 <=? z) && (z <=? 2147483647) then Some z else None.

(** The two [static] arrays. *)
Record statics := mkStatics { fileHeader : list Z; infoHeader : list Z }.

(** Their content when the program starts. *)
Definition initial_statics : statics := mkStatics (replicate 14 0) (replicate 40 0).

(** [createBitmapFileHeader] (lines 55-75): the array after the call,
    which is what the returned pointer designates. ['B'] is 66 and ['M']
    is 77. *)
Definition createBitmapFileHeader (fileHeader : list Z) (height stride : Z)
    : option (list Z) :=
  product ← int_result (stride * height);
  fileSize ← int_result (FILE_HEADER_SIZE + INFO_HEADER_SIZE + product);
  let fileHeader := <[0%nat := uchar_of_int 66]> fileHeader in
  let fileHeader := <[1%nat := uchar_of_int 77]> fileHeader in
  let fileHeader := <[2%nat := uchar_of_int fileSize]> fileHeader in
  let fileHeader := <[3%nat := uchar_of_int (Z.shiftr fileSize 8)]> fileHeader in
  let fileHeader := <[4%nat := uchar_of_int (Z.shiftr fileSize 16)]> fileHeader in
  let fileHeader := <[5%nat := uchar_of_int (Z.shiftr fileSize 24)]> fileHeader in
  let fileHeader :=
    <[10%nat := uchar_of_int (FILE_HEADER_SIZE + INFO_HEADER_SIZE)]> fileHeader in
  Some fileHeader.

(** [createBitmapInfoHeader] (lines 77-106). *)
Definition createBitmapInfoHeader (infoHeader : list Z) (height width : Z) : list Z :=
  let infoHeader := <[0%nat := uchar_of_int INFO_HEADER_SIZE]> infoHeader in
  let infoHeader := <[4%nat := uchar_of_int width]> infoHeader in
  let infoHeader := <[5%nat := uchar_of_int (Z.shiftr width 8)]> infoHeader in
  let infoHeader := <[6%nat := uchar_of_int (Z.shiftr width 16)]> infoHeader in
  let infoHeader := <[7%nat := uchar_of_int (Z.shiftr width 24)]> infoHeader in
  let infoHeader := <[8%nat := uchar_of_int height]> infoHeader in
  let infoHeader := <[9%nat := uchar_of_int (Z.shiftr height 8)]> infoHeader in
  let infoHeader := <[10%nat := uchar_of_int (Z.shiftr height 16)]> infoHeader in
  let infoHeader := <[11%nat := uchar_of_int (Z.shiftr height 24)]> infoHeader in
  let infoHeader := <[12%nat := uchar_of_int 1]> infoHeader in
  let infoHeader := <[14%nat := uchar_of_int (Z.of_nat BYTES_PER_PIXEL * 8)]> infoHeader in
  infoHeader.

(** The [len] bytes at [image + offset]; undefined outside the buffer. *)
Definition read_bytes (image : list Z) (offset len : Z) : option (list Z) :=
  if (0 <=? offset) && (0 <=? len) && (offset + len <=? Z.of_nat (length image))
  then Some (take (Z.to_nat len) (drop (Z.to_nat offset) image))
  else None.

(** [generateBitmapImage] (lines 29-53): the bytes written to the file and
    the arrays after the call. *)
Definition generateBitmapImage (st : statics) (image : list Z) (height width : Z)
    : option (list Z * statics) :=
  widthInBytes ← int_result (width * Z.of_nat BYTES_PER_PIXEL);
  let padding := [0; 0; 0] in
  let paddingSize := Z.rem (4 - Z.rem widthInBytes 4) 4 in
  stride ← int_result (widthInBytes + paddingSize);
  fileHeader ← createBitmapFileHeader (fileHeader st) height stride;
  let imageFile := take (Z.to_nat FILE_HEADER_SIZE) fileHeader in
  let infoHeader := createBitmapInfoHeader (infoHeader st) height width in
  let imageFile := imageFile ++ take (Z.to_nat INFO_HEADER_SIZE) infoHeader in
  imageFile ←
    for_range 0 (Z.to_nat height) (fun i imageFile =>
      imageFile ← imageFile;
      offset ← int_result (Z.of_nat i * widthInBytes);
      row ← read_bytes image offset (Z.of_nat BYTES_PER_PIXEL * width);
      Some (imageFile ++ row ++ take (Z.to_nat paddingSize) padding))
      (Some imageFile);
  Some (imageFile, mkStatics fileHeader infoHeader).

(** [create_and_save_image] to its last line (232): the filled buffer goes
    to [generateBitmapImage], the sizes converted to [int]. *)
Definition create_and_save_image_file (st : statics) (data : Grid)
    : option (list Z * statics) :=
  let m := to_unsigned (length data) in
  let n := to_unsigned (length (default [] (data !! 0%nat))) in
  image ← create_and_save_image data;
  generateBitmapImage st image (int_of_unsigned m) (int_of_unsigned n).

(** [calculate_and_save_thickness] to its last line (258). *)
Definition calculate_and_save_thickness_file (log : float -> float) (st : statics)
    (data : Grid) : option (list Z * statics) :=
  let m := to_unsigned (length data) in
  let n := to_unsigned (length (default [] (data !! 0%nat))) in
  image ← calculate_and_save_thickness log data;
  generateBitmapImage st image (int_of_unsigned m) (int_of_unsigned n).

(** ** The machine

    A [std::vector] constructor throws [std::bad_alloc] when the memory it
    asks for cannot be obtained. The program decides neither whether it
    can, nor what [what()] returns for that exception: a run is given
    both. [allocates line rows columns] tells whether the vectors built
    at a source line, [rows] times [columns] elements in all, are
    obtained; each such line is executed at most once in a run, so the
    oracle can describe any heap. The lines are 125 ([data]), 141
    ([processed_data]), 158 ([median_betathrone]), 187
    ([median_detector]), 215 and 239 ([image]) and 242
    ([thickness_data]). Only the vectors are decided by the machine: the
    strings of the program (its file names and the messages of its
    [std::runtime_error]s) and the buffers of its streams are taken to be
    obtained, and [fopen] to succeed. *)
Record machine := mkMachine {
  allocates : nat -> nat -> nat -> bool;
  bad_alloc_what : string
}.

(** ** Reading the input file

    [read_data_from_file] (lines 109-135). A file is the list of its
    bytes and the file system a function from names to contents, [None]
    for a name that cannot be opened. An [unsigned] object is its four
    bytes, least significant first, each [None] until it is written:
    [width] and [height] (declared without initialiser in [main]) and
    [number] start that way, and reading an object that has such a byte is
    undefined. [size_t] has 64 bits. *)

(** What a call ends with: a value or a thrown exception, with its
    [what()]. *)
Inductive may_throw (A : Type) : Type :=
  | Value (a : A)
  | Thrown (what : string).
Arguments Value {A} a.
Arguments Thrown {A} what.

(** The number a sequence of bytes stands for, least significant first. *)
Definition le_decode (bytes : list Z) : Z :=
  fold_right (fun b acc => b + 256 * acc) 0 bytes.

Definition uninitialized : list (option Z) := [None; None; None; None].

(** The value of an [unsigned] object. *)
Definition unsigned_value (x : list (option Z)) : option Z :=
  bytes ← mapM id x; Some (le_decode bytes).

(** [static_cast<int>(number)]: the values from 2^31 on become negative. *)
Definition int_of_word (v : Z) : Z :=
  if v <? 2147483648 then v else v - 4294967296.

(** A [std::ifstream] on a file that was opened: the content of the file,
    the read position and the failure flag ([eofbit] is only ever set
    together with [failbit] here). *)
Record ifstream := mkStream { content : list Z; position : nat; failed : bool }.

(** [inf.read(reinterpret_cast<char*>(&x), 4)]: nothing happens on a
    failed stream; otherwise the bytes that are left, 4 at most, are
    copied over the first bytes of [x], and the stream fails when there
    are fewer than 4. *)
Definition stream_read (inf : ifstream) (x : list (option Z)) : ifstream * list (option Z) :=
  if failed inf then (inf, x)
  else
    let got := take 4 (drop (position inf) (content inf)) in
    if (length got =? 4)%nat
    then (mkStream (content inf) (position inf + 4) false, Some <$> got)
    else (mkStream (content inf) (position inf + length got) true,
          (Some <$> got) ++ drop (length got) x).

(** [inf.tellg()] *)
Definition tellg (inf : ifstream) : Z :=
  if failed inf then -1 else Z.of_nat (position inf).

(** [inf.seekg(p)]: nothing happens on a failed stream; a position past
    the end of the file is accepted. *)
Definition seekg (inf : ifstream) (p : Z) : ifstream :=
  if failed inf then inf else mkStream (content inf) (Z.to_nat p) false.

Definition could_not_open (filename : string) : string :=
  String.append "Error: could not open file " filename.
Definition zero_dimensions : string :=
  "Error: image dimensions cannot be zero.".

(** [read_data_from_file]: the grid, then [height] and [width] as the
    call leaves them. The sizes are tested before [data] is built, and
    [data] is built before the first cell is read. *)
Definition read_data_from_file (host : machine) (files : string -> option (list Z))
    (filename : string) : option (may_throw (RawGrid * nat * nat)) :=
  match files filename with
  | None => Some (Thrown (could_not_open filename))
  | Some bytes =>
      let inf := mkStream bytes 0 false in
      let '(inf, width) := stream_read inf uninitialized in
      let '(inf, height) := stream_read inf uninitialized in
      let inf := seekg inf (tellg inf mod 4294967296 + 4 * 14) in
      h ← unsigned_value height;
      zero ← (if h =? 0 then Some true else w ← unsigned_value width; Some (w =? 0));
      if zero : bool then Some (Thrown zero_dimensions) else
      w ← unsigned_value width;
      let h := Z.to_nat h in
      let w := Z.to_nat w in
      if negb (allocates host 125 h w) then Some (Thrown (bad_alloc_what host)) else
      let data := replicate h (replicate w 0) in
      s ← for_range 0 h (fun i s =>
            for_range 0 w (fun j s =>
              '(inf, number, data) ← s;
              let '(inf, number) := stream_read inf number in
              v ← unsigned_value number;
              Some (inf, number, alter (fun row => <[j := int_of_word v]> row) i data))
            s) (Some (inf, uninitialized, data));
      Some (Value (s.2, h, w))
  end.

(** ** The program

    [main] (lines 261-284). The run is given the machine, the file
    system, the value of [choice] once [std::cin >> choice] has run, and
    [std::log]; its result is the exit code, the text sent to
    [std::cerr] and the files written, in order. What is sent to
    [std::cout] is left out. *)

(** [process_data] as [main] runs it: each of its three vectors (lines
    141, 158 and 187) may fail to be obtained, before the test that
    follows it in the source. *)
Definition process_data_on (host : machine) (data : RawGrid) : outcome :=
  let m := to_unsigned (length data) in
  let n := to_unsigned (length (default [] (data !! 0%nat))) in
  if negb (allocates host 141 m n) then Throw (bad_alloc_what host)
  else if (m <? BETA_THORNE_ROWS_COUNT)%nat then process_data data
  else if negb (allocates host 158 n 1) then Throw (bad_alloc_what host)
  else if (n <? MEDIAN_DETECTOR_COUNT)%nat then process_data data
  else if negb (allocates host 187 m 1) then Throw (bad_alloc_what host)
  else process_data data.

Record run := mkRun {
  exit_code : Z;
  cerr : option string;
  written : list (string * list Z)
}.

(** What [std::endl] writes. *)
Definition endl : string := String (Ascii.ascii_of_nat 10) EmptyString.

(** The handler of line 278, reached with the files [files] written. *)
Definition caught (files : list (string * list Z)) (what : string) : run :=
  mkRun 1 (Some (String.append "An error occurred: " (String.append what endl))) files.

Definition main (host : machine) (files : string -> option (list Z))
    (log : float -> float) (choice : Z) : option run :=
  r ← read_data_from_file host files "block.int";
  match r with
  | Thrown what => Some (caught [] what)
  | Value (data, _, _) =>
      match process_data_on host data with
      | Throw what => Some (caught [] what)
      | Returns processed_data =>
          let m := to_unsigned (length processed_data) in
          let n := to_unsigned (length (default [] (processed_data !! 0%nat))) in
          let pixels := to_unsigned (m * n * BYTES_PER_PIXEL) in
          if negb (allocates host 215 pixels 1) then Some (caught [] (bad_alloc_what host))
          else
          '(normalized, st) ← create_and_save_image_file initial_statics processed_data;
          let files := [("normalized_image.bmp"%string, normalized)] in
          if choice =? 1 then
            if negb (allocates host 239 pixels 1)
            then Some (caught files (bad_alloc_what host))
            else if negb (allocates host 242 m n)
            then Some (caught files (bad_alloc_what host))
            else
            '(thickness, st) ← calculate_and_save_thickness_file log st processed_data;
            Some (mkRun 0 None (files ++ [("thickness_image.bmp"%string, thickness)]))
          else Some (mkRun 0 None files)
      end
  end.

(** * Definitions used in the statements and proofs *)

(** ** The state of [process_data] after each block *)

(** For a grid of [m] rows and [n] columns; [process_data] is the
    composition of these (lemma [process_data_returns]). *)
Definition after_background (data : RawGrid) (m n : nat) : Grid :=
  background_normalization data m n (replicate m (replicate n pixel0)).

Definition after_row_reference (data : RawGrid) (m n : nat) : Grid * list float :=
  betathorne_reference m n (after_background data m n).

Definition overall_median_of (median_betathrone : list float) (n : nat) : float :=
  PrimFloat.div (accumulate median_betathrone) (double_of_nat n).

Definition after_row_scaling (data : RawGrid) (m n : nat) : Grid :=
  let '(pd, median_betathrone) := after_row_reference data m n in
  betathorne_scaling m n median_betathrone (overall_median_of median_betathrone n) pd.

Definition after_column_reference (data : RawGrid) (m n : nat) : Grid * list float :=
  detector_reference m n (after_row_scaling data m n).

Definition after_column_division (data : RawGrid) (m n : nat) : Grid :=
  let '(pd, median_detector) := after_column_reference data m n in
  detector_division m n median_detector pd.

(** ** Closed forms of the intermediate quantities

    What each block leaves in a cell or in a reference vector, written as
    a function of the raw grid; the loops are proved to compute exactly
    these. *)

(** Value of cell (i, j) after background normalization. *)
Definition background_value (data : RawGrid) (i j : nat) : float :=
  if raw data i j >? SIGNAL_THRESHOLD
  then double_of_Z (raw data i j - SIGNAL_THRESHOLD)
  else 0%float.

(** Whether row [i] of an [m]-row grid is one of the last 15. *)
Definition in_row_strip (m i : nat) : bool := (m - BETA_THORNE_ROWS_COUNT <=? i)%nat.

(** Whether column [j] of an [n]-column grid is one of the last 50. *)
Definition in_column_strip (n j : nat) : bool := (n - MEDIAN_DETECTOR_COUNT <=? j)%nat.

(** [median_betathrone[j]] *)
Definition row_ref (data : RawGrid) (m j : nat) : float :=
  PrimFloat.div
    (fold_left (fun sum i => PrimFloat.add sum (background_value data i j))
       (seq (m - BETA_THORNE_ROWS_COUNT) BETA_THORNE_ROWS_COUNT) 0%float)
    (double_of_nat BETA_THORNE_ROWS_COUNT).

(** [overall_median] *)
Definition overall_row_ref (data : RawGrid) (m n : nat) : float :=
  overall_median_of (map (row_ref data m) (seq 0 n)) n.

(** Value of cell (i, j) after the proportion scaling, for a given
    [overall_median]. *)
Definition scaling_of (overall_median : float) (data : RawGrid) (m i j : nat) : float :=
  if in_row_strip m i then background_value data i j
  else if double_neq (row_ref data m j) 0
       then PrimFloat.mul (background_value data i j)
              (PrimFloat.div overall_median (row_ref data m j))
       else 0%float.

Definition scaled_value (data : RawGrid) (m n i j : nat) : float :=
  scaling_of (overall_row_ref data m n) data m i j.

(** [median_detector[i]] *)
Definition col_ref (data : RawGrid) (m n i : nat) : float :=
  PrimFloat.div
    (fold_left (fun sum j =>
                  if in_row_strip m i then sum
                  else PrimFloat.add sum (scaled_value data m n i j))
       (seq (n - MEDIAN_DETECTOR_COUNT) MEDIAN_DETECTOR_COUNT) 0%float)
    (double_of_nat MEDIAN_DETECTOR_COUNT).

(** The clamp of lines 204-206. *)
Definition clamp (v : float) : float := if double_gt v 1 then 1%float else v.

(** Cell (i, j) of the grid that [process_data] returns. *)
Definition final_cell (data : RawGrid) (m n i j : nat) : PixelData :=
  if in_row_strip m i || in_column_strip n j
  then mkPixel (clamp (scaled_value data m n i j)) true
  else mkPixel (clamp (PrimFloat.div (scaled_value data m n i j) (col_ref data m n i))) false.

(** ** The specification's wording *)

(** Sum of the values of the cells of row [i] in the last 50 columns that
    are not marked calibrated, divided by the constant 50. *)
Definition spec_col_ref (pd : Grid) (n i : nat) : float :=
  PrimFloat.div
    (accumulate
       (map value
          (List.filter (fun c => negb (is_calibrated c))
             (drop (n - MEDIAN_DETECTOR_COUNT) (default [] (pd !! i))))))
    (double_of_nat MEDIAN_DETECTOR_COUNT).

(** The specification's [round]: the integer nearest to a finite double,
    halfway cases away from zero, taken on the exact value [m * 2 ^ e] of
    the double: for [e < 0] it is the integer part of
    [m / 2 ^ (- e) + 1 / 2]. NaN and the infinities have none. *)
Definition nearest_integer (x : float) : option Z :=
  match Prim2SF x with
  | S754_zero _ => Some 0
  | S754_finite s m e =>
      let n := if 0 <=? e then Z.pos m * 2 ^ e
               else (2 * Z.pos m + 2 ^ (- e)) / (2 * 2 ^ (- e)) in
      Some (if s then - n else n)
  | S754_infinity _ | S754_nan => None
  end.

(** The thickness as the specification words it: [-ln v] for a positive
    value and 10 otherwise, times 25, rounded, and clamped to 0..255;
    it has no value when the rounded number is outside the range of the
    [int] the code holds it in. *)
Definition spec_thickness (log : float -> float) (v : float) : option Z :=
  let t := if PrimFloat.ltb 0 v then PrimFloat.opp (log v) else 10%float in
  intensity ← nearest_integer (PrimFloat.mul t 25);
  if (-2147483648 <=? intensity) && (intensity <=? 2147483647)
  then Some (Z.max 0 (Z.min 255 intensity))
  else None.

(** ** Well-formed inputs *)

(** A grid of [m] rows of [n] cells each. *)
Definition shape {A : Type} (g : list (list A)) (m n : nat) : Prop :=
  length g = m /\ Forall (fun row => length row = n) g.

(** The grids [read_data_from_file] builds: rectangular, with both
    dimensions read from 32-bit unsigned fields. *)
Definition raw_grid (data : RawGrid) (m n : nat) : Prop :=
  shape data m n /\ Z.of_nat m < 4294967296 /\ Z.of_nat n < 4294967296.

(** A grid of cells whose buffer indices fit the [int] index. *)
Definition image_grid (data : Grid) (m n : nat) : Prop :=
  shape data m n /\ (0 < m)%nat /\ (0 < n)%nat /\ Z.of_nat (3 * (m * n)) < 2147483648.

(** ** Steps on one cell *)

(** Update of one cell, the common form of [set_value] and
    [set_calibrated]. *)
Definition upd (pd : Grid) (i j : nat) (f : PixelData -> PixelData) : Grid :=
  alter (alter f j) i pd.

(** A loop body that rewrites cell (i, j) by [F] and nothing else, on
    grids of [m] by [n] cells. *)
Definition cell_step (m n i j : nat) (F : PixelData -> PixelData) (body : Grid -> Grid) : Prop :=
  forall pd, shape pd m n ->
    shape (body pd) m n /\
    cell (body pd) i j = F (cell pd i j) /\
    forall i' j', (i', j') <> (i, j) -> cell (body pd) i' j' = cell pd i' j'.

(** ** The two encoders as instances of one fill

    Both encoders walk the grid in the same order and store the three
    bytes of a colour computed from the cell alone. *)

(** Blue, green and red bytes of a cell in the normalized view. *)
Definition normalized_color (c : PixelData) : option (Z * Z * Z) :=
  if is_calibrated c then Some (0, 0, 255)
  else
    color_value ← uchar_of_double (PrimFloat.mul (value c) 255);
    Some (color_value, color_value, color_value).

(** The byte of a cell in the thickness view. *)
Definition thickness_byte (log : float -> float) (c : PixelData) : option Z :=
  let v := value c in
  let t := if double_gt v 0 then PrimFloat.opp (log v) else 10%float in
  iv ← int_of_double (std_round (PrimFloat.mul t 25));
  let iv := if iv <? 0 then 0 else iv in
  let iv := if iv >? 255 then 255 else iv in
  Some (uchar_of_int iv).

Definition thickness_color (log : float -> float) (c : PixelData) : option (Z * Z * Z) :=
  b ← thickness_byte log c; Some (b, b, b).

Definition paint (color : PixelData -> option (Z * Z * Z)) (data : Grid) (m n : nat)
    (image : list Z) : option (list Z) :=
  for_range 0 m (fun i image =>
    for_range 0 n (fun j image =>
      image ← image;
      '(b, g, r) ← color (cell data i j);
      image ← store image (pixel_index n i j + 2) r;
      image ← store image (pixel_index n i j + 1) g;
      store image (pixel_index n i j + 0) b) image) (Some image).

(** The three bytes of pixel (i, j) in [image] are the colour [color]
    gives to the cell. *)
Definition painted (color : PixelData -> option (Z * Z * Z)) (data : Grid) (n : nat)
    (image : list Z) (i j : nat) : Prop :=
  exists b g r, color (cell data i j) = Some (b, g, r) /\
    image !! (3 * (i * n + j))%nat = Some b /\
    image !! (3 * (i * n + j) + 1)%nat = Some g /\
    image !! (3 * (i * n + j) + 2)%nat = Some r.

(** Invariant of the fill: the pixels of linear index below [k] are
    painted. *)
Definition painted_upto (color : PixelData -> option (Z * Z * Z)) (data : Grid)
    (m n k : nat) (st : option (list Z)) : Prop :=
  forall image, st = Some image ->
    length image = (3 * (m * n))%nat /\
    forall i j, (j < n)%nat -> (i * n + j < k)%nat -> painted color data n image i j.

(** ** Magnitudes of doubles

    Predicates on the bit-level description [Prim2SF x] of a double, used
    to bound what the pipeline computes. *)

(** [b] is [a] shifted right by [k] bits: the mantissa is divided by
    [2 ^ k], and nothing is recorded as lost when nothing was. *)
Definition shifted (k : Z) (a b : shr_record) : Prop :=
  shr_m b = shr_m a / 2 ^ k /\
  (shr_r a = false -> shr_s a = false -> shr_m a mod 2 ^ k = 0 ->
   shr_r b = false /\ shr_s b = false).

(** The exponent binary64 gives to a number whose leading bit has
    position [e]. *)
Definition fexp64 (e : Z) : Z := Z.max (e - 53) (-1074).

(** [0 <= x < 2 ^ k], [x] finite. *)
Definition below (k : Z) (x : spec_float) : Prop :=
  match x with
  | S754_zero _ => True
  | S754_finite false m e => Z.pos (digits2_pos m) + e <= k
  | _ => False
  end.

(** [2 ^ (k - 1) <= x], [x] finite. *)
Definition above (k : Z) (x : spec_float) : Prop :=
  match x with
  | S754_finite false m e => k <= Z.pos (digits2_pos m) + e
  | _ => False
  end.

(** [x] is zero or [2 ^ (k - 1) <= x], [x] finite. *)
Definition zero_or_above (k : Z) (x : spec_float) : Prop :=
  match x with
  | S754_zero _ => True
  | S754_finite false m e => k <= Z.pos (digits2_pos m) + e
  | _ => False
  end.

(** [0 <= x], possibly infinite; not NaN. *)
Definition not_negative (x : spec_float) : Prop :=
  match x with
  | S754_zero _ | S754_finite false _ _ | S754_infinity false => True
  | _ => False
  end.

(** [x * 2 ^ 1074] for a finite non-negative [x], an integer. *)
Definition scaled (x : spec_float) : Z :=
  match x with
  | S754_finite false m e => Z.pos m * 2 ^ (e + 1074)
  | _ => 0
  end.

(** The same predicates on primitive doubles. *)
Definition double_below (k : Z) (x : float) : Prop := below k (Prim2SF x).

Definition double_above (k : Z) (x : float) : Prop := above k (Prim2SF x).

Definition double_zero_or_above (k : Z) (x : float) : Prop := zero_or_above k (Prim2SF x).

Definition double_not_negative (x : float) : Prop := not_negative (Prim2SF x).

Definition double_scaled (x : float) : Z := scaled (Prim2SF x).

(** ** Concrete grids used in examples *)

(** A grid of [m] rows and [n] columns holding the reading [z] everywhere. *)
Definition constant_grid (m n : nat) (z : Z) : RawGrid := replicate m (replicate n z).

(** 16 rows of 64 columns: row 0 reads 2049 everywhere; the 15 reference
    rows read 2112 in the last column and 0 elsewhere. *)
Definition one_bright_column : RawGrid :=
  replicate 64 2049 :: replicate 15 (replicate 63 0 ++ [2112]).

(** 16 rows of 51 columns: row 0 reads 2049 in column 0 and 2050
    elsewhere; the 15 reference rows read 2049 everywhere. *)
Definition half_intensity : RawGrid :=
  (2049 :: replicate 50 2050) :: replicate 15 (replicate 51 2049).

(** A grid of a single unflagged cell. *)
Definition single_cell (v : float) : Grid := [[mkPixel v false]].

(** A logarithm for the examples, the correctly rounded [ln] on the three
    values they use: 0 at 1, the double nearest to [ln 0.25] at 0.25 and
    the double nearest to [ln 0.5] at 0.5 (and elsewhere). *)
Definition ln_half : float := (-0x1.62e42fefa39efp-1)%float.
Definition ln_quarter : float := (-0x1.62e42fefa39efp+0)%float.

Definition log_table (v : float) : float :=
  if PrimFloat.eqb v 1 then 0%float
  else if PrimFloat.eqb v 0.25 then ln_quarter
  else ln_half.

(** ** The bitmap file *)

(** The [len] bytes of [file] from position [pos]. *)
Definition slice (pos len : nat) (file : list Z) : list Z := take len (drop pos file).

(** The row length of the file: the least multiple of 4 that holds
    [width] pixels. *)
Definition row_stride (width : nat) : nat := (4 * ((3 * width + 3) / 4))%nat.

(** The arrays have their declared sizes. *)
Definition sized_statics (st : statics) : Prop :=
  length (fileHeader st) = 14%nat /\ length (infoHeader st) = 40%nat.

(** The arrays hold 0 wherever the builders never write, as they do when
    the program starts. *)
Definition clean_statics (st : statics) : Prop :=
  sized_statics st /\
  (forall k, (6 <= k < 10 \/ 11 <= k < 14)%nat -> fileHeader st !! k = Some 0) /\
  (forall k, (1 <= k < 4 \/ k = 13 \/ 15 <= k < 40)%nat -> infoHeader st !! k = Some 0).

(** The file after the headers and the first [i] rows. *)
Definition rows_written (image : list Z) (w i : nat) (hdr file : list Z) : Prop :=
  length file = (54 + i * row_stride w)%nat /\
  take 54 file = hdr /\
  forall r k, (r < i)%nat -> (k < row_stride w)%nat ->
    file !! (54 + r * row_stride w + k)%nat
    = if (k <? 3 * w)%nat then image !! (r * (3 * w) + k)%nat else Some 0.

(** A file that starts with the two headers of an image of [h] rows of
    [w] pixels, 24 bits per pixel, and has the length they announce. *)
Definition bitmap_header (h w : nat) (file : list Z) : Prop :=
  length file = (54 + h * row_stride w)%nat /\
  slice 0 2 file = [66; 77] /\
  le_decode (slice 2 4 file) = Z.of_nat (length file) /\
  le_decode (slice 10 4 file) = 54 /\
  le_decode (slice 14 4 file) = 40 /\
  le_decode (slice 18 4 file) = Z.of_nat w /\
  le_decode (slice 22 4 file) = Z.of_nat h /\
  le_decode (slice 26 2 file) = 1 /\
  le_decode (slice 28 2 file) = 24 /\
  slice 30 24 file = replicate 24 0.

(** A buffer of two rows of two pixels, the file written for it when the
    program starts and the arrays after the call. *)
Definition two_by_two : list Z := [1; 2; 3; 4; 5; 6; 7; 8; 9; 10; 11; 12].

Definition two_by_two_file : list Z :=
  Eval vm_compute in
    default [] (fst <$> generateBitmapImage initial_statics two_by_two 2 2).

Definition two_by_two_statics : statics :=
  Eval vm_compute in
    default initial_statics (snd <$> generateBitmapImage initial_statics two_by_two 2 2).

(** The two files written for a grid of one unflagged cell of value 0.5,
    the thickness view with [log_table]. *)
Definition single_cell_file : list Z :=
  Eval vm_compute in
    default [] (fst <$> create_and_save_image_file initial_statics (single_cell 0.5)).

Definition single_cell_thickness_file : list Z :=
  Eval vm_compute in
    default [] (fst <$> calculate_and_save_thickness_file log_table
                          initial_statics (single_cell 0.5)).

Definition single_cell_statics : statics :=
  Eval vm_compute in
    default initial_statics
      (snd <$> create_and_save_image_file initial_statics (single_cell 0.5)).

(** ** The input file *)

Definition is_byte (b : Z) : Prop := 0 <= b < 256.

(** The width and height fields of the header. *)
Definition header_width (bytes : list Z) : nat := Z.to_nat (le_decode (take 4 bytes)).
Definition header_height (bytes : list Z) : nat :=
  Z.to_nat (le_decode (take 4 (drop 4 bytes))).

(** The bytes of the file from offset [64 + 4 * k], 4 at most. *)
Definition word_at (bytes : list Z) (k : nat) : list Z := take 4 (drop (64 + 4 * k) bytes).

(** The number of 4-byte words the file holds from offset 64 on. *)
Definition complete_words (bytes : list Z) : nat := (length bytes - 64) / 4.

(** The bytes of [number] once the file has run out: what was left of the
    file, over the last word read. *)
Definition stale_word (bytes : list Z) : list Z :=
  let c := complete_words bytes in
  word_at bytes c ++ drop (length (word_at bytes c)) (word_at bytes (c - 1)).

(** The bytes of [number] when cell [k] is stored. *)
Definition word_read (bytes : list Z) (k : nat) : list Z :=
  if (k <? complete_words bytes)%nat then word_at bytes k else stale_word bytes.

(** The stream and [number] after [k] cells. *)
Definition reads (bytes : list Z) (k : nat) : ifstream * list (option Z) :=
  Nat.iter k (fun s => stream_read s.1 s.2) (mkStream bytes 64 false, uninitialized).

(** The two loops of [read_data_from_file]. *)
Definition read_cells (bytes : list Z) (h w : nat)
    : option (ifstream * list (option Z) * RawGrid) :=
  for_range 0 h (fun i s =>
    for_range 0 w (fun j s =>
      '(inf, number, data) ← s;
      let '(inf, number) := stream_read inf number in
      v ← unsigned_value number;
      Some (inf, number, alter (fun row => <[j := int_of_word v]> row) i data))
    s) (Some (mkStream bytes 64 false, uninitialized, replicate h (replicate w 0))).

(** A file in the format [read_data_from_file] expects: width, height,
    14 words that are skipped, then the readings row by row, each a
    32-bit two's-complement word, least significant byte first. *)
Definition encode_word (z : Z) : list Z :=
  [z mod 256; z / 256 mod 256; z / 65536 mod 256; z / 16777216 mod 256].

Definition encode_file (width height : nat) (reserved : list Z) (data : RawGrid) : list Z :=
  encode_word (Z.of_nat width) ++ encode_word (Z.of_nat height) ++ reserved
  ++ flat_map encode_word (concat data).

(** A machine on which every vector is obtained, with the [what()] of
    libstdc++. *)
Definition roomy : machine := mkMachine (fun _ _ _ => true) "std::bad_alloc".

(** A machine on which no vector of more than [limit] elements is. *)
Definition cramped (limit : nat) : machine :=
  mkMachine (fun _ rows columns => (rows * columns <=? limit)%nat) "std::bad_alloc".

(** A machine on which the vectors of one source line are not obtained. *)
Definition fails_at (line : nat) : machine :=
  mkMachine (fun l _ _ => negb (l =? line)%nat) "std::bad_alloc".

(** A file system that holds one file. *)
Definition one_file (name : string) (bytes : list Z) (filename : string)
    : option (list Z) :=
  if String.eqb filename name then Some bytes else None.

(** A file of one row of two readings, and the same file cut after 70
    bytes, in the middle of the second reading. *)
Definition small_file : list Z := encode_file 2 1 (replicate 56 7) [[3; -1]].

Definition short_file : list Z := take 70 small_file.

(** An input of 15 rows and 50 columns, every reading 3000, and the run
    on it with [choice] 1 and a logarithm that is constantly 0. *)
Definition bright_file : list Z :=
  encode_file 50 15 (replicate 56 0) (constant_grid 15 50 3000).

Definition bright_run : run :=
  Eval vm_compute in
    default (caught [] "") (main roomy (one_file "block.int" bright_file) (fun _ => 0%float) 1).

(** The run on the same input when the buffer of the thickness view
    (line 239) is not obtained. *)
Definition starved_run : run :=
  Eval vm_compute in
    default (caught [] "")
      (main (fails_at 239) (one_file "block.int" bright_file) (fun _ => 0%float) 1).

(** The normalized view of [half_intensity] as a file, and the arrays
    after it is written. *)
Definition half_intensity_file : list Z :=
  Eval vm_compute in
    default [] (fst <$> create_and_save_image_file initial_statics
                          (after_column_division half_intensity 16 51)).

Definition half_intensity_statics : statics :=
  Eval vm_compute in
    default initial_statics
      (snd <$> create_and_save_image_file initial_statics
                 (after_column_division half_intensity 16 51)).


(** * Grids and loops *)

Section GridLemmas.

Lemma to_unsigned_small (k : nat) : Z.of_nat k < 4294967296 -> to_unsigned k = k.
Proof. intros H. unfold to_unsigned. rewrite Z.mod_small by lia. lia. Qed.

Lemma shape_replicate {A : Type} (m n : nat) (x : A) :
  shape (replicate m (replicate n x)) m n.
Proof.
  split; [apply length_replicate|].
  apply Forall_forall. intros row Hrow.
  apply elem_of_replicate in Hrow as [-> _]. apply length_replicate.
Qed.

Lemma shape_lookup {A : Type} (g : list (list A)) m n i j :
  shape g m n -> (i < m)%nat -> (j < n)%nat ->
  exists row x, g !! i = Some row /\ row !! j = Some x /\ length row = n.
Proof.
  intros [Hm Hn] Hi Hj.
  destruct (lookup_lt_is_Some_2 g i) as [row Hrow]; [lia|].
  assert (length row = n) as Hlen
    by (rewrite Forall_forall in Hn; apply Hn; eapply list_elem_of_lookup_2; eauto).
  destruct (lookup_lt_is_Some_2 row j) as [x Hx]; [lia|].
  eauto.
Qed.

Lemma shape_upd pd m n i j f : shape pd m n -> shape (upd pd i j f) m n.
Proof.
  intros [Hm Hn]. split; [unfold upd; now rewrite length_alter|].
  unfold upd. apply Forall_lookup. intros k row Hk.
  rewrite Forall_lookup in Hn.
  destruct (decide (i = k)) as [->|Hne].
  - rewrite list_lookup_alter_eq in Hk.
    destruct (pd !! k) as [row0|] eqn:E; simpl in Hk; [|discriminate].
    inversion Hk; subst. rewrite length_alter. eauto.
  - rewrite list_lookup_alter_ne in Hk by done. eauto.
Qed.

Lemma cell_upd_eq pd m n i j f :
  shape pd m n -> (i < m)%nat -> (j < n)%nat ->
  cell (upd pd i j f) i j = f (cell pd i j).
Proof.
  intros Hs Hi Hj.
  destruct (shape_lookup pd m n i j Hs Hi Hj) as (row & x & Hrow & Hx & _).
  unfold cell, upd. rewrite list_lookup_alter_eq, Hrow. simpl.
  rewrite list_lookup_alter_eq, Hx. reflexivity.
Qed.

Lemma cell_upd_ne pd i j f i' j' :
  (i', j') <> (i, j) -> cell (upd pd i j f) i' j' = cell pd i' j'.
Proof.
  intros Hne. unfold cell, upd.
  destruct (decide (i = i')) as [->|Hi].
  - rewrite list_lookup_alter_eq.
    destruct (pd !! i') as [row|]; simpl; [|reflexivity].
    rewrite list_lookup_alter_ne; [reflexivity|]. intros ->. now apply Hne.
  - now rewrite list_lookup_alter_ne.
Qed.

Lemma cell_step_upd m n i j f :
  (i < m)%nat -> (j < n)%nat -> cell_step m n i j f (fun pd => upd pd i j f).
Proof.
  intros Hi Hj pd Hs. split; [now apply shape_upd|].
  split; [now apply (cell_upd_eq pd m n)|].
  intros. now apply cell_upd_ne.
Qed.

Lemma cell_step_id m n i j : cell_step m n i j (fun c => c) (fun pd => pd).
Proof. intros pd Hs. split; [assumption|]. split; [reflexivity|]. reflexivity. Qed.

(** Two steps on the same cell compose. *)
Lemma cell_step_compose m n i j F G f g :
  cell_step m n i j F f -> cell_step m n i j G g ->
  cell_step m n i j (fun c => G (F c)) (fun pd => g (f pd)).
Proof.
  intros Hf Hg pd Hs.
  destruct (Hf pd Hs) as (Hs1 & He1 & Ho1).
  destruct (Hg (f pd) Hs1) as (Hs2 & He2 & Ho2).
  split; [assumption|]. split; [now rewrite He2, He1|].
  intros i' j' Hne. now rewrite Ho2, Ho1.
Qed.

End GridLemmas.

Section LoopLemmas.

Context {S : Type}.

Lemma for_range_nil lo hi (body : nat -> S -> S) s :
  (hi <= lo)%nat -> for_range lo hi body s = s.
Proof. intros H. unfold for_range. now replace (hi - lo)%nat with 0%nat by lia. Qed.

Lemma for_range_snoc lo hi (body : nat -> S -> S) s :
  (lo <= hi)%nat ->
  for_range lo (Datatypes.S hi) body s = body hi (for_range lo hi body s).
Proof.
  intros H. unfold for_range.
  replace (Datatypes.S hi - lo)%nat with (Datatypes.S (hi - lo)) by lia.
  rewrite seq_S, fold_left_app. simpl.
  now replace (lo + (hi - lo))%nat with hi by lia.
Qed.

(** Invariant rule: [P k] holds of the state before iteration [k]. *)
Lemma for_range_invariant (P : nat -> S -> Prop) lo hi (body : nat -> S -> S) s :
  (lo <= hi)%nat -> P lo s ->
  (forall k s, (lo <= k < hi)%nat -> P k s -> P (Datatypes.S k) (body k s)) ->
  P hi (for_range lo hi body s).
Proof.
  intros Hle H0 Hstep. induction hi as [|hi IH].
  - replace lo with 0%nat in * by lia. now rewrite for_range_nil.
  - destruct (decide (lo = Datatypes.S hi)) as [->|Hne].
    + now rewrite for_range_nil.
    + rewrite for_range_snoc by lia. apply Hstep; [lia|].
      apply IH; [lia|]. intros k s' Hk. apply Hstep. lia.
Qed.

End LoopLemmas.

Lemma fold_left_ext_in {A B : Type} (f g : A -> B -> A) (l : list B) (a : A) :
  (forall a x, In x l -> f a x = g a x) -> fold_left f l a = fold_left g l a.
Proof.
  revert a. induction l as [|x l IH]; intros a H; simpl; [reflexivity|].
  rewrite H by (now left). apply IH. intros; apply H; now right.
Qed.

Section GridLoops.

Variables m n : nat.

(** A loop over the columns of row [i] whose body rewrites the cell it
    visits. *)
Lemma row_loop i (F : nat -> PixelData -> PixelData) (body : nat -> Grid -> Grid) pd :
  (forall j, (j < n)%nat -> cell_step m n i j (F j) (body j)) ->
  shape pd m n ->
  shape (for_range 0 n body pd) m n /\
  (forall j, (j < n)%nat -> cell (for_range 0 n body pd) i j = F j (cell pd i j)) /\
  (forall i' j', i' <> i -> cell (for_range 0 n body pd) i' j' = cell pd i' j').
Proof.
  intros Hbody Hs.
  pose (P := fun (k : nat) (pd' : Grid) =>
    shape pd' m n /\
    (forall j, (j < k)%nat -> cell pd' i j = F j (cell pd i j)) /\
    (forall j, (k <= j)%nat -> cell pd' i j = cell pd i j) /\
    (forall i' j', i' <> i -> cell pd' i' j' = cell pd i' j')).
  assert (P n (for_range 0 n body pd)) as (H1 & H2 & _ & H4).
  { apply for_range_invariant; [lia| |].
    - split; [assumption|]. split; [intros; lia|]. split; reflexivity.
    - intros k pd' Hk (Hs' & Hlt & Hge & Hoth).
      destruct (Hbody k ltac:(lia) pd' Hs') as (Hs2 & He & Ho).
      split; [assumption|]. split; [|split].
      + intros j Hj. destruct (decide (j = k)) as [->|Hne].
        * rewrite He. now rewrite Hge by lia.
        * rewrite Ho by congruence. apply Hlt. lia.
      + intros j Hj. rewrite Ho by (intros [=]; lia). apply Hge. lia.
      + intros i' j' Hi'. rewrite Ho by congruence. now apply Hoth. }
  auto.
Qed.

(** The two nested loops over all cells, for a body that rewrites the
    cell it visits. *)
Lemma grid_loop (F : nat -> nat -> PixelData -> PixelData)
    (body : nat -> nat -> Grid -> Grid) pd :
  (forall i j, (i < m)%nat -> (j < n)%nat -> cell_step m n i j (F i j) (body i j)) ->
  shape pd m n ->
  shape (for_range 0 m (fun i pd => for_range 0 n (fun j pd => body i j pd) pd) pd) m n /\
  (forall i j, (i < m)%nat -> (j < n)%nat ->
     cell (for_range 0 m (fun i pd => for_range 0 n (fun j pd => body i j pd) pd) pd) i j
     = F i j (cell pd i j)).
Proof.
  intros Hbody Hs.
  pose (P := fun (k : nat) (pd' : Grid) =>
    shape pd' m n /\
    (forall i j, (i < k)%nat -> (j < n)%nat -> cell pd' i j = F i j (cell pd i j)) /\
    (forall i j, (k <= i)%nat -> cell pd' i j = cell pd i j)).
  assert (P m (for_range 0 m (fun i pd => for_range 0 n (fun j pd => body i j pd) pd) pd))
    as (H1 & H2 & _).
  { apply for_range_invariant; [lia| |].
    - split; [assumption|]. split; [intros; lia|reflexivity].
    - intros k pd' Hk (Hs' & Hlt & Hge).
      destruct (row_loop k (F k) (body k) pd') as (Hs2 & He & Ho);
        [intros j Hj; apply Hbody; lia|assumption|].
      split; [assumption|]. split.
      + intros i j Hi Hj. destruct (decide (i = k)) as [->|Hne].
        * rewrite He by assumption. now rewrite Hge by lia.
        * rewrite Ho by assumption. apply Hlt; lia.
      + intros i j Hi. rewrite Ho by lia. apply Hge. lia. }
  auto.
Qed.

(** A loop over the positions [pos lo .. pos (hi - 1)] that folds the
    visited cells into a sum with [G] and rewrites them with [F]. *)
Lemma scan_loop (pos : nat -> nat * nat) lo hi
    (G : PixelData -> float -> float) (F : PixelData -> PixelData)
    (body : nat -> float * Grid -> float * Grid) (s0 : float) pd :
  (lo <= hi)%nat ->
  (forall k k', (lo <= k < hi)%nat -> (lo <= k' < hi)%nat -> pos k = pos k' -> k = k') ->
  (forall k sum pd', (lo <= k < hi)%nat -> shape pd' m n ->
     (body k (sum, pd')).1 = G (cell pd' (pos k).1 (pos k).2) sum /\
     shape (body k (sum, pd')).2 m n /\
     cell (body k (sum, pd')).2 (pos k).1 (pos k).2 = F (cell pd' (pos k).1 (pos k).2) /\
     (forall i j, (i, j) <> pos k -> cell (body k (sum, pd')).2 i j = cell pd' i j)) ->
  shape pd m n ->
  (for_range lo hi body (s0, pd)).1
    = fold_left (fun sum k => G (cell pd (pos k).1 (pos k).2) sum) (seq lo (hi - lo)) s0 /\
  shape (for_range lo hi body (s0, pd)).2 m n /\
  (forall k, (lo <= k < hi)%nat ->
     cell (for_range lo hi body (s0, pd)).2 (pos k).1 (pos k).2
     = F (cell pd (pos k).1 (pos k).2)) /\
  (forall i j, (forall k, (lo <= k < hi)%nat -> (i, j) <> pos k) ->
     cell (for_range lo hi body (s0, pd)).2 i j = cell pd i j).
Proof.
  intros Hle Hinj Hbody Hs.
  pose (P := fun (h : nat) (st : float * Grid) =>
    st.1 = fold_left (fun sum k => G (cell pd (pos k).1 (pos k).2) sum) (seq lo (h - lo)) s0 /\
    shape st.2 m n /\
    (forall k, (lo <= k < h)%nat ->
       cell st.2 (pos k).1 (pos k).2 = F (cell pd (pos k).1 (pos k).2)) /\
    (forall i j, (forall k, (lo <= k < h)%nat -> (i, j) <> pos k) ->
       cell st.2 i j = cell pd i j)).
  assert (P hi (for_range lo hi body (s0, pd))) as HP; [|exact HP].
  apply for_range_invariant; [assumption| |].
  - unfold P. simpl. replace (lo - lo)%nat with 0%nat by lia.
    split; [reflexivity|]. split; [assumption|]. split; [intros; lia|reflexivity].
  - intros h [sum pd'] Hh (Hsum & Hs' & Hin & Hout). simpl in *.
    destruct (Hbody h sum pd' Hh Hs') as (B1 & B2 & B3 & B4).
    assert (cell pd' (pos h).1 (pos h).2 = cell pd (pos h).1 (pos h).2) as Hcur.
    { apply Hout. intros k Hk E. rewrite <- surjective_pairing in E.
      apply Hinj in E; lia. }
    unfold P. split; [|split; [assumption|split]].
    + rewrite B1, Hcur, Hsum.
      replace (Datatypes.S h - lo)%nat with (Datatypes.S (h - lo)) by lia.
      rewrite seq_S, fold_left_app. simpl.
      now replace (lo + (h - lo))%nat with h by lia.
    + intros k Hk. destruct (decide (k = h)) as [->|Hne].
      * now rewrite B3, Hcur.
      * rewrite B4; [apply Hin; lia|].
        rewrite <- surjective_pairing. intros E. apply Hinj in E; lia.
    + intros i j Hij. rewrite B4 by (apply Hij; lia).
      apply Hout. intros k Hk. apply Hij. lia.
Qed.

(** The shape shared by the two reference computations: for each
    outer index [o], scan the positions [pos o lo .. pos o (hi - 1)],
    then store the sum divided by [d] at index [o] of the vector. *)
Lemma reference_loop (pos : nat -> nat -> nat * nat) N lo hi
    (G : PixelData -> float -> float) (F : PixelData -> PixelData) (d : float)
    (inner : nat -> nat -> float * Grid -> float * Grid) pd :
  (lo <= hi)%nat ->
  (forall o k o' k', (o < N)%nat -> (o' < N)%nat -> (lo <= k < hi)%nat ->
     (lo <= k' < hi)%nat -> pos o k = pos o' k' -> o = o' /\ k = k') ->
  (forall o k sum pd', (o < N)%nat -> (lo <= k < hi)%nat -> shape pd' m n ->
     (inner o k (sum, pd')).1 = G (cell pd' (pos o k).1 (pos o k).2) sum /\
     shape (inner o k (sum, pd')).2 m n /\
     cell (inner o k (sum, pd')).2 (pos o k).1 (pos o k).2
       = F (cell pd' (pos o k).1 (pos o k).2) /\
     (forall i j, (i, j) <> pos o k -> cell (inner o k (sum, pd')).2 i j = cell pd' i j)) ->
  shape pd m n ->
  let r :=
    for_range 0 N (fun o '(pd, med) =>
      let '(sum, pd) := for_range lo hi (inner o) (0%float, pd) in
      (pd, <[o := PrimFloat.div sum d]> med)) (pd, replicate N 0%float) in
  shape r.1 m n /\ length r.2 = N /\
  (forall o k, (o < N)%nat -> (lo <= k < hi)%nat ->
     cell r.1 (pos o k).1 (pos o k).2 = F (cell pd (pos o k).1 (pos o k).2)) /\
  (forall i j, (forall o k, (o < N)%nat -> (lo <= k < hi)%nat -> (i, j) <> pos o k) ->
     cell r.1 i j = cell pd i j) /\
  (forall o, (o < N)%nat ->
     r.2 !! o = Some (PrimFloat.div
                        (fold_left (fun sum k => G (cell pd (pos o k).1 (pos o k).2) sum)
                           (seq lo (hi - lo)) 0%float) d)).
Proof.
  intros Hle Hinj Hinner Hs r.
  pose (Q := fun (h : nat) (st : Grid * list float) =>
    shape st.1 m n /\ length st.2 = N /\
    (forall o k, (o < h)%nat -> (lo <= k < hi)%nat ->
       cell st.1 (pos o k).1 (pos o k).2 = F (cell pd (pos o k).1 (pos o k).2)) /\
    (forall i j, (forall o k, (o < h)%nat -> (lo <= k < hi)%nat -> (i, j) <> pos o k) ->
       cell st.1 i j = cell pd i j) /\
    (forall o, (o < h)%nat ->
       st.2 !! o = Some (PrimFloat.div
                          (fold_left (fun sum k => G (cell pd (pos o k).1 (pos o k).2) sum)
                             (seq lo (hi - lo)) 0%float) d))).
  assert (Q N r) as HQ; [|exact HQ].
  apply for_range_invariant; [lia| |].
  - unfold Q. simpl. split; [assumption|]. split; [apply length_replicate|].
    split; [intros; lia|]. split; [reflexivity|intros; lia].
  - intros h [pd' med] Hh (Hs' & Hlen & Hin & Hout & Hmed). simpl in *.
    destruct (scan_loop (pos h) lo hi G F (inner h) 0%float pd' Hle)
      as (S1 & S2 & S3 & S4); [| |assumption|].
    { intros k k' Hk Hk' E. apply (Hinj h k h k') in E; [tauto|lia..]. }
    { intros k sum pd'' Hk Hs''. apply Hinner; [lia|assumption..]. }
    destruct (for_range lo hi (inner h) (0%float, pd')) as [sum pd''].
    simpl in *. unfold Q. simpl.
    assert (forall k, (lo <= k < hi)%nat ->
              cell pd' (pos h k).1 (pos h k).2 = cell pd (pos h k).1 (pos h k).2) as Hcur.
    { intros k Hk. apply Hout. intros o k' Ho Hk' E.
      rewrite <- surjective_pairing in E. apply Hinj in E; lia. }
    split; [assumption|]. split; [now rewrite length_insert|].
    split; [|split].
    + intros o k Ho Hk. destruct (decide (o = h)) as [->|Hne].
      * rewrite S3 by assumption. now rewrite Hcur.
      * rewrite S4; [apply Hin; [lia|assumption]|].
        intros k' Hk'. rewrite <- surjective_pairing. intros E.
        apply Hinj in E; lia.
    + intros i j Hij. rewrite S4 by (intros k Hk; apply Hij; lia).
      apply Hout. intros o k Ho Hk. apply Hij; lia.
    + intros o Ho. destruct (decide (o = h)) as [->|Hne].
      * rewrite list_lookup_insert_eq by lia. f_equal. f_equal. rewrite S1.
        apply fold_left_ext_in. intros a k Hk. apply in_seq in Hk.
        rewrite Hcur by lia. reflexivity.
      * rewrite list_lookup_insert_ne by auto. apply Hmed. lia.
Qed.

End GridLoops.

Lemma cell_step_ext m n i j F F' body :
  (forall c, F c = F' c) -> cell_step m n i j F body -> cell_step m n i j F' body.
Proof.
  intros HF H pd Hs. destruct (H pd Hs) as (H1 & H2 & H3).
  split; [assumption|]. split; [now rewrite <- HF|assumption].
Qed.

Lemma cell_step_set_value m n i j v :
  (i < m)%nat -> (j < n)%nat ->
  cell_step m n i j (fun c => mkPixel v (is_calibrated c)) (fun pd => set_value pd i j v).
Proof. intros. now apply (cell_step_upd m n i j). Qed.

Lemma cell_step_set_calibrated m n i j b :
  (i < m)%nat -> (j < n)%nat ->
  cell_step m n i j (fun c => mkPixel (value c) b) (fun pd => set_calibrated pd i j b).
Proof. intros. now apply (cell_step_upd m n i j). Qed.

(** A step may read the cell it rewrites. *)
Lemma cell_step_read m n i j (F : PixelData -> PixelData -> PixelData)
    (body : PixelData -> Grid -> Grid) :
  (forall c, cell_step m n i j (F c) (body c)) ->
  cell_step m n i j (fun c => F c c) (fun pd => body (cell pd i j) pd).
Proof. intros H pd Hs. exact (H (cell pd i j) pd Hs). Qed.

(** * The blocks of [process_data] compute the closed forms *)

Section Pipeline.

Variable data : RawGrid.
Variables m n : nat.

Lemma after_background_spec :
  shape (after_background data m n) m n /\
  (forall i j, (i < m)%nat -> (j < n)%nat ->
     cell (after_background data m n) i j = mkPixel (background_value data i j) false).
Proof.
  unfold after_background, background_normalization.
  destruct (grid_loop m n
    (fun i j _ => mkPixel (background_value data i j) false)
    (fun i j pd =>
       set_calibrated
         (if raw data i j >? SIGNAL_THRESHOLD
          then set_value pd i j (double_of_Z (raw data i j - SIGNAL_THRESHOLD))
          else set_value pd i j 0%float) i j false)
    (replicate m (replicate n pixel0))) as [H1 H2].
  - intros i j Hi Hj. unfold background_value.
    destruct (raw data i j >? SIGNAL_THRESHOLD).
    + eapply cell_step_ext;
        [|apply (cell_step_compose m n i j _ _ _ _
                   (cell_step_set_value m n i j _ Hi Hj)
                   (cell_step_set_calibrated m n i j false Hi Hj))].
      reflexivity.
    + eapply cell_step_ext;
        [|apply (cell_step_compose m n i j _ _ _ _
                   (cell_step_set_value m n i j _ Hi Hj)
                   (cell_step_set_calibrated m n i j false Hi Hj))].
      reflexivity.
  - apply shape_replicate.
  - split; [exact H1|exact H2].
Qed.

Hypothesis Hrows : (BETA_THORNE_ROWS_COUNT <= m)%nat.

Lemma in_row_strip_true i : in_row_strip m i = true <-> (m - 15 <= i)%nat.
Proof. unfold in_row_strip, BETA_THORNE_ROWS_COUNT. apply Nat.leb_le. Qed.

Lemma in_row_strip_false i : in_row_strip m i = false <-> (i < m - 15)%nat.
Proof. unfold in_row_strip, BETA_THORNE_ROWS_COUNT. apply Nat.leb_gt. Qed.

Lemma in_column_strip_true j : in_column_strip n j = true <-> (n - 50 <= j)%nat.
Proof. unfold in_column_strip, MEDIAN_DETECTOR_COUNT. apply Nat.leb_le. Qed.

Lemma in_column_strip_false j : in_column_strip n j = false <-> (j < n - 50)%nat.
Proof. unfold in_column_strip, MEDIAN_DETECTOR_COUNT. apply Nat.leb_gt. Qed.

Lemma after_row_reference_spec :
  shape (after_row_reference data m n).1 m n /\
  (forall i j, (i < m)%nat -> (j < n)%nat ->
     cell (after_row_reference data m n).1 i j
     = mkPixel (background_value data i j) (in_row_strip m i)) /\
  (after_row_reference data m n).2 = map (row_ref data m) (seq 0 n).
Proof.
  destruct after_background_spec as [Hs Hc].
  unfold after_row_reference, betathorne_reference.
  destruct (reference_loop m n (fun j i => (i, j)) n (m - BETA_THORNE_ROWS_COUNT) m
    (fun c sum => PrimFloat.add sum (value c))
    (fun c => mkPixel (value c) true)
    (double_of_nat BETA_THORNE_ROWS_COUNT)
    (fun j i '(sum, pd) =>
       (PrimFloat.add sum (value (cell pd i j)), set_calibrated pd i j true))
    (after_background data m n)) as (R1 & R2 & R3 & R4 & R5).
  - lia.
  - intros o k o' k' _ _ _ _ [= -> ->]. auto.
  - intros o k sum pd' Ho Hk Hs'. simpl.
    destruct (cell_step_set_calibrated m n k o true ltac:(lia) Ho pd' Hs') as (C1 & C2 & C3).
    split; [reflexivity|]. split; [assumption|]. split; assumption.
  - assumption.
  - cbn [fst snd] in R1, R2, R3, R4, R5. split; [exact R1|]. split.
    + intros i j Hi Hj. destruct (in_row_strip m i) eqn:E.
      * apply in_row_strip_true in E.
        rewrite (R3 j i) by (unfold BETA_THORNE_ROWS_COUNT; lia). simpl.
        now rewrite Hc.
      * apply in_row_strip_false in E. rewrite R4; [now apply Hc|].
        intros o k _ Hk [= -> ->]. unfold BETA_THORNE_ROWS_COUNT in Hk. lia.
    + apply list_eq_same_length with n;
        [now rewrite length_map, length_seq|exact R2|].
      intros j x y Hj Hx Hy. rewrite R5 in Hx by assumption.
      rewrite list_lookup_fmap, lookup_seq_lt in Hy by assumption. simpl in Hy.
      inversion Hx; inversion Hy; subst. unfold row_ref. f_equal.
      replace (m - (m - BETA_THORNE_ROWS_COUNT))%nat with BETA_THORNE_ROWS_COUNT by lia.
      apply fold_left_ext_in. intros a i Hi. apply in_seq in Hi. simpl.
      rewrite Hc by lia. reflexivity.
Qed.

Lemma betathorne_scaling_spec (overall : float) :
  let r := after_row_reference data m n in
  shape (betathorne_scaling m n r.2 overall r.1) m n /\
  (forall i j, (i < m)%nat -> (j < n)%nat ->
     cell (betathorne_scaling m n r.2 overall r.1) i j
     = mkPixel (scaling_of overall data m i j) (in_row_strip m i)).
Proof.
  destruct after_row_reference_spec as (Hs & Hc & Hmed).
  destruct (after_row_reference data m n) as [pd med]. simpl in Hs, Hc, Hmed |- *.
  subst med. unfold betathorne_scaling.
  set (med := map (row_ref data m) (seq 0 n)).
  destruct (grid_loop m n
    (fun i j c =>
       if negb (is_calibrated c) then
         if double_neq (default 0%float (med !! j)) 0
         then mkPixel (PrimFloat.mul (value c)
                         (PrimFloat.div overall (default 0%float (med !! j))))
                      (is_calibrated c)
         else mkPixel 0%float (is_calibrated c)
       else c)
    (fun i j pd =>
       if negb (is_calibrated (cell pd i j)) then
         if double_neq (default 0%float (med !! j)) 0 then
           set_value pd i j
             (PrimFloat.mul (value (cell pd i j))
                (PrimFloat.div overall (default 0%float (med !! j))))
         else set_value pd i j 0%float
       else pd) pd) as [H1 H2].
  - intros i j Hi Hj.
    apply (cell_step_read m n i j
      (fun c c' =>
         if negb (is_calibrated c) then
           if double_neq (default 0%float (med !! j)) 0
           then mkPixel (PrimFloat.mul (value c)
                           (PrimFloat.div overall (default 0%float (med !! j))))
                        (is_calibrated c')
           else mkPixel 0%float (is_calibrated c')
         else c')
      (fun c pd =>
         if negb (is_calibrated c) then
           if double_neq (default 0%float (med !! j)) 0 then
             set_value pd i j
               (PrimFloat.mul (value c)
                  (PrimFloat.div overall (default 0%float (med !! j))))
           else set_value pd i j 0%float
         else pd)).
    intros c. destruct (negb (is_calibrated c)); [|apply cell_step_id].
    destruct (double_neq _ _); now apply cell_step_set_value.
  - assumption.
  - split; [exact H1|]. intros i j Hi Hj. rewrite H2, Hc by assumption. simpl.
    unfold scaling_of. destruct (in_row_strip m i); simpl; [reflexivity|].
    unfold med at 1 2. rewrite list_lookup_fmap, lookup_seq_lt by assumption. simpl.
    destruct (double_neq _ _); reflexivity.
Qed.

Lemma after_row_scaling_spec :
  shape (after_row_scaling data m n) m n /\
  (forall i j, (i < m)%nat -> (j < n)%nat ->
     cell (after_row_scaling data m n) i j
     = mkPixel (scaled_value data m n i j) (in_row_strip m i)).
Proof.
  pose proof (betathorne_scaling_spec
                (overall_median_of (after_row_reference data m n).2 n)) as H.
  destruct after_row_reference_spec as (_ & _ & Hmed).
  unfold after_row_scaling, scaled_value, overall_row_ref.
  rewrite <- Hmed. destruct (after_row_reference data m n) as [pd med]. exact H.
Qed.

Hypothesis Hcols : (MEDIAN_DETECTOR_COUNT <= n)%nat.

Lemma after_column_reference_spec :
  shape (after_column_reference data m n).1 m n /\
  (forall i j, (i < m)%nat -> (j < n)%nat ->
     cell (after_column_reference data m n).1 i j
     = mkPixel (scaled_value data m n i j) (in_row_strip m i || in_column_strip n j)) /\
  (after_column_reference data m n).2 = map (col_ref data m n) (seq 0 m).
Proof.
  destruct after_row_scaling_spec as [Hs Hc].
  unfold after_column_reference, detector_reference.
  destruct (reference_loop m n (fun i j => (i, j)) m (n - MEDIAN_DETECTOR_COUNT) n
    (fun c sum => if negb (is_calibrated c) then PrimFloat.add sum (value c) else sum)
    (fun c => if negb (is_calibrated c) then mkPixel (value c) true else c)
    (double_of_nat MEDIAN_DETECTOR_COUNT)
    (fun i j '(sum, pd) =>
       if negb (is_calibrated (cell pd i j))
       then (PrimFloat.add sum (value (cell pd i j)), set_calibrated pd i j true)
       else (sum, pd))
    (after_row_scaling data m n)) as (R1 & R2 & R3 & R4 & R5).
  - lia.
  - intros o k o' k' _ _ _ _ [= -> ->]. auto.
  - intros o k sum pd' Ho Hk Hs'. simpl.
    destruct (negb (is_calibrated (cell pd' o k))); simpl.
    + destruct (cell_step_set_calibrated m n o k true Ho ltac:(lia) pd' Hs')
        as (C1 & C2 & C3).
      split; [reflexivity|]. split; [assumption|]. split; assumption.
    + split; [reflexivity|]. split; [assumption|]. split; reflexivity.
  - assumption.
  - cbn [fst snd] in R1, R2, R3, R4, R5. split; [exact R1|]. split.
    + intros i j Hi Hj. destruct (in_column_strip n j) eqn:E.
      * apply in_column_strip_true in E.
        rewrite (R3 i j) by (unfold MEDIAN_DETECTOR_COUNT; lia).
        rewrite Hc by assumption. simpl.
        destruct (in_row_strip m i); reflexivity.
      * apply in_column_strip_false in E. rewrite R4.
        -- rewrite Hc by assumption. now rewrite orb_false_r.
        -- intros o k _ Hk [= -> ->]. unfold MEDIAN_DETECTOR_COUNT in Hk. lia.
    + apply list_eq_same_length with m;
        [now rewrite length_map, length_seq|exact R2|].
      intros i x y Hi Hx Hy. rewrite R5 in Hx by assumption.
      rewrite list_lookup_fmap, lookup_seq_lt in Hy by assumption. simpl in Hy.
      inversion Hx; inversion Hy; subst. unfold col_ref. f_equal.
      replace (n - (n - MEDIAN_DETECTOR_COUNT))%nat with MEDIAN_DETECTOR_COUNT by lia.
      apply fold_left_ext_in. intros a j Hj. apply in_seq in Hj. simpl.
      rewrite Hc by lia. simpl. destruct (in_row_strip m i); reflexivity.
Qed.

Lemma after_column_division_spec :
  shape (after_column_division data m n) m n /\
  (forall i j, (i < m)%nat -> (j < n)%nat ->
     cell (after_column_division data m n) i j = final_cell data m n i j).
Proof.
  destruct after_column_reference_spec as (Hs & Hc & Hmed).
  unfold after_column_division.
  destruct (after_column_reference data m n) as [pd med]. simpl in Hs, Hc, Hmed.
  subst med. unfold detector_division.
  set (med := map (col_ref data m n) (seq 0 m)).
  pose (divide := fun (i : nat) (c : PixelData) =>
    if negb (is_calibrated c)
    then mkPixel (PrimFloat.div (value c) (default 0%float (med !! i))) (is_calibrated c)
    else c).
  pose (clamp_cell := fun (c : PixelData) =>
    if double_gt (value c) 1 then mkPixel 1%float (is_calibrated c) else c).
  destruct (grid_loop m n
    (fun i j c => clamp_cell (divide i c))
    (fun i j pd =>
       let pd :=
         if negb (is_calibrated (cell pd i j))
         then set_value pd i j
                (PrimFloat.div (value (cell pd i j)) (default 0%float (med !! i)))
         else pd in
       if double_gt (value (cell pd i j)) 1
       then set_value pd i j 1%float
       else pd) pd) as [H1 H2].
  - intros i j Hi Hj.
    apply (cell_step_compose m n i j (divide i) clamp_cell
      (fun pd =>
         if negb (is_calibrated (cell pd i j))
         then set_value pd i j
                (PrimFloat.div (value (cell pd i j)) (default 0%float (med !! i)))
         else pd)
      (fun pd =>
         if double_gt (value (cell pd i j)) 1 then set_value pd i j 1%float else pd)).
    + apply (cell_step_read m n i j
        (fun c c' =>
           if negb (is_calibrated c)
           then mkPixel (PrimFloat.div (value c) (default 0%float (med !! i)))
                        (is_calibrated c')
           else c')
        (fun c pd =>
           if negb (is_calibrated c)
           then set_value pd i j
                  (PrimFloat.div (value c) (default 0%float (med !! i)))
           else pd)).
      intros c. destruct (negb (is_calibrated c)); [|apply cell_step_id].
      now apply cell_step_set_value.
    + apply (cell_step_read m n i j
        (fun c c' => if double_gt (value c) 1 then mkPixel 1%float (is_calibrated c') else c')
        (fun c pd => if double_gt (value c) 1 then set_value pd i j 1%float else pd)).
      intros c. destruct (double_gt (value c) 1); [|apply cell_step_id].
      now apply cell_step_set_value.
  - assumption.
  - split; [exact H1|]. intros i j Hi Hj. rewrite H2, Hc by assumption.
    unfold final_cell, clamp_cell, divide, clamp. simpl.
    destruct (in_row_strip m i || in_column_strip n j); simpl.
    + destruct (double_gt _ _); reflexivity.
    + unfold med. rewrite list_lookup_fmap, lookup_seq_lt by assumption. simpl.
      destruct (double_gt _ _); reflexivity.
Qed.

End Pipeline.

(** [data[0].size()] is the width of a well-formed grid. *)
Lemma raw_grid_width (data : RawGrid) (m n : nat) :
  raw_grid data m n -> (0 < m)%nat -> length (default [] (data !! 0%nat)) = n.
Proof.
  intros ([Hm Hn] & _) Hpos.
  destruct (lookup_lt_is_Some_2 data 0) as [row Hrow]; [lia|].
  rewrite Hrow. simpl. rewrite Forall_forall in Hn. apply Hn.
  eapply list_elem_of_lookup_2; eauto.
Qed.

Lemma process_data_throws_rows (data : RawGrid) (m n : nat) :
  raw_grid data m n -> (0 < m)%nat -> (m < 15)%nat ->
  process_data data = Throw not_enough_rows.
Proof.
  intros Hraw Hpos Hlt.
  pose proof (raw_grid_width data m n Hraw Hpos) as Hlen.
  destruct Hraw as ([Hm Hn] & Hm32 & Hn32).
  unfold process_data. rewrite Hm, Hlen.
  rewrite !to_unsigned_small by assumption.
  destruct (Nat.ltb_spec m BETA_THORNE_ROWS_COUNT) as [_|Hge];
    [reflexivity|unfold BETA_THORNE_ROWS_COUNT in Hge; lia].
Qed.

Lemma process_data_throws_columns (data : RawGrid) (m n : nat) :
  raw_grid data m n -> (15 <= m)%nat -> (n < 50)%nat ->
  process_data data = Throw not_enough_columns.
Proof.
  intros Hraw H15 Hlt.
  pose proof (raw_grid_width data m n Hraw ltac:(lia)) as Hlen.
  destruct Hraw as ([Hm Hn] & Hm32 & Hn32).
  unfold process_data. rewrite Hm, Hlen.
  rewrite !to_unsigned_small by assumption.
  destruct (Nat.ltb_spec m BETA_THORNE_ROWS_COUNT) as [Hlt'|_];
    [unfold BETA_THORNE_ROWS_COUNT in Hlt'; lia|].
  destruct (betathorne_reference m n _) as [pd med].
  destruct (Nat.ltb_spec n MEDIAN_DETECTOR_COUNT) as [_|Hge];
    [reflexivity|unfold MEDIAN_DETECTOR_COUNT in Hge; lia].
Qed.

(** [process_data] on a well-formed grid large enough for both reference
    strips. *)
Lemma process_data_returns (data : RawGrid) (m n : nat) :
  raw_grid data m n -> (15 <= m)%nat -> (50 <= n)%nat ->
  process_data data = Returns (after_column_division data m n).
Proof.
  intros Hraw H15 H50.
  pose proof (raw_grid_width data m n Hraw ltac:(lia)) as Hlen.
  destruct Hraw as ([Hm Hn] & Hm32 & Hn32).
  unfold process_data. rewrite Hm, Hlen.
  rewrite !to_unsigned_small by assumption.
  destruct (Nat.ltb_spec m BETA_THORNE_ROWS_COUNT) as [Hlt|_];
    [unfold BETA_THORNE_ROWS_COUNT in Hlt; lia|].
  unfold after_column_division, after_column_reference, after_row_scaling,
    after_row_reference, after_background, overall_median_of.
  destruct (betathorne_reference m n _) as [pd med].
  destruct (Nat.ltb_spec n MEDIAN_DETECTOR_COUNT) as [Hlt|_];
    [unfold MEDIAN_DETECTOR_COUNT in Hlt; lia|].
  destruct (detector_reference m n _) as [pd' med']. reflexivity.
Qed.

(** * Properties of [process_data] *)

(** Closes a conjunction of closed equations by evaluation. *)
Ltac evaluate :=
  repeat match goal with |- _ /\ _ => split end; vm_compute; reflexivity.

(** The scenario of the specification: a grid of 20 rows and 60 columns
    reading 3000 everywhere. Every background-subtracted value is 952,
    every row reference and the overall reference are 952, every column
    reference outside the last 15 rows is 952; a cell outside both strips
    ends at 952 / 952 = 1, a cell inside one at 952 clamped to 1. *)
Example constant_3000_scenario :
  background_value (constant_grid 20 60 3000) 0 0 = 952%float /\
  row_ref (constant_grid 20 60 3000) 20 0 = 952%float /\
  overall_row_ref (constant_grid 20 60 3000) 20 60 = 952%float /\
  col_ref (constant_grid 20 60 3000) 20 60 0 = 952%float /\
  final_cell (constant_grid 20 60 3000) 20 60 0 0 = mkPixel 1 false /\
  final_cell (constant_grid 20 60 3000) 20 60 0 10 = mkPixel 1 true /\
  final_cell (constant_grid 20 60 3000) 20 60 19 0 = mkPixel 1 true.
Proof. evaluate. Qed.

Example process_data_constant_3000 :
  exists g, process_data (constant_grid 20 60 3000) = Returns g /\
    cell g 0 0 = mkPixel 1 false /\ cell g 0 59 = mkPixel 1 true /\
    cell g 19 0 = mkPixel 1 true.
Proof.
  exists (after_column_division (constant_grid 20 60 3000) 20 60).
  split; [vm_compute; reflexivity|]. evaluate.
Qed.

(** A reading at or below the threshold gives the value 0. *)
Lemma background_value_floor (data : RawGrid) (i j : nat) :
  raw data i j <= SIGNAL_THRESHOLD -> background_value data i j = 0%float.
Proof.
  intros H. unfold background_value.
  destruct (Z.gtb_spec (raw data i j) SIGNAL_THRESHOLD); [lia|reflexivity].
Qed.

(** The grid returned on a well-formed input, cell by cell. *)
Lemma process_data_cells (data : RawGrid) (m n : nat) :
  raw_grid data m n -> (15 <= m)%nat -> (50 <= n)%nat ->
  exists g, process_data data = Returns g /\ shape g m n /\
    forall i j, (i < m)%nat -> (j < n)%nat -> cell g i j = final_cell data m n i j.
Proof.
  intros Hraw Hm Hn. exists (after_column_division data m n).
  split; [now apply process_data_returns|].
  now apply after_column_division_spec.
Qed.

Lemma raw_grid_constant (m n : nat) (z : Z) :
  Z.of_nat m < 4294967296 -> Z.of_nat n < 4294967296 ->
  raw_grid (constant_grid m n z) m n.
Proof. intros Hm Hn. split; [apply shape_replicate|split; assumption]. Qed.

(** C1: on a grid of at least 15 rows and 50 columns, a cell of the
    returned grid is flagged calibrated exactly when it lies in the last
    15 rows or in the last 50 columns, and is unflagged exactly when it
    lies outside both strips. *)
Theorem calibrated_iff_in_reference_strips (data : RawGrid) (m n : nat) :
  raw_grid data m n -> (15 <= m)%nat -> (50 <= n)%nat ->
  exists g, process_data data = Returns g /\
    forall i j, (i < m)%nat -> (j < n)%nat ->
      (is_calibrated (cell g i j) = true <-> (m - 15 <= i)%nat \/ (n - 50 <= j)%nat) /\
      (is_calibrated (cell g i j) = false <-> (i < m - 15)%nat /\ (j < n - 50)%nat).
Proof.
  intros Hraw Hm Hn.
  destruct (process_data_cells data m n Hraw Hm Hn) as (g & Hg & _ & Hc).
  exists g. split; [assumption|]. intros i j Hi Hj. rewrite Hc by assumption.
  unfold final_cell.
  pose proof (in_row_strip_true m i) as R1. pose proof (in_row_strip_false m i) as R0.
  pose proof (in_column_strip_true n j) as C1. pose proof (in_column_strip_false n j) as C0.
  destruct (in_row_strip m i), (in_column_strip n j); simpl; split; split;
    intros H; try discriminate; try reflexivity; try tauto.
  all: try (destruct H as [H|H]; [apply R1 in H|apply C1 in H]; discriminate).
  all: destruct H as [H1 H2]; try (apply R0 in H1; discriminate);
    apply C0 in H2; discriminate.
Qed.

Lemma calibrated_iff_in_reference_strips_witness :
  raw_grid (constant_grid 16 51 3000) 16 51 /\ (15 <= 16)%nat /\ (50 <= 51)%nat /\
  exists g, process_data (constant_grid 16 51 3000) = Returns g /\
    forall i j, (i < 16)%nat -> (j < 51)%nat ->
      (is_calibrated (cell g i j) = true <-> (16 - 15 <= i)%nat \/ (51 - 50 <= j)%nat) /\
      (is_calibrated (cell g i j) = false <-> (i < 16 - 15)%nat /\ (j < 51 - 50)%nat).
Proof.
  split; [apply raw_grid_constant; lia|]. split; [lia|]. split; [lia|].
  apply (calibrated_iff_in_reference_strips (constant_grid 16 51 3000) 16 51);
    [apply raw_grid_constant; lia|lia|lia].
Defined.

(** C9: on a grid of at least 15 rows and 50 columns [process_data]
    returns (it is a total function and does not throw) a grid with as
    many rows as the input, each with as many cells as the input's rows. *)
Theorem returns_grid_of_identical_dimensions (data : RawGrid) (m n : nat) :
  raw_grid data m n -> (15 <= m)%nat -> (50 <= n)%nat ->
  exists g, process_data data = Returns g /\
    length g = length data /\
    forall i row, g !! i = Some row ->
      exists row0, data !! i = Some row0 /\ length row = length row0.
Proof.
  intros Hraw Hm Hn.
  destruct (process_data_cells data m n Hraw Hm Hn) as (g & Hg & [Hl Hr] & _).
  destruct Hraw as ([Hl0 Hr0] & _).
  exists g. split; [assumption|]. split; [lia|].
  intros i row Hrow.
  destruct (lookup_lt_is_Some_2 data i) as [row0 Hrow0];
    [apply lookup_lt_Some in Hrow; lia|].
  exists row0. split; [assumption|].
  rewrite Forall_lookup in Hr. rewrite Forall_lookup in Hr0.
  rewrite (Hr _ _ Hrow), (Hr0 _ _ Hrow0). reflexivity.
Qed.

Lemma returns_grid_of_identical_dimensions_witness :
  raw_grid (constant_grid 20 60 3000) 20 60 /\ (15 <= 20)%nat /\ (50 <= 60)%nat /\
  exists g, process_data (constant_grid 20 60 3000) = Returns g /\
    length g = length (constant_grid 20 60 3000) /\
    forall i row, g !! i = Some row ->
      exists row0, constant_grid 20 60 3000 !! i = Some row0 /\ length row = length row0.
Proof.
  split; [apply raw_grid_constant; lia|]. split; [lia|]. split; [lia|].
  apply (returns_grid_of_identical_dimensions (constant_grid 20 60 3000) 20 60);
    [apply raw_grid_constant; lia|lia|lia].
Defined.

(** C5: on a well-formed grid with at least one row and one column,
    [process_data] throws exactly when there are fewer than 15 rows or
    fewer than 50 columns; with fewer than 15 rows the error is the one
    about rows, whatever the number of columns, since that check comes
    before the column stage; and an outcome is either a thrown error or a
    complete grid of the input's dimensions. *)
Theorem throws_iff_too_small (data : RawGrid) (m n : nat) :
  raw_grid data m n -> (0 < m)%nat -> (0 < n)%nat ->
  ((exists what, process_data data = Throw what) <-> (m < 15)%nat \/ (n < 50)%nat) /\
  ((m < 15)%nat -> process_data data = Throw not_enough_rows) /\
  ((15 <= m)%nat -> (n < 50)%nat -> process_data data = Throw not_enough_columns) /\
  (forall g, process_data data = Returns g -> shape g m n).
Proof.
  intros Hraw Hm Hn.
  assert ((m < 15)%nat -> process_data data = Throw not_enough_rows) as Hrows
    by (intros; now apply (process_data_throws_rows data m n)).
  assert ((15 <= m)%nat -> (n < 50)%nat -> process_data data = Throw not_enough_columns)
    as Hcols by (intros; now apply (process_data_throws_columns data m n)).
  assert ((15 <= m)%nat -> (50 <= n)%nat ->
          exists g, process_data data = Returns g /\ shape g m n) as Hok.
  { intros H1 H2. destruct (process_data_cells data m n Hraw H1 H2) as (g & Hg & Hs & _).
    eauto. }
  split; [|split; [assumption|split; [assumption|]]].
  - split.
    + intros [what Hwhat].
      destruct (le_lt_dec 15 m) as [H1|H1]; [|now left].
      destruct (le_lt_dec 50 n) as [H2|H2]; [|now right].
      destruct (Hok H1 H2) as (g & Hg & _). congruence.
    + intros [H|H].
      * eexists. now apply Hrows.
      * destruct (le_lt_dec 15 m) as [H1|H1]; eexists; [now apply Hcols|now apply Hrows].
  - intros g Hg.
    destruct (le_lt_dec 15 m) as [H1|H1]; [|rewrite Hrows in Hg by assumption; discriminate].
    destruct (le_lt_dec 50 n) as [H2|H2];
      [|rewrite Hcols in Hg by assumption; discriminate].
    destruct (Hok H1 H2) as (g' & Hg' & Hs). congruence.
Qed.

Lemma throws_iff_too_small_witness :
  raw_grid (constant_grid 10 60 3000) 10 60 /\ (0 < 10)%nat /\ (0 < 60)%nat /\
  process_data (constant_grid 10 60 3000) = Throw not_enough_rows.
Proof.
  split; [apply raw_grid_constant; lia|]. split; [lia|]. split; [lia|].
  apply (throws_iff_too_small (constant_grid 10 60 3000) 10 60);
    [apply raw_grid_constant; lia|lia|lia|lia].
Defined.

Lemma raw_grid_one_bright_column : raw_grid one_bright_column 16 64.
Proof.
  split; [|split; lia]. split; [reflexivity|].
  apply Forall_forall. intros row Hrow. apply elem_of_cons in Hrow as [->|Hrow].
  - apply length_replicate.
  - apply elem_of_replicate in Hrow as [-> _]. reflexivity.
Qed.

(** C3, as stated, fails: in [one_bright_column] the cell (0, 63) lies in
    the last 50 columns and is returned flagged calibrated; its
    background-subtracted reading is 1, yet the value returned is
    1 * (1 / 64), the reading scaled by the stage-2 proportion. *)
Lemma calibrated_cell_was_scaled :
  exists g, process_data one_bright_column = Returns g /\
    is_calibrated (cell g 0 63) = true /\
    background_value one_bright_column 0 63 = 1%float /\
    clamp (background_value one_bright_column 0 63) = 1%float /\
    value (cell g 0 63) = 0.015625%float /\
    value (cell g 0 63) <> clamp (background_value one_bright_column 0 63).
Proof.
  exists (after_column_division one_bright_column 16 64).
  split; [apply process_data_returns; [apply raw_grid_one_bright_column|lia|lia]|].
  split; [vm_compute; reflexivity|]. split; [vm_compute; reflexivity|].
  split; [vm_compute; reflexivity|]. split; [vm_compute; reflexivity|].
  intros H. apply (f_equal (fun v => PrimFloat.eqb v 1)) in H.
  vm_compute in H. discriminate.
Qed.

(** C3, amended: a cell returned flagged calibrated never went through the
    stage-3 division. If it lies in the last 15 rows its value is the
    background-subtracted reading, clamped; otherwise (it lies in the last
    50 columns only) its value is the stage-2 value, clamped: the reading
    times [overall_median / median_betathrone[j]], or 0 when
    [median_betathrone[j]] compares equal to 0. *)
Theorem calibrated_cell_value (data : RawGrid) (m n : nat) :
  raw_grid data m n -> (15 <= m)%nat -> (50 <= n)%nat ->
  exists g, process_data data = Returns g /\
    forall i j, (i < m)%nat -> (j < n)%nat -> is_calibrated (cell g i j) = true ->
      ((m - 15 <= i)%nat ->
         value (cell g i j) = clamp (background_value data i j)) /\
      ((i < m - 15)%nat ->
         (n - 50 <= j)%nat /\
         value (cell g i j)
         = clamp (if double_neq (row_ref data m j) 0
                  then PrimFloat.mul (background_value data i j)
                         (PrimFloat.div (overall_row_ref data m n) (row_ref data m j))
                  else 0%float)).
Proof.
  intros Hraw Hm Hn.
  destruct (process_data_cells data m n Hraw Hm Hn) as (g & Hg & _ & Hc).
  exists g. split; [assumption|]. intros i j Hi Hj. rewrite Hc by assumption.
  unfold final_cell, scaled_value, scaling_of.
  pose proof (in_row_strip_true m i) as R1. pose proof (in_row_strip_false m i) as R0.
  pose proof (in_column_strip_true n j) as C1.
  destruct (in_row_strip m i), (in_column_strip n j); simpl; intros Hflag;
    try discriminate; split; intros H.
  all: try reflexivity.
  all: try (apply R0 in H; discriminate).
  all: try (apply R1 in H; discriminate).
  split; [now apply C1|reflexivity].
Qed.

Lemma calibrated_cell_value_witness :
  raw_grid one_bright_column 16 64 /\ (15 <= 16)%nat /\ (50 <= 64)%nat /\
  exists g, process_data one_bright_column = Returns g /\
    forall i j, (i < 16)%nat -> (j < 64)%nat -> is_calibrated (cell g i j) = true ->
      ((16 - 15 <= i)%nat ->
         value (cell g i j) = clamp (background_value one_bright_column i j)) /\
      ((i < 16 - 15)%nat ->
         (64 - 50 <= j)%nat /\
         value (cell g i j)
         = clamp (if double_neq (row_ref one_bright_column 16 j) 0
                  then PrimFloat.mul (background_value one_bright_column i j)
                         (PrimFloat.div (overall_row_ref one_bright_column 16 64)
                            (row_ref one_bright_column 16 j))
                  else 0%float)).
Proof.
  split; [apply raw_grid_one_bright_column|]. split; [lia|]. split; [lia|].
  apply (calibrated_cell_value one_bright_column 16 64);
    [apply raw_grid_one_bright_column|lia|lia].
Defined.

(** The clamp leaves no value above 1. *)
Lemma clamp_not_above_one (v : float) : double_gt (clamp v) 1 = false.
Proof.
  unfold clamp. destruct (double_gt v 1) eqn:E; [reflexivity|exact E].
Qed.

(** X1: on a grid of at least 15 rows and 50 columns, no value of the
    returned grid compares greater than 1.0: the clamp applies to every
    cell. (A NaN is not greater than 1.0 either.) *)
Theorem no_value_above_one (data : RawGrid) (m n : nat) :
  raw_grid data m n -> (15 <= m)%nat -> (50 <= n)%nat ->
  exists g, process_data data = Returns g /\
    forall i j, (i < m)%nat -> (j < n)%nat -> double_gt (value (cell g i j)) 1 = false.
Proof.
  intros Hraw Hm Hn.
  destruct (process_data_cells data m n Hraw Hm Hn) as (g & Hg & _ & Hc).
  exists g. split; [assumption|]. intros i j Hi Hj. rewrite Hc by assumption.
  unfold final_cell. destruct (_ || _); apply clamp_not_above_one.
Qed.

Lemma no_value_above_one_witness :
  raw_grid (constant_grid 16 51 0) 16 51 /\ (15 <= 16)%nat /\ (50 <= 51)%nat /\
  exists g, process_data (constant_grid 16 51 0) = Returns g /\
    forall i j, (i < 16)%nat -> (j < 51)%nat -> double_gt (value (cell g i j)) 1 = false.
Proof.
  split; [apply raw_grid_constant; lia|]. split; [lia|]. split; [lia|].
  apply (no_value_above_one (constant_grid 16 51 0) 16 51);
    [apply raw_grid_constant; lia|lia|lia].
Defined.

(** X2: after the background block, a cell whose raw reading is at most
    2048 holds exactly 0 and a cell whose reading is above holds the
    reading minus 2048; no cell is flagged. *)
Theorem background_subtraction (data : RawGrid) (m n i j : nat) :
  (i < m)%nat -> (j < n)%nat ->
  is_calibrated (cell (after_background data m n) i j) = false /\
  (raw data i j <= 2048 -> value (cell (after_background data m n) i j) = 0%float) /\
  (2048 < raw data i j ->
   value (cell (after_background data m n) i j) = double_of_Z (raw data i j - 2048)).
Proof.
  intros Hi Hj. destruct (after_background_spec data m n) as [_ Hc].
  rewrite Hc by assumption. simpl. unfold background_value, SIGNAL_THRESHOLD.
  split; [reflexivity|].
  destruct (Z.gtb_spec (raw data i j) 2048); split; intros; try reflexivity; lia.
Qed.

Lemma background_subtraction_witness :
  (0 < 16)%nat /\ (0 < 51)%nat /\ raw half_intensity 0 0 = 2049 /\
  value (cell (after_background half_intensity 16 51) 0 0) = 1%float.
Proof.
  split; [lia|]. split; [lia|]. split; [reflexivity|].
  destruct (background_subtraction half_intensity 16 51 0 0) as (_ & _ & H); [lia|lia|].
  rewrite H; [reflexivity|]. vm_compute. reflexivity.
Defined.

(** C2 on the all-zero grid of 16 rows and 51 columns: cell (0, 0) is in
    neither strip, its stage-2 value is 0 and so is the column reference
    of its row; the unguarded division yields 0 / 0 = NaN, which the clamp
    test [value > 1.0] lets through, and NaN <= 1.0 is false. *)
Theorem clamp_lets_nan_through :
  exists g, process_data (constant_grid 16 51 0) = Returns g /\
    is_calibrated (cell g 0 0) = false /\
    scaled_value (constant_grid 16 51 0) 16 51 0 0 = 0%float /\
    col_ref (constant_grid 16 51 0) 16 51 0 = 0%float /\
    value (cell g 0 0) = nan /\
    PrimFloat.leb (value (cell g 0 0)) 1 = false.
Proof.
  exists (after_column_division (constant_grid 16 51 0) 16 51).
  split; [apply process_data_returns; [apply raw_grid_constant; lia|lia|lia]|].
  evaluate.
Qed.

(** C6: when the row reference of column [j] compares equal to 0, every
    cell of that column that is not flagged after stage 2 holds exactly
    0, whatever the overall reference is ([overall] is arbitrary below;
    the pipeline's own value is the second part). *)
Theorem zero_row_reference_forces_zero (data : RawGrid) (m n j : nat) :
  raw_grid data m n -> (15 <= m)%nat -> (50 <= n)%nat -> (j < n)%nat ->
  PrimFloat.eqb (row_ref data m j) 0 = true ->
  (after_row_reference data m n).2 !! j = Some (row_ref data m j) /\
  (forall overall i, (i < m)%nat ->
     let pd := betathorne_scaling m n (after_row_reference data m n).2 overall
                 (after_row_reference data m n).1 in
     is_calibrated (cell pd i j) = false -> value (cell pd i j) = 0%float) /\
  (forall i, (i < m)%nat ->
     is_calibrated (cell (after_row_scaling data m n) i j) = false ->
     value (cell (after_row_scaling data m n) i j) = 0%float).
Proof.
  intros Hraw Hm Hn Hj Hzero.
  destruct (after_row_reference_spec data m n Hm) as (_ & _ & Hmed).
  split; [|split].
  - rewrite Hmed, list_lookup_fmap, lookup_seq_lt by assumption. reflexivity.
  - intros overall i Hi pd. subst pd.
    destruct (betathorne_scaling_spec data m n Hm overall) as [_ Hc].
    cbv zeta in Hc. rewrite Hc by assumption. simpl. intros Hflag.
    unfold scaling_of, double_neq. rewrite Hflag, Hzero. reflexivity.
  - intros i Hi.
    destruct (after_row_scaling_spec data m n Hm) as [_ Hc].
    rewrite Hc by assumption. simpl. intros Hflag.
    unfold scaled_value, scaling_of, double_neq. rewrite Hflag, Hzero. reflexivity.
Qed.

Lemma zero_row_reference_forces_zero_witness :
  raw_grid one_bright_column 16 64 /\ (15 <= 16)%nat /\ (50 <= 64)%nat /\ (5 < 64)%nat /\
  PrimFloat.eqb (row_ref one_bright_column 16 5) 0 = true /\
  background_value one_bright_column 0 5 = 1%float /\
  (is_calibrated (cell (after_row_scaling one_bright_column 16 64) 0 5) = false ->
   value (cell (after_row_scaling one_bright_column 16 64) 0 5) = 0%float).
Proof.
  split; [apply raw_grid_one_bright_column|]. split; [lia|]. split; [lia|]. split; [lia|].
  split; [vm_compute; reflexivity|]. split; [vm_compute; reflexivity|].
  apply (zero_row_reference_forces_zero one_bright_column 16 64 5);
    [apply raw_grid_one_bright_column|lia|lia|lia|vm_compute; reflexivity|lia].
Defined.

Lemma fold_filter_map {A : Type} (p : PixelData -> bool) (f : A -> PixelData)
    (l : list A) (a : float) :
  fold_left PrimFloat.add (map value (List.filter p (map f l))) a
  = fold_left (fun sum x => if p (f x) then PrimFloat.add sum (value (f x)) else sum) l a.
Proof.
  revert a. induction l as [|x l IH]; intros a; simpl; [reflexivity|].
  destruct (p (f x)); simpl; apply IH.
Qed.

(** The last cells of a row, read one by one. *)
Lemma drop_row_cells (pd : Grid) (m n i k : nat) :
  shape pd m n -> (i < m)%nat -> (k <= n)%nat ->
  drop (n - k) (default [] (pd !! i)) = map (cell pd i) (seq (n - k) k).
Proof.
  intros Hs Hi Hk.
  destruct Hs as [Hl Hr].
  destruct (lookup_lt_is_Some_2 pd i) as [row Hrow]; [lia|].
  rewrite Forall_lookup in Hr. pose proof (Hr _ _ Hrow) as Hlen.
  rewrite Hrow. simpl.
  apply list_eq_same_length with k.
  - now rewrite length_map, length_seq.
  - rewrite length_drop. lia.
  - intros x c c' Hx Hc Hc'.
    rewrite lookup_drop in Hc.
    rewrite list_lookup_fmap, lookup_seq_lt in Hc' by assumption. simpl in Hc'.
    unfold cell in Hc'. rewrite Hrow in Hc'. simpl in Hc'. rewrite Hc in Hc'.
    simpl in Hc'. congruence.
Qed.

(** C7: the column reference of row [i] is the sum of the stage-2 values
    of the cells of that row in the last 50 columns that are not already
    flagged, divided by the constant 50, whatever the number of cells
    summed. *)
Theorem column_reference_fixed_divisor (data : RawGrid) (m n i : nat) :
  raw_grid data m n -> (15 <= m)%nat -> (50 <= n)%nat -> (i < m)%nat ->
  (after_column_reference data m n).2 !! i
  = Some (spec_col_ref (after_row_scaling data m n) n i).
Proof.
  intros Hraw Hm Hn Hi.
  destruct (after_column_reference_spec data m n Hm Hn) as (_ & _ & Hmed).
  destruct (after_row_scaling_spec data m n Hm) as [Hs Hc].
  rewrite Hmed, list_lookup_fmap, lookup_seq_lt by assumption. simpl. f_equal.
  unfold spec_col_ref, col_ref, accumulate. f_equal.
  rewrite (drop_row_cells _ m n i MEDIAN_DETECTOR_COUNT Hs Hi Hn).
  rewrite fold_filter_map.
  apply fold_left_ext_in. intros a j Hj. apply in_seq in Hj.
  rewrite Hc by (unfold MEDIAN_DETECTOR_COUNT in *; lia). simpl.
  destruct (in_row_strip m i); reflexivity.
Qed.

Lemma column_reference_fixed_divisor_witness :
  raw_grid (constant_grid 16 51 3000) 16 51 /\ (15 <= 16)%nat /\ (50 <= 51)%nat /\
  (0 < 16)%nat /\
  (after_column_reference (constant_grid 16 51 3000) 16 51).2 !! 0%nat
  = Some (spec_col_ref (after_row_scaling (constant_grid 16 51 3000) 16 51) 51 0).
Proof.
  split; [apply raw_grid_constant; lia|]. split; [lia|]. split; [lia|]. split; [lia|].
  apply (column_reference_fixed_divisor (constant_grid 16 51 3000) 16 51 0);
    [apply raw_grid_constant; lia|lia|lia|lia].
Defined.

(** * The pixel buffer *)

Lemma for_range_ext {S : Type} lo hi (body body' : nat -> S -> S) s :
  (forall k s, (lo <= k < hi)%nat -> body k s = body' k s) ->
  for_range lo hi body s = for_range lo hi body' s.
Proof.
  intros H. unfold for_range. apply fold_left_ext_in.
  intros a k Hk. apply in_seq in Hk. apply H. lia.
Qed.

Lemma store_in_range (image : list Z) (k : nat) (b : Z) :
  (k < length image)%nat -> store image (Z.of_nat k) b = Some (<[k := b]> image).
Proof.
  intros H. unfold store.
  destruct (Z.leb_spec 0 (Z.of_nat k)); [|lia].
  destruct (Z.ltb_spec (Z.of_nat k) (Z.of_nat (length image))); [|lia].
  simpl. now rewrite Nat2Z.id.
Qed.

Lemma pixel_index_small (n i j : nat) :
  Z.of_nat (3 * (i * n + j)) < 2147483648 ->
  pixel_index n i j = Z.of_nat (3 * (i * n + j)).
Proof.
  intros H. unfold pixel_index, BYTES_PER_PIXEL.
  replace ((i * n + j) * 3)%nat with (3 * (i * n + j))%nat by lia.
  rewrite to_unsigned_small by lia. unfold int_of_unsigned.
  destruct (Z.ltb_spec (Z.of_nat (3 * (i * n + j))) 2147483648); [reflexivity|lia].
Qed.

(** Cells of a grid with [n] columns have distinct linear indices. *)
Lemma linear_index_inj (n i j i' j' : nat) :
  (j < n)%nat -> (j' < n)%nat -> (i * n + j = i' * n + j')%nat -> i = i' /\ j = j'.
Proof.
  intros Hj Hj' E.
  assert (i = i') as ->; [|lia].
  destruct (Nat.lt_trichotomy i i') as [H|[H|H]]; [|assumption|]; exfalso; nia.
Qed.

Lemma linear_index_bound (m n i j : nat) :
  (i < m)%nat -> (j < n)%nat -> (i * n + j < m * n)%nat.
Proof. intros. nia. Qed.

Section Paint.

Variable color : PixelData -> option (Z * Z * Z).
Variable data : Grid.
Variables m n : nat.
Hypothesis Hfits : Z.of_nat (3 * (m * n)) < 2147483648.

(** One iteration of the inner loop on a buffer of the right size. *)
Lemma paint_step i j (image : list Z) :
  (i < m)%nat -> (j < n)%nat -> length image = (3 * (m * n))%nat ->
  ('(b, g, r) ← color (cell data i j);
   image ← store image (pixel_index n i j + 2) r;
   image ← store image (pixel_index n i j + 1) g;
   store image (pixel_index n i j + 0) b)
  = '(b, g, r) ← color (cell data i j);
    Some (<[(3 * (i * n + j))%nat := b]>
            (<[(3 * (i * n + j) + 1)%nat := g]>
               (<[(3 * (i * n + j) + 2)%nat := r]> image))).
Proof.
  intros Hi Hj Hlen. pose proof (linear_index_bound m n i j Hi Hj) as Hk.
  destruct (color (cell data i j)) as [[[b g] r]|]; simpl; [|reflexivity].
  rewrite pixel_index_small by lia.
  replace (Z.of_nat (3 * (i * n + j)) + 2) with (Z.of_nat (3 * (i * n + j) + 2)) by lia.
  replace (Z.of_nat (3 * (i * n + j)) + 1) with (Z.of_nat (3 * (i * n + j) + 1)) by lia.
  replace (Z.of_nat (3 * (i * n + j)) + 0) with (Z.of_nat (3 * (i * n + j))) by lia.
  rewrite store_in_range by lia. simpl.
  rewrite store_in_range by (rewrite length_insert; lia). simpl.
  rewrite store_in_range by (rewrite !length_insert; lia). reflexivity.
Qed.

Lemma paint_spec (image0 image : list Z) :
  length image0 = (3 * (m * n))%nat ->
  paint color data m n image0 = Some image ->
  length image = (3 * (m * n))%nat /\
  forall i j, (i < m)%nat -> (j < n)%nat -> painted color data n image i j.
Proof.
  intros Hlen0 Hpaint.
  assert (painted_upto color data m n (m * n) (paint color data m n image0)) as H.
  { unfold paint.
    apply (for_range_invariant (fun i st => painted_upto color data m n (i * n) st)); [lia| |].
    - intros img [= <-]. split; [assumption|]. intros; lia.
    - intros i st Hi Hout.
      replace (Datatypes.S i * n)%nat with (i * n + n)%nat by lia.
      apply (for_range_invariant (fun j st => painted_upto color data m n (i * n + j) st)); [lia| |].
      + now rewrite Nat.add_0_r.
      + intros j st' Hj Hin img' Hbody.
        destruct st' as [img|]; simpl in Hbody; [|discriminate].
        destruct (Hin img eq_refl) as [Hlen Hold].
        rewrite paint_step in Hbody by (assumption || lia).
        destruct (color (cell data i j)) as [[[b g] r]|] eqn:Hc;
          simpl in Hbody; [|discriminate].
        injection Hbody as <-.
        pose proof (linear_index_bound m n i j ltac:(lia) ltac:(lia)) as Hk.
        split; [now rewrite !length_insert|].
        intros i' j' Hj' Hlt.
        destruct (decide (i' * n + j' = i * n + j)%nat) as [E|Hne].
        * apply linear_index_inj in E as [-> ->]; [|lia..].
          exists b, g, r. split; [assumption|].
          split; [|split].
          -- rewrite list_lookup_insert_eq; [reflexivity|rewrite !length_insert; lia].
          -- rewrite list_lookup_insert_ne by lia.
             rewrite list_lookup_insert_eq; [reflexivity|rewrite !length_insert; lia].
          -- rewrite !list_lookup_insert_ne by lia.
             rewrite list_lookup_insert_eq; [reflexivity|lia].
        * destruct (Hold i' j' Hj' ltac:(lia)) as (b' & g' & r' & Hc' & Hb & Hg & Hr).
          exists b', g', r'. split; [assumption|].
          rewrite !list_lookup_insert_ne by lia. auto. }
  destruct (H image Hpaint) as [Hlen Hall]. split; [assumption|].
  intros i j Hi Hj. apply Hall; [assumption|now apply linear_index_bound].
Qed.

(** The fill succeeds as soon as every cell has a colour. *)
Lemma paint_total (image0 : list Z) :
  length image0 = (3 * (m * n))%nat ->
  (forall i j, (i < m)%nat -> (j < n)%nat -> is_Some (color (cell data i j))) ->
  is_Some (paint color data m n image0).
Proof.
  intros Hlen0 Hcolor.
  pose (P := fun (_ : nat) (st : option (list Z)) =>
    exists image, st = Some image /\ length image = (3 * (m * n))%nat).
  assert (P m (paint color data m n image0)) as (image & -> & _); [|eauto].
  unfold paint. apply for_range_invariant; [lia|now exists image0|].
  intros i st Hi HP.
  apply (for_range_invariant P); [lia|assumption|].
  intros j st' Hj (img & -> & Hlen). simpl.
  rewrite paint_step by (assumption || lia).
  destruct (Hcolor i j ltac:(lia) ltac:(lia)) as [[[b g] r] ->]. simpl.
  eexists. split; [reflexivity|]. now rewrite !length_insert.
Qed.

End Paint.

Lemma image_grid_sizes (data : Grid) (m n : nat) :
  image_grid data m n ->
  to_unsigned (length data) = m /\
  to_unsigned (length (default [] (data !! 0%nat))) = n /\
  to_unsigned (m * n * BYTES_PER_PIXEL) = (3 * (m * n))%nat.
Proof.
  intros ([Hm Hn] & Hm0 & Hn0 & Hfits).
  assert (length (default [] (data !! 0%nat)) = n) as Hlen.
  { destruct (lookup_lt_is_Some_2 data 0) as [row Hrow]; [lia|].
    rewrite Hrow. simpl. rewrite Forall_forall in Hn. apply Hn.
    eapply list_elem_of_lookup_2; eauto. }
  rewrite Hm, Hlen. unfold BYTES_PER_PIXEL.
  replace (m * n * 3)%nat with (3 * (m * n))%nat by lia.
  rewrite !to_unsigned_small by nia. auto.
Qed.

Lemma create_and_save_image_paint (data : Grid) (m n : nat) :
  image_grid data m n ->
  create_and_save_image data
  = paint normalized_color data m n (replicate (3 * (m * n)) 0).
Proof.
  intros Hg. destruct (image_grid_sizes data m n Hg) as (Em & En & Ek).
  unfold create_and_save_image, paint. rewrite Em, En, Ek.
  apply for_range_ext. intros i st _. apply for_range_ext. intros j [image|] _;
    simpl; [|reflexivity].
  unfold normalized_color. destruct (is_calibrated (cell data i j)); simpl; [reflexivity|].
  destruct (uchar_of_double _); reflexivity.
Qed.

Lemma calculate_and_save_thickness_paint (log : float -> float) (data : Grid) (m n : nat) :
  image_grid data m n ->
  calculate_and_save_thickness log data
  = paint (thickness_color log) data m n (replicate (3 * (m * n)) 0).
Proof.
  intros Hg. destruct (image_grid_sizes data m n Hg) as (Em & En & Ek).
  unfold calculate_and_save_thickness, paint. rewrite Em, En, Ek.
  apply for_range_ext. intros i st _. apply for_range_ext. intros j [image|] _;
    simpl; [|reflexivity].
  unfold thickness_color, thickness_byte.
  destruct (int_of_double _); reflexivity.
Qed.

Lemma uchar_of_double_truncates (x : float) (c : Z) :
  uchar_of_double x = Some c <-> truncate x = Some c /\ 0 <= c <= 255.
Proof.
  unfold uchar_of_double. destruct (truncate x) as [t|]; simpl.
  - destruct (Z.leb_spec 0 t), (Z.leb_spec t 255); simpl; split.
    all: try (intros [= <-]; split; [reflexivity|lia]).
    all: try discriminate.
    all: intros [[= <-] ?]; try reflexivity; lia.
  - split; [discriminate|]. intros [? _]. discriminate.
Qed.

Example truncate_examples :
  truncate 127.5 = Some 127 /\ truncate (-127.5) = Some (-127) /\
  truncate (-0.5) = Some 0 /\ truncate 255 = Some 255 /\
  truncate nan = None /\ truncate infinity = None.
Proof. evaluate. Qed.

Example uchar_of_double_examples :
  uchar_of_double 127.5 = Some 127 /\ uchar_of_double (-0.5) = Some 0 /\
  uchar_of_double 255 = Some 255 /\ uchar_of_double 256 = None /\
  uchar_of_double (-1) = None /\ uchar_of_double nan = None.
Proof. evaluate. Qed.

Example std_round_examples :
  std_round 127.5 = 128%float /\ std_round (-127.5) = (-128)%float /\
  std_round 2.5 = 3%float /\ std_round 0.25 = 0%float /\
  std_round (-0.25) = neg_zero /\ std_round 250 = 250%float /\
  std_round 4503599627370495.5 = 4503599627370496%float /\
  std_round neg_infinity = neg_infinity.
Proof. evaluate. Qed.

(** The normalized view is defined as soon as every unflagged value
    converts to a byte. *)
Lemma create_and_save_image_defined (data : Grid) (m n : nat) :
  image_grid data m n ->
  (forall i j, (i < m)%nat -> (j < n)%nat -> is_calibrated (cell data i j) = false ->
     is_Some (uchar_of_double (PrimFloat.mul (value (cell data i j)) 255))) ->
  is_Some (create_and_save_image data).
Proof.
  intros Hg Hc. rewrite (create_and_save_image_paint data m n Hg).
  destruct Hg as (_ & _ & _ & Hfits).
  apply paint_total; [assumption|apply length_replicate|].
  intros i j Hi Hj. unfold normalized_color.
  destruct (is_calibrated (cell data i j)) eqn:E; [eauto|].
  destruct (Hc i j Hi Hj E) as [c ->]. simpl. eauto.
Qed.

Lemma image_grid_half_intensity :
  image_grid (after_column_division half_intensity 16 51) 16 51.
Proof.
  split; [|split; [lia|split; [lia|reflexivity]]].
  apply after_column_division_spec; unfold BETA_THORNE_ROWS_COUNT, MEDIAN_DETECTOR_COUNT; lia.
Qed.

Lemma raw_grid_half_intensity : raw_grid half_intensity 16 51.
Proof.
  split; [|split; lia]. split; [reflexivity|].
  apply Forall_forall. intros row Hrow. apply elem_of_cons in Hrow as [->|Hrow].
  - reflexivity.
  - apply elem_of_replicate in Hrow as [-> _]. apply length_replicate.
Qed.

(** C4, as stated, fails: for [half_intensity] the returned cell (0, 0) is
    not flagged and holds 0.5; the encoder stores the byte 127 in its
    three channels, the integer part of 0.5 * 255 = 127.5, whereas
    round(127.5) is 128. *)
Lemma gray_is_truncated_not_rounded :
  exists g image,
    process_data half_intensity = Returns g /\
    create_and_save_image g = Some image /\
    is_calibrated (cell g 0 0) = false /\
    value (cell g 0 0) = 0.5%float /\
    image !! 2%nat = Some 127 /\ image !! 1%nat = Some 127 /\ image !! 0%nat = Some 127 /\
    uchar_of_double (std_round (PrimFloat.mul (value (cell g 0 0)) 255)) = Some 128.
Proof.
  exists (after_column_division half_intensity 16 51).
  exists (default [] (create_and_save_image (after_column_division half_intensity 16 51))).
  split; [apply process_data_returns; [apply raw_grid_half_intensity|lia|lia]|].
  evaluate.
Qed.

(** C4, amended: in the buffer of the normalized view, the pixel of a
    flagged cell is full red (R = 255, G = 0, B = 0) whatever its value;
    the three channels of the pixel of an unflagged cell all hold the
    integer part of [value * 255] (the conversion truncates toward zero),
    which lies in 0..255. *)
Theorem normalized_view_pixels (data : Grid) (m n : nat) (image : list Z) :
  image_grid data m n ->
  create_and_save_image data = Some image ->
  forall i j, (i < m)%nat -> (j < n)%nat ->
    (is_calibrated (cell data i j) = true ->
       image !! (3 * (i * n + j) + 2)%nat = Some 255 /\
       image !! (3 * (i * n + j) + 1)%nat = Some 0 /\
       image !! (3 * (i * n + j))%nat = Some 0) /\
    (is_calibrated (cell data i j) = false ->
       exists c, truncate (PrimFloat.mul (value (cell data i j)) 255) = Some c /\
         0 <= c <= 255 /\
         image !! (3 * (i * n + j) + 2)%nat = Some c /\
         image !! (3 * (i * n + j) + 1)%nat = Some c /\
         image !! (3 * (i * n + j))%nat = Some c).
Proof.
  intros Hg Himage i j Hi Hj.
  rewrite (create_and_save_image_paint data m n Hg) in Himage.
  destruct Hg as (_ & _ & _ & Hfits).
  destruct (paint_spec normalized_color data m n Hfits _ image
              (length_replicate _ _) Himage) as [_ Hall].
  destruct (Hall i j Hi Hj) as (b & g & r & Hc & Hb & Hgr & Hr).
  unfold normalized_color in Hc. split; intros Hflag; rewrite Hflag in Hc.
  - injection Hc as <- <- <-. auto.
  - destruct (uchar_of_double _) as [c|] eqn:E; simpl in Hc; [|discriminate].
    injection Hc as <- <- <-. apply uchar_of_double_truncates in E as [E1 E2].
    exists c. auto.
Qed.

Lemma normalized_view_pixels_witness :
  image_grid (after_column_division half_intensity 16 51) 16 51 /\
  create_and_save_image (after_column_division half_intensity 16 51)
  = Some (default [] (create_and_save_image (after_column_division half_intensity 16 51))) /\
  (0 < 16)%nat /\ (0 < 51)%nat /\
  is_calibrated (cell (after_column_division half_intensity 16 51) 0 0) = false /\
  exists c,
    truncate (PrimFloat.mul (value (cell (after_column_division half_intensity 16 51) 0 0)) 255)
    = Some c /\ 0 <= c <= 255 /\
    default [] (create_and_save_image (after_column_division half_intensity 16 51))
      !! (3 * (0 * 51 + 0) + 2)%nat = Some c /\
    default [] (create_and_save_image (after_column_division half_intensity 16 51))
      !! (3 * (0 * 51 + 0) + 1)%nat = Some c /\
    default [] (create_and_save_image (after_column_division half_intensity 16 51))
      !! (3 * (0 * 51 + 0))%nat = Some c.
Proof.
  split; [apply image_grid_half_intensity|]. split; [vm_compute; reflexivity|].
  split; [lia|]. split; [lia|]. split; [vm_compute; reflexivity|].
  apply (normalized_view_pixels (after_column_division half_intensity 16 51) 16 51
           (default [] (create_and_save_image (after_column_division half_intensity 16 51))));
    [apply image_grid_half_intensity|vm_compute; reflexivity|lia|lia
    |vm_compute; reflexivity].
Defined.

Lemma image_grid_single_cell (v : float) : image_grid (single_cell v) 1 1.
Proof.
  split; [|split; [lia|split; [lia|reflexivity]]].
  split; [reflexivity|]. apply Forall_forall. intros row Hrow.
  apply list_elem_of_singleton in Hrow as ->. reflexivity.
Qed.

(** * Binary64 arithmetic: bounds on rounded results *)

(** Number of binary digits. *)
Lemma digits2_pos_bounds (p : positive) :
  2 ^ (Z.pos (digits2_pos p) - 1) <= Z.pos p < 2 ^ Z.pos (digits2_pos p).
Proof.
  induction p as [p IH|p IH|]; simpl digits2_pos.
  - rewrite Pos2Z.inj_succ.
    replace (Z.succ (Z.pos (digits2_pos p)) - 1) with (Z.succ (Z.pos (digits2_pos p) - 1)) by lia.
    rewrite !Z.pow_succ_r by lia. lia.
  - rewrite Pos2Z.inj_succ.
    replace (Z.succ (Z.pos (digits2_pos p)) - 1) with (Z.succ (Z.pos (digits2_pos p) - 1)) by lia.
    rewrite !Z.pow_succ_r by lia. lia.
  - simpl. lia.
Qed.

Lemma Zdigits2_nonneg (m : Z) : 0 <= Zdigits2 m.
Proof. destruct m; simpl; lia. Qed.

Lemma Zdigits2_bounds (m : Z) :
  0 < m -> 2 ^ (Zdigits2 m - 1) <= m < 2 ^ Zdigits2 m.
Proof. destruct m as [|p|p]; try lia. intros _. apply digits2_pos_bounds. Qed.

(** The number of digits is fixed by the enclosing powers of two. *)
Lemma Zdigits2_unique (m k : Z) :
  0 < m -> 2 ^ (k - 1) <= m < 2 ^ k -> Zdigits2 m = k.
Proof.
  intros Hm [Hlo Hhi]. pose proof (Zdigits2_bounds m Hm) as [Dlo Dhi].
  pose proof (Zdigits2_nonneg m) as Hd.
  assert (0 < k) as Hk.
  { destruct (Z_lt_le_dec 0 k); [assumption|exfalso].
    destruct (Z.eq_dec k 0) as [->|Hne]; [simpl in Hhi; lia|].
    rewrite (Z.pow_neg_r 2 k) in Hhi by lia. lia. }
  destruct (Z.lt_trichotomy (Zdigits2 m) k) as [H|[H|H]]; [|assumption|]; exfalso.
  - assert (2 ^ Zdigits2 m <= 2 ^ (k - 1)) by (apply Z.pow_le_mono_r; lia). lia.
  - assert (2 ^ k <= 2 ^ (Zdigits2 m - 1)) by (apply Z.pow_le_mono_r; lia). lia.
Qed.

Lemma Zdigits2_le (m k : Z) : 0 <= k -> 0 <= m < 2 ^ k -> Zdigits2 m <= k.
Proof.
  intros Hk [Hlo Hhi]. destruct (Z.eq_dec m 0) as [->|Hne]; [simpl; lia|].
  pose proof (Zdigits2_bounds m ltac:(lia)) as [Dlo Dhi].
  destruct (Z_le_gt_dec (Zdigits2 m) k); [assumption|exfalso].
  assert (2 ^ k <= 2 ^ (Zdigits2 m - 1)) by (apply Z.pow_le_mono_r; lia). lia.
Qed.

Lemma Zdigits2_ge (m k : Z) : 0 < m -> 2 ^ (k - 1) <= m -> k <= Zdigits2 m.
Proof.
  intros Hm Hlo. pose proof (Zdigits2_bounds m Hm) as [Dlo Dhi].
  pose proof (Zdigits2_nonneg m).
  destruct (Z_le_gt_dec k (Zdigits2 m)); [assumption|exfalso].
  assert (2 ^ Zdigits2 m <= 2 ^ (k - 1)) by (apply Z.pow_le_mono_r; lia). lia.
Qed.

(** ** Right shifts *)

Lemma shifted_one (a : shr_record) : 0 <= shr_m a -> shifted 1 a (shr_1 a).
Proof.
  destruct a as [m r s]. cbn [shr_m]. intros Hm. unfold shifted.
  change (2 ^ 1) with 2.
  destruct m as [|[p|p|]|p]; cbn [shr_1 shr_m shr_r shr_s]; try lia.
  - split; [reflexivity|intros -> ->; auto].
  - split; [apply Z.div_unique with 1; lia|].
    intros _ _ H. rewrite Pos2Z.inj_xI in H.
    rewrite Z.add_comm, Z.mul_comm, Z.mod_add in H by lia. discriminate.
  - split; [apply Z.div_unique with 0; lia|].
    intros -> ->; auto.
  - split; [reflexivity|]. intros _ _ H. discriminate.
Qed.

Lemma shifted_trans (j k : Z) (a b c : shr_record) :
  0 <= j -> 0 <= k -> 0 <= shr_m a ->
  shifted j a b -> shifted k b c -> shifted (j + k) a c.
Proof.
  intros Hj Hk Hm [Hb Hfb] [Hc Hfc].
  assert (0 < 2 ^ j) by (apply Z.pow_pos_nonneg; lia).
  assert (0 < 2 ^ k) by (apply Z.pow_pos_nonneg; lia).
  split.
  - rewrite Hc, Hb, Z.pow_add_r, Z.div_div by lia. reflexivity.
  - intros Hr Hs Hmod. rewrite Z.pow_add_r in Hmod by lia.
    apply Z.mod_divide in Hmod; [|lia]. destruct Hmod as [q Hq].
    assert (shr_m a mod 2 ^ j = 0) as Hmodj.
    { apply Z.mod_divide; [lia|]. exists (q * 2 ^ k). lia. }
    destruct (Hfb Hr Hs Hmodj) as [Hrb Hsb].
    apply Hfc; [assumption..|].
    rewrite Hb. apply Z.mod_divide; [lia|]. exists q.
    rewrite Hq. replace (q * (2 ^ j * 2 ^ k)) with (q * 2 ^ k * 2 ^ j) by lia.
    now rewrite Z.div_mul by lia.
Qed.

Lemma shifted_nonneg (k : Z) (a b : shr_record) :
  0 <= k -> 0 <= shr_m a -> shifted k a b -> 0 <= shr_m b.
Proof.
  intros Hk Hm [Hb _]. rewrite Hb. apply Z.div_pos; [assumption|].
  apply Z.pow_pos_nonneg; lia.
Qed.

Lemma shifted_iter (p : positive) (a : shr_record) :
  0 <= shr_m a -> shifted (Z.pos p) a (SpecFloat.iter_pos shr_1 p a).
Proof.
  revert a. induction p as [p IH|p IH|]; intros a Hm; simpl SpecFloat.iter_pos.
  - pose proof (shifted_one a Hm) as H1.
    pose proof (shifted_nonneg 1 _ _ ltac:(lia) Hm H1) as Hm1.
    pose proof (IH _ Hm1) as H2.
    pose proof (shifted_nonneg (Z.pos p) _ _ ltac:(lia) Hm1 H2) as Hm2.
    pose proof (IH _ Hm2) as H3.
    pose proof (shifted_trans 1 (Z.pos p) _ _ _ ltac:(lia) ltac:(lia) Hm H1 H2) as H12.
    pose proof (shifted_trans (1 + Z.pos p) (Z.pos p) _ _ _ ltac:(lia) ltac:(lia) Hm H12 H3)
      as H123.
    replace (Z.pos p~1) with (1 + Z.pos p + Z.pos p) by lia. exact H123.
  - pose proof (IH _ Hm) as H2.
    pose proof (shifted_nonneg (Z.pos p) _ _ ltac:(lia) Hm H2) as Hm2.
    pose proof (IH _ Hm2) as H3.
    pose proof (shifted_trans (Z.pos p) (Z.pos p) _ _ _ ltac:(lia) ltac:(lia) Hm H2 H3) as H23.
    replace (Z.pos p~0) with (Z.pos p + Z.pos p) by lia. exact H23.
  - now apply shifted_one.
Qed.

(** [shr] shifts by [n] bits when [n] is positive and not at all
    otherwise. *)
Lemma shr_spec (a : shr_record) (e n : Z) :
  0 <= shr_m a ->
  shifted (Z.max n 0) a (fst (shr a e n)) /\ snd (shr a e n) = e + Z.max n 0.
Proof.
  intros Hm. destruct n as [|p|p]; simpl.
  - split; [|lia]. split; [now rewrite Z.div_1_r|auto].
  - split; [|lia]. now apply shifted_iter.
  - split; [|lia]. split; [now rewrite Z.div_1_r|auto].
Qed.

Lemma round_nearest_even_bounds (m : Z) (l : location) :
  m <= round_nearest_even m l <= m + 1.
Proof.
  destruct l as [|[| |]]; simpl; try lia. destruct (Z.even m); lia.
Qed.

Lemma round_nearest_even_exact (a : shr_record) :
  shr_r a = false -> shr_s a = false ->
  round_nearest_even (shr_m a) (loc_of_shr_record a) = shr_m a.
Proof. destruct a as [m r s]. simpl. intros -> ->. reflexivity. Qed.

Lemma shr_record_of_loc_m (m : Z) (l : location) : shr_m (shr_record_of_loc m l) = m.
Proof. destruct l as [|[| |]]; reflexivity. Qed.

(** ** Rounding to binary64 *)

Lemma fexp64_eq (e : Z) : fexp prec emax e = fexp64 e.
Proof. reflexivity. Qed.

(** What [binary_round_aux] returns for a mantissa [mx >= 0] at
    exponent [ex]: with [e1] the exponent the mantissa is brought to and
    [m1] the mantissa cut to that exponent, the result is [m2 * 2 ^ e1]
    for [m2] equal to [m1] or [m1 + 1], and to [m1] when nothing was cut
    off an exact input. *)
Lemma binary_round_aux_spec (s : bool) (mx ex : Z) (lx : location) :
  0 <= mx ->
  let e1 := Z.max (fexp64 (Zdigits2 mx + ex)) ex in
  let m1 := mx / 2 ^ (e1 - ex) in
  exists m2,
    m1 <= m2 <= m1 + 1 /\
    (lx = loc_Exact -> mx mod 2 ^ (e1 - ex) = 0 -> m2 = m1) /\
    ((m2 = 0 /\ binary_round_aux prec emax s mx ex lx = S754_zero s) \/
     (exists m3 e3,
        e1 <= e3 <= e1 + 1 /\ Z.pos m3 * 2 ^ (e3 - e1) = m2 /\
        binary_round_aux prec emax s mx ex lx
        = if e3 <=? 971 then S754_finite s m3 e3 else S754_infinity s)).
Proof.
  intros Hmx e1 m1.
  unfold binary_round_aux, shr_fexp. rewrite fexp64_eq.
  set (n1 := fexp64 (Zdigits2 mx + ex) - ex).
  assert (e1 - ex = Z.max n1 0) as Hp by (unfold e1, n1; lia).
  pose proof (shr_spec (shr_record_of_loc mx lx) ex n1) as [[Hm1 Hexact1] He1];
    [rewrite shr_record_of_loc_m; assumption|].
  destruct (shr (shr_record_of_loc mx lx) ex n1) as [mrs' e'].
  cbn [fst snd] in Hm1, Hexact1, He1.
  rewrite shr_record_of_loc_m, <- Hp in Hm1. rewrite shr_record_of_loc_m, <- Hp in Hexact1.
  assert (e' = e1) as -> by lia. fold m1 in Hm1.
  set (m2 := round_nearest_even (shr_m mrs') (loc_of_shr_record mrs')).
  pose proof (round_nearest_even_bounds (shr_m mrs') (loc_of_shr_record mrs')) as Hm2.
  fold m2 in Hm2. rewrite Hm1 in Hm2.
  assert (0 < 2 ^ (e1 - ex)) as Hpow by (apply Z.pow_pos_nonneg; lia).
  assert (0 <= m1) as Hm1pos by (apply Z.div_pos; lia).
  (* the cut mantissa has at most 53 digits *)
  assert (m1 < 2 ^ 53) as Hm1hi.
  { destruct (Z.eq_dec mx 0) as [->|Hne]; [unfold m1; rewrite Z.div_0_l by lia; lia|].
    pose proof (Zdigits2_bounds mx ltac:(lia)) as [_ Hd].
    pose proof (Zdigits2_nonneg mx) as Hd0.
    apply Z.div_lt_upper_bound; [lia|]. rewrite <- Z.pow_add_r by lia.
    eapply Z.lt_le_trans; [exact Hd|]. apply Z.pow_le_mono_r; [lia|].
    unfold e1, fexp64. lia. }
  exists m2. split; [exact Hm2|]. split.
  { intros -> Hmod. unfold m2. rewrite <- Hm1.
    apply round_nearest_even_exact; apply Hexact1; auto. }
  rewrite fexp64_eq.
  set (n2 := fexp64 (Zdigits2 m2 + e1) - e1).
  pose proof (shr_spec (shr_record_of_loc m2 loc_Exact) e1 n2) as [[Hm3 _] He3];
    [simpl; lia|].
  destruct (shr (shr_record_of_loc m2 loc_Exact) e1 n2) as [mrs'' e''].
  cbn [fst snd shr_record_of_loc shr_m] in Hm3, He3.
  assert (-1074 <= e1) as He1min by (unfold e1, fexp64; lia).
  destruct (Z.eq_dec m2 (2 ^ 53)) as [E|Hne].
  - (* the mantissa was rounded up to 2^53: one more shift *)
    right. assert (Zdigits2 m2 = 54) as Hd2.
    { apply Zdigits2_unique; rewrite E; simpl; lia. }
    assert (n2 = 1) as Hn2 by (unfold n2, fexp64; lia).
    rewrite Hn2 in Hm3, He3. change (Z.max 1 0) with 1 in Hm3, He3.
    rewrite E in Hm3. change (2 ^ 53 / 2 ^ 1) with (2 ^ 52) in Hm3.
    rewrite Hm3. change (2 ^ 52) with (Z.pos (2 ^ 52)).
    exists (2 ^ 52)%positive, (e1 + 1). split; [lia|]. split.
    + replace (e1 + 1 - e1) with 1 by lia. rewrite E. reflexivity.
    + rewrite He3. reflexivity.
  - assert (n2 <= 0) as Hn2.
    { unfold n2, fexp64. assert (Zdigits2 m2 <= 53); [|lia].
      apply Zdigits2_le; lia. }
    replace (Z.max n2 0) with 0 in Hm3, He3 by lia.
    rewrite Z.div_1_r in Hm3. rewrite Z.add_0_r in He3. subst e''.
    rewrite Hm3. destruct m2 as [|m3|m3]; [left; auto| |lia].
    right. exists m3, e1. split; [lia|]. split; [|reflexivity].
    replace (e1 - e1) with 0 by lia. simpl. lia.
Qed.

(** ** Magnitudes of non-negative doubles *)

Lemma below_mono (j k : Z) (x : spec_float) : j <= k -> below j x -> below k x.
Proof. intros Hjk. destruct x as [| | |[] m e]; simpl; try tauto. lia. Qed.

Lemma above_mono (j k : Z) (x : spec_float) : j <= k -> above k x -> above j x.
Proof. intros Hjk. destruct x as [| | |[] m e]; simpl; try tauto. lia. Qed.

Lemma below_not_negative (k : Z) (x : spec_float) : below k x -> not_negative x.
Proof. destruct x as [| | |[] m e]; simpl; tauto. Qed.

Lemma above_zero_or_above (k : Z) (x : spec_float) : above k x -> zero_or_above k x.
Proof. destruct x as [| | |[] m e]; simpl; tauto. Qed.

(** Digits of a power-of-two multiple. *)
Lemma Zdigits2_shift (m j : Z) : 0 < m -> 0 <= j -> Zdigits2 (m * 2 ^ j) = Zdigits2 m + j.
Proof.
  intros Hm Hj. pose proof (Zdigits2_bounds m Hm) as [Dlo Dhi].
  pose proof (Zdigits2_nonneg m) as Hd.
  assert (0 < 2 ^ j) by (apply Z.pow_pos_nonneg; lia).
  assert (1 <= Zdigits2 m) as Hd1.
  { destruct (Z.eq_dec (Zdigits2 m) 0) as [E|]; [rewrite E in Dhi; simpl in Dhi; lia|lia]. }
  apply Zdigits2_unique; [nia|].
  replace (Zdigits2 m + j - 1) with (Zdigits2 m - 1 + j) by lia.
  rewrite !Z.pow_add_r by lia. nia.
Qed.

Lemma Zdigits2_pos (m : positive) : Zdigits2 (Z.pos m) = Z.pos (digits2_pos m).
Proof. reflexivity. Qed.

Lemma Zdigits2_ge_1 (m : Z) : 0 < m -> 1 <= Zdigits2 m.
Proof. destruct m; simpl; lia. Qed.

(** Bounds on the rounded result from the position [b] of the leading
    bit of the input. *)
Lemma binary_round_aux_not_negative (mx ex : Z) (lx : location) :
  0 <= mx -> not_negative (binary_round_aux prec emax false mx ex lx).
Proof.
  intros Hmx.
  destruct (binary_round_aux_spec false mx ex lx Hmx)
    as (m2 & _ & _ & [[_ ->]|(m3 & e3 & _ & _ & ->)]); [exact I|].
  destruct (e3 <=? 971); exact I.
Qed.

Lemma binary_round_aux_below (mx ex : Z) (lx : location) (k : Z) :
  0 <= mx -> Zdigits2 mx + ex <= k -> -1074 <= k <= 1023 -> ex <= 970 ->
  below (k + 1) (binary_round_aux prec emax false mx ex lx).
Proof.
  intros Hmx Hb Hk Hex.
  destruct (binary_round_aux_spec false mx ex lx Hmx)
    as (m2 & Hm2 & _ & [[_ ->]|(m3 & e3 & He3 & Hm3 & ->)]); [exact I|].
  set (e1 := Z.max (fexp64 (Zdigits2 mx + ex)) ex) in *.
  pose proof (Zdigits2_nonneg mx) as Hd.
  assert (e1 <= 970) as He1 by (unfold e1, fexp64; lia).
  destruct (Z.leb_spec e3 971) as [_|]; [|lia]. unfold below.
  assert (0 < 2 ^ (e1 - ex)) as Hpow by (apply Z.pow_pos_nonneg; unfold e1; lia).
  (* m2 <= 2 ^ (k - e1) *)
  assert (e1 <= k) as He1k by (unfold e1, fexp64; lia).
  assert (mx / 2 ^ (e1 - ex) < 2 ^ (k - e1)) as Hm1.
  { apply Z.div_lt_upper_bound; [lia|]. rewrite <- Z.pow_add_r by (unfold e1; lia).
    replace (e1 - ex + (k - e1)) with (k - ex) by lia.
    destruct (Z.eq_dec mx 0) as [->|Hne]; [apply Z.pow_pos_nonneg; lia|].
    pose proof (Zdigits2_bounds mx ltac:(lia)) as [_ Hhi].
    eapply Z.lt_le_trans; [exact Hhi|]. apply Z.pow_le_mono_r; lia. }
  assert (Z.pos m3 * 2 ^ (e3 - e1) <= 2 ^ (k - e1)) as Hle by lia.
  assert (0 < 2 ^ (e3 - e1)) by (apply Z.pow_pos_nonneg; lia).
  assert (Z.pos m3 < 2 ^ (k + 1 - e3)) as Hlt.
  { destruct (Z.eq_dec e3 e1) as [->|Hne].
    - replace (e1 - e1) with 0 in Hle by lia. rewrite Z.mul_1_r in Hle.
      replace (k + 1 - e1) with (Z.succ (k - e1)) by lia.
      rewrite Z.pow_succ_r by lia.
      assert (0 < 2 ^ (k - e1)) by (apply Z.pow_pos_nonneg; lia). lia.
    - replace (e3 - e1) with 1 in Hle by lia. change (2 ^ 1) with 2 in Hle.
      replace (k + 1 - e3) with (k - e1) by lia. lia. }
  assert (0 <= k + 1 - e3).
  { destruct (Z_le_gt_dec 0 (k + 1 - e3)); [assumption|].
    rewrite Z.pow_neg_r in Hlt by lia. lia. }
  pose proof (Zdigits2_le (Z.pos m3) (k + 1 - e3) ltac:(lia) ltac:(lia)) as Hdig.
  rewrite Zdigits2_pos in Hdig. lia.
Qed.

Lemma binary_round_aux_above (mx ex : Z) (lx : location) (k : Z) :
  0 < mx -> k <= Zdigits2 mx + ex -> -1073 <= k -> Zdigits2 mx + ex <= 1023 -> ex <= 970 ->
  above k (binary_round_aux prec emax false mx ex lx).
Proof.
  intros Hmx Hb Hk Hfin Hex.
  pose proof (Zdigits2_bounds mx Hmx) as [Dlo Dhi].
  pose proof (Zdigits2_nonneg mx) as Hd.
  destruct (binary_round_aux_spec false mx ex lx ltac:(lia)) as (m2 & Hm2 & _ & Hres).
  set (e1 := Z.max (fexp64 (Zdigits2 mx + ex)) ex) in *.
  assert (e1 <= 970) as He1 by (unfold e1, fexp64; lia).
  assert (0 < 2 ^ (e1 - ex)) as Hpow by (apply Z.pow_pos_nonneg; unfold e1; lia).
  pose proof (Zdigits2_ge_1 mx Hmx) as Hd1.
  (* the leading bit survives the cut *)
  assert (e1 - ex <= Zdigits2 mx - 1) as Hcut by (unfold e1, fexp64; lia).
  assert (2 ^ (Zdigits2 mx - 1 - (e1 - ex)) <= mx / 2 ^ (e1 - ex)) as Hm1.
  { apply Z.div_le_lower_bound; [lia|]. rewrite <- Z.pow_add_r by (unfold e1; lia).
    replace (e1 - ex + (Zdigits2 mx - 1 - (e1 - ex))) with (Zdigits2 mx - 1) by lia.
    exact Dlo. }
  assert (0 < 2 ^ (Zdigits2 mx - 1 - (e1 - ex))) by (apply Z.pow_pos_nonneg; lia).
  destruct Hres as [[E _]|(m3 & e3 & He3 & Hm3 & ->)]; [lia|].
  destruct (Z.leb_spec e3 971) as [_|]; [|lia]. unfold above.
  assert (0 < 2 ^ (e3 - e1)) by (apply Z.pow_pos_nonneg; lia).
  assert (2 ^ (Zdigits2 mx + ex - e3 - 1) <= Z.pos m3) as Hlo.
  { destruct (Z.eq_dec e3 e1) as [->|Hne].
    - replace (e1 - e1) with 0 in Hm3 by lia. rewrite Z.mul_1_r in Hm3.
      replace (Zdigits2 mx + ex - e1 - 1) with (Zdigits2 mx - 1 - (e1 - ex)) by lia. lia.
    - replace (e3 - e1) with 1 in Hm3 by lia. change (2 ^ 1) with 2 in Hm3.
      destruct (Z.eq_dec (Zdigits2 mx - 1 - (e1 - ex)) 0) as [E0|E0].
      + replace (Zdigits2 mx + ex - e3 - 1) with (-1) by lia.
        rewrite Z.pow_neg_r by lia. lia.
      + replace (Zdigits2 mx - 1 - (e1 - ex)) with (Z.succ (Zdigits2 mx + ex - e3 - 1)) in Hm1
          by lia.
        rewrite Z.pow_succ_r in Hm1 by lia. lia. }
  pose proof (Zdigits2_ge (Z.pos m3) (Zdigits2 mx + ex - e3) ltac:(lia)) as Hdig.
  specialize (Hdig Hlo). rewrite Zdigits2_pos in Hdig. lia.
Qed.

(** ** Valid doubles *)

Lemma valid_finite (s : bool) (m : positive) (e : Z) :
  valid_binary (S754_finite s m e) = true ->
  e = fexp64 (Z.pos (digits2_pos m) + e) /\ e <= 971.
Proof.
  unfold SpecFloat.valid_binary, bounded, canonical_mantissa.
  rewrite Bool.andb_true_iff, Z.eqb_eq, Z.leb_le, fexp64_eq.
  change (emax - prec) with 971. intros [H1 H2]. split; [symmetry|]; assumption.
Qed.

Lemma below_scaled (k : Z) (x : spec_float) :
  valid_binary x = true -> below k x -> -1074 <= k -> scaled x < 2 ^ (k + 1074).
Proof.
  intros Hv Hb Hk. destruct x as [| | |[] m e]; cbv beta iota delta [below scaled] in *;
    try (apply Z.pow_pos_nonneg; lia); try contradiction.
  apply valid_finite in Hv as [He _]. unfold fexp64 in He.
  pose proof (digits2_pos_bounds m) as [_ Hm].
  assert (0 < 2 ^ (e + 1074)) by (apply Z.pow_pos_nonneg; lia).
  eapply Z.lt_le_trans; [apply Z.mul_lt_mono_pos_r; [assumption|exact Hm]|].
  rewrite <- Z.pow_add_r by lia. apply Z.pow_le_mono_r; lia.
Qed.

Lemma scaled_below (k : Z) (x : spec_float) :
  valid_binary x = true -> not_negative x -> x <> S754_infinity false ->
  scaled x < 2 ^ (k + 1074) -> below k x.
Proof.
  intros Hv Hn Hf Hs.
  destruct x as [|[]| |[] m e]; cbv beta iota delta [below scaled not_negative] in *;
    try exact I; try contradiction; try congruence.
  apply valid_finite in Hv as [He _]. unfold fexp64 in He.
  assert (0 < 2 ^ (e + 1074)) by (apply Z.pow_pos_nonneg; lia).
  destruct (Z_le_gt_dec (k - e) 0) as [Hle|Hgt].
  - exfalso. assert (2 ^ (k + 1074) <= 2 ^ (e + 1074)).
    { destruct (Z_lt_le_dec (k + 1074) 0); [rewrite Z.pow_neg_r by lia; lia|].
      apply Z.pow_le_mono_r; lia. }
    nia.
  - assert (Z.pos m < 2 ^ (k - e)) as Hm.
    { replace (k + 1074) with (k - e + (e + 1074)) in Hs by lia.
      rewrite (Z.pow_add_r 2 (k - e) (e + 1074)) in Hs by lia.
      apply Z.mul_lt_mono_pos_r in Hs; assumption. }
    pose proof (Zdigits2_le (Z.pos m) (k - e) ltac:(lia) ltac:(lia)) as Hd.
    rewrite Zdigits2_pos in Hd. lia.
Qed.

(** ** Alignment and [binary_round] *)

Lemma iter_xO (m d : positive) : Z.pos (Pos.iter xO m d) = Z.pos m * 2 ^ Z.pos d.
Proof.
  induction d as [|d IH] using Pos.peano_ind.
  - simpl. lia.
  - rewrite Pos.iter_succ, Pos2Z.inj_xO, IH, Pos2Z.inj_succ, Z.pow_succ_r by lia. lia.
Qed.

Lemma shl_align_spec (m : positive) (e e0 : Z) :
  snd (shl_align m e e0) = Z.min e e0 /\
  Z.pos (fst (shl_align m e e0)) = Z.pos m * 2 ^ (e - Z.min e e0).
Proof.
  unfold shl_align. destruct (e0 - e) as [|d|d] eqn:E; cbn [fst snd].
  - replace (Z.min e e0) with e by lia. replace (e - e) with 0 by lia. simpl. lia.
  - replace (Z.min e e0) with e by lia. replace (e - e) with 0 by lia. simpl. lia.
  - replace (Z.min e e0) with e0 by lia. split; [reflexivity|].
    rewrite iter_xO. f_equal. f_equal. lia.
Qed.

(** [binary_round] on a positive mantissa aligns it and rounds; the
    leading bit keeps its position. *)
Lemma binary_round_aligned (m : positive) (e : Z) :
  exists (m' : positive) (e' : Z),
    binary_round prec emax false m e = binary_round_aux prec emax false (Z.pos m') e' loc_Exact /\
    e' = Z.min e (fexp64 (Z.pos (digits2_pos m) + e)) /\
    Z.pos m' = Z.pos m * 2 ^ (e - e') /\
    Zdigits2 (Z.pos m') + e' = Z.pos (digits2_pos m) + e.
Proof.
  unfold binary_round. rewrite fexp64_eq.
  pose proof (shl_align_spec m e (fexp64 (Z.pos (digits2_pos m) + e))) as [He Hm].
  destruct (shl_align m e (fexp64 (Z.pos (digits2_pos m) + e))) as [m' e'].
  cbn [fst snd] in He, Hm. exists m', e'. split; [reflexivity|].
  split; [assumption|]. rewrite <- He in Hm. split; [assumption|].
  rewrite Hm, Zdigits2_shift by lia. rewrite Zdigits2_pos. lia.
Qed.

Lemma binary_round_below (m : positive) (e k : Z) :
  Z.pos (digits2_pos m) + e <= k -> -1074 <= k <= 1023 ->
  below (k + 1) (binary_round prec emax false m e).
Proof.
  intros Hb Hk. destruct (binary_round_aligned m e) as (m' & e' & -> & He & _ & Hd).
  apply binary_round_aux_below; [lia|lia|assumption|].
  unfold fexp64 in He. lia.
Qed.

Lemma binary_round_above (m : positive) (e k : Z) :
  k <= Z.pos (digits2_pos m) + e -> -1073 <= k -> Z.pos (digits2_pos m) + e <= 1023 ->
  above k (binary_round prec emax false m e).
Proof.
  intros Hb Hk Hfin. destruct (binary_round_aligned m e) as (m' & e' & -> & He & _ & Hd).
  apply binary_round_aux_above; [lia|lia|assumption|lia|].
  unfold fexp64 in He. lia.
Qed.

(** Rounding never passes a bound that is itself a multiple of the unit
    in the last place. *)
Lemma binary_round_scaled_le (m : positive) (e B c : Z) :
  -1074 <= e -> Z.pos (digits2_pos m) + e <= 1023 ->
  Z.pos m * 2 ^ (e + 1074) <= B ->
  B = c * 2 ^ (fexp64 (Z.pos (digits2_pos m) + e) + 1074) ->
  below 1024 (binary_round prec emax false m e) /\
  scaled (binary_round prec emax false m e) <= B.
Proof.
  intros He Hfin HA HB.
  split; [apply (binary_round_below m e 1023); lia|].
  destruct (binary_round_aligned m e) as (m' & e' & -> & He' & Hm' & Hd).
  set (b := Z.pos (digits2_pos m) + e) in *.
  destruct (binary_round_aux_spec false (Z.pos m') e' loc_Exact ltac:(lia))
    as (m2 & Hm2 & Hexact & Hres).
  rewrite Hd in *.
  replace (Z.max (fexp64 b) e') with (fexp64 b) in * by lia.
  set (e1 := fexp64 b) in *.
  assert (-1074 <= e' <= e1) as He1 by (unfold e1, fexp64 in *; lia).
  assert (0 < 2 ^ (e1 - e')) as Hp by (apply Z.pow_pos_nonneg; lia).
  assert (0 < 2 ^ (e' + 1074)) as Hq by (apply Z.pow_pos_nonneg; lia).
  assert (0 < 2 ^ (e1 + 1074)) as Hq1 by (apply Z.pow_pos_nonneg; lia).
  assert (2 ^ (e1 + 1074) = 2 ^ (e1 - e') * 2 ^ (e' + 1074)) as Hsplit.
  { rewrite <- Z.pow_add_r by lia. f_equal. lia. }
  assert (Z.pos m * 2 ^ (e + 1074) = Z.pos m' * 2 ^ (e' + 1074)) as HA'.
  { rewrite Hm', <- Z.mul_assoc, <- Z.pow_add_r by lia. f_equal. f_equal. lia. }
  pose proof (Z.div_mod (Z.pos m') (2 ^ (e1 - e')) ltac:(lia)) as Hdm.
  pose proof (Z.mod_pos_bound (Z.pos m') (2 ^ (e1 - e')) Hp) as Hr.
  set (m1 := Z.pos m' / 2 ^ (e1 - e')) in *.
  set (r := Z.pos m' mod 2 ^ (e1 - e')) in *.
  assert (m2 * 2 ^ (e1 + 1074) <= B) as Hgoal.
  { destruct (Z.eq_dec r 0) as [Hr0|Hr0].
    - rewrite (Hexact eq_refl Hr0). rewrite HA' in HA. rewrite Hdm, Hr0 in HA. nia.
    - assert (m1 * 2 ^ (e1 + 1074) < B) as Hlt.
      { rewrite HA' in HA. rewrite Hdm in HA. nia. }
      rewrite HB in Hlt |- *.
      apply Z.mul_lt_mono_pos_r in Hlt; [|assumption].
      apply Z.mul_le_mono_nonneg_r; lia. }
  destruct Hres as [[_ ->]|(m3 & e3 & He3 & Hm3 & ->)]; [unfold scaled; nia|].
  assert (e1 <= 970) by (unfold e1, fexp64; lia).
  destruct (Z.leb_spec e3 971) as [_|]; [|lia]. unfold scaled.
  rewrite <- Hm3 in Hgoal.
  replace (e3 + 1074) with ((e3 - e1) + (e1 + 1074)) by lia.
  rewrite Z.pow_add_r by lia. lia.
Qed.

(** ** Addition *)

Lemma SFadd_finite (mx : positive) (ex : Z) (my : positive) (ey : Z) :
  exists M : positive,
    SF64add (S754_finite false mx ex) (S754_finite false my ey)
    = binary_round prec emax false M (Z.min ex ey) /\
    Z.pos M = Z.pos mx * 2 ^ (ex - Z.min ex ey) + Z.pos my * 2 ^ (ey - Z.min ex ey).
Proof.
  unfold SF64add, SFadd. cbn [cond_Zopp].
  pose proof (shl_align_spec mx ex (Z.min ex ey)) as [_ Hx].
  pose proof (shl_align_spec my ey (Z.min ex ey)) as [_ Hy].
  replace (Z.min ex (Z.min ex ey)) with (Z.min ex ey) in Hx by lia.
  replace (Z.min ey (Z.min ex ey)) with (Z.min ex ey) in Hy by lia.
  exists (fst (shl_align mx ex (Z.min ex ey)) + fst (shl_align my ey (Z.min ex ey)))%positive.
  split; [reflexivity|]. rewrite Pos2Z.inj_add, Hx, Hy. reflexivity.
Qed.

(** The position of the leading bit of a sum of two aligned mantissas. *)
Lemma aligned_sum_digits (mx : positive) (ex : Z) (my : positive) (ey : Z) (M : positive) :
  Z.pos M = Z.pos mx * 2 ^ (ex - Z.min ex ey) + Z.pos my * 2 ^ (ey - Z.min ex ey) ->
  let bx := Z.pos (digits2_pos mx) + ex in
  let cy := Z.pos (digits2_pos my) + ey in
  Z.max bx cy <= Z.pos (digits2_pos M) + Z.min ex ey <= Z.max bx cy + 1.
Proof.
  intros HM bx by'. set (ez := Z.min ex ey) in *.
  pose proof (digits2_pos_bounds mx) as [Lx Ux].
  pose proof (digits2_pos_bounds my) as [Ly Uy].
  assert (0 < 2 ^ (ex - ez)) as Px by (apply Z.pow_pos_nonneg; lia).
  assert (0 < 2 ^ (ey - ez)) as Py by (apply Z.pow_pos_nonneg; lia).
  set (k := Z.max bx by').
  assert (Z.pos mx * 2 ^ (ex - ez) < 2 ^ (k - ez)) as Hx.
  { eapply Z.lt_le_trans; [apply Z.mul_lt_mono_pos_r; [assumption|exact Ux]|].
    rewrite <- Z.pow_add_r by lia. apply Z.pow_le_mono_r; unfold k, bx; lia. }
  assert (Z.pos my * 2 ^ (ey - ez) < 2 ^ (k - ez)) as Hy.
  { eapply Z.lt_le_trans; [apply Z.mul_lt_mono_pos_r; [assumption|exact Uy]|].
    rewrite <- Z.pow_add_r by lia. apply Z.pow_le_mono_r; unfold k, by'; lia. }
  assert (2 ^ (bx - 1 - ez) <= Z.pos mx * 2 ^ (ex - ez)) as Hx'.
  { replace (bx - 1 - ez) with (Z.pos (digits2_pos mx) - 1 + (ex - ez)) by (unfold bx; lia).
    rewrite Z.pow_add_r by lia. apply Z.mul_le_mono_nonneg_r; lia. }
  assert (2 ^ (by' - 1 - ez) <= Z.pos my * 2 ^ (ey - ez)) as Hy'.
  { replace (by' - 1 - ez) with (Z.pos (digits2_pos my) - 1 + (ey - ez)) by (unfold by'; lia).
    rewrite Z.pow_add_r by lia. apply Z.mul_le_mono_nonneg_r; lia. }
  assert (2 ^ (k - 1 - ez) <= Z.pos M) as Hlo.
  { unfold k. destruct (Z.max_spec bx by') as [[_ ->]|[_ ->]]; lia. }
  assert (Z.pos M < 2 ^ (k + 1 - ez)) as Hhi.
  { replace (k + 1 - ez) with (Z.succ (k - ez)) by lia.
    rewrite Z.pow_succ_r by (unfold k, bx; lia). lia. }
  pose proof (Zdigits2_ge (Z.pos M) (k - ez) ltac:(lia)) as D1.
  replace (k - ez - 1) with (k - 1 - ez) in D1 by lia. specialize (D1 Hlo).
  pose proof (Zdigits2_le (Z.pos M) (k + 1 - ez) ltac:(unfold k, bx; lia) ltac:(lia)) as D2.
  rewrite Zdigits2_pos in D1, D2. lia.
Qed.

Lemma SFadd_below (k : Z) (x y : spec_float) :
  below k x -> below k y -> -1075 <= k <= 1022 -> below (k + 2) (SF64add x y).
Proof.
  intros Hx Hy Hk.
  destruct x as [sx| | |[] mx ex], y as [sy| | |[] my ey];
    cbv beta iota delta [below] in Hx, Hy; try contradiction.
  - destruct sx, sy; exact I.
  - cbv beta iota delta [SF64add SFadd below]. lia.
  - cbv beta iota delta [SF64add SFadd below]. lia.
  - destruct (SFadd_finite mx ex my ey) as (M & -> & HM).
    pose proof (aligned_sum_digits mx ex my ey M HM) as HD. cbv zeta in HD.
    replace (k + 2) with (k + 1 + 1) by lia.
    apply binary_round_below; lia.
Qed.

Lemma SFadd_zero_or_above (k K : Z) (x y : spec_float) :
  zero_or_above k x -> zero_or_above k y -> below K x -> below K y ->
  -1073 <= k -> K <= 1022 ->
  zero_or_above k (SF64add x y).
Proof.
  intros Hx Hy Bx By Hk HK.
  destruct x as [sx| | |[] mx ex], y as [sy| | |[] my ey];
    cbv beta iota delta [below zero_or_above] in Hx, Hy, Bx, By; try contradiction.
  - destruct sx, sy; exact I.
  - cbv beta iota delta [SF64add SFadd zero_or_above]. lia.
  - cbv beta iota delta [SF64add SFadd zero_or_above]. lia.
  - destruct (SFadd_finite mx ex my ey) as (M & -> & HM).
    pose proof (aligned_sum_digits mx ex my ey M HM) as HD. cbv zeta in HD.
    apply above_zero_or_above. apply binary_round_above; lia.
Qed.

(** A sum bounded by [N * 2 ^ C], for [N] of at most 52 bits, rounds to
    a double with the same bound. *)
Lemma SFadd_scaled_le (N C : Z) (x y : spec_float) :
  valid_binary x = true -> valid_binary y = true ->
  below 1024 x -> below 1024 y ->
  0 < N < 2 ^ 52 -> 0 <= C <= 2045 ->
  scaled x + scaled y <= N * 2 ^ C ->
  below 1024 (SF64add x y) /\ scaled (SF64add x y) <= N * 2 ^ C.
Proof.
  intros Vx Vy Hx Hy HN HC Hsum.
  assert (0 < 2 ^ C) as HpC by (apply Z.pow_pos_nonneg; lia).
  destruct x as [sx| | |[] mx ex], y as [sy| | |[] my ey];
    cbv beta iota delta [below] in Hx, Hy; try contradiction.
  - destruct sx, sy; (split; [exact I|cbv beta iota delta [SF64add SFadd scaled]; nia]).
  - split; [exact Hy|exact Hsum].
  - split; [exact Hx|]. cbv beta iota delta [scaled] in Hsum.
    cbv beta iota delta [SF64add SFadd scaled]. lia.
  - apply valid_finite in Vx as [Vx _]. apply valid_finite in Vy as [Vy _].
    unfold fexp64 in Vx, Vy.
    destruct (SFadd_finite mx ex my ey) as (M & -> & HM).
    pose proof (aligned_sum_digits mx ex my ey M HM) as HD. cbv zeta in HD.
    set (ez := Z.min ex ey) in *. cbn [scaled] in Hsum.
    assert (Z.pos M * 2 ^ (ez + 1074) = Z.pos mx * 2 ^ (ex + 1074) + Z.pos my * 2 ^ (ey + 1074))
      as HA.
    { rewrite HM, Z.mul_add_distr_r, <- !Z.mul_assoc, <- !Z.pow_add_r by lia.
      f_equal; f_equal; f_equal; lia. }
    set (b := Z.pos (digits2_pos M) + ez) in *.
    (* the leading bit of the sum lies below that of the bound *)
    pose proof (digits2_pos_bounds M) as [LM _].
    assert (0 < 2 ^ (ez + 1074)) as Hpz by (apply Z.pow_pos_nonneg; lia).
    assert (2 ^ (b - 1 + 1074) <= Z.pos M * 2 ^ (ez + 1074)) as Hlead.
    { replace (b - 1 + 1074) with (Z.pos (digits2_pos M) - 1 + (ez + 1074)) by (unfold b; lia).
      rewrite Z.pow_add_r by lia. apply Z.mul_le_mono_nonneg_r; lia. }
    assert (N * 2 ^ C < 2 ^ (52 + C)) as HB.
    { rewrite Z.pow_add_r by lia. apply Z.mul_lt_mono_pos_r; lia. }
    assert (b - 1 + 1074 < 52 + C) as Hb.
    { apply (Z.pow_lt_mono_r_iff 2); lia. }
    apply (binary_round_scaled_le M ez (N * 2 ^ C)
             (N * 2 ^ (C - (fexp64 b + 1074)))); [lia|fold b; lia|lia|].
    fold b. rewrite <- Z.mul_assoc, <- Z.pow_add_r by (unfold fexp64; lia).
    f_equal. f_equal. lia.
Qed.

(** ** Multiplication *)

Lemma SFmul_below (j k : Z) (x y : spec_float) :
  valid_binary x = true -> valid_binary y = true ->
  below j x -> below k y -> -1074 <= j + k <= 1023 ->
  below (j + k + 1) (SF64mul x y).
Proof.
  intros Vx Vy Hx Hy Hk.
  destruct x as [sx| | |[] mx ex], y as [sy| | |[] my ey];
    cbv beta iota delta [below] in Hx, Hy; try contradiction; try exact I.
  apply valid_finite in Vx as [Vx Vx']. apply valid_finite in Vy as [Vy Vy'].
  unfold fexp64 in Vx, Vy.
  unfold SF64mul, SFmul. cbn [xorb].
  pose proof (digits2_pos_bounds mx) as [_ Ux].
  pose proof (digits2_pos_bounds my) as [_ Uy].
  assert (Zdigits2 (Z.pos (mx * my)) <= Z.pos (digits2_pos mx) + Z.pos (digits2_pos my)) as Hd.
  { apply Zdigits2_le; [lia|]. rewrite Pos2Z.inj_mul, Z.pow_add_r by lia. nia. }
  apply binary_round_aux_below; lia.
Qed.

(** ** Division *)

Lemma SFdiv_finite (mx : positive) (ex : Z) (my : positive) (ey : Z) :
  exists (q e' : Z) (l : location),
    SF64div (S754_finite false mx ex) (S754_finite false my ey)
    = binary_round_aux prec emax false q e' l /\
    e' = Z.min (fexp64 (Z.pos (digits2_pos mx) + ex - (Z.pos (digits2_pos my) + ey))) (ex - ey) /\
    q = Z.pos mx * 2 ^ (ex - ey - e') / Z.pos my.
Proof.
  unfold SF64div, SFdiv, SFdiv_core_binary. cbn [xorb]. rewrite fexp64_eq.
  rewrite !Zdigits2_pos.
  set (e' := Z.min (fexp64 (Z.pos (digits2_pos mx) + ex - (Z.pos (digits2_pos my) + ey)))
               (ex - ey)).
  set (m' := match ex - ey - e' with
             | 0 => Z.pos mx
             | Z.pos _ => Z.shiftl (Z.pos mx) (ex - ey - e')
             | Z.neg _ => 0
             end).
  assert (m' = Z.pos mx * 2 ^ (ex - ey - e')) as Hm'.
  { unfold m'. destruct (ex - ey - e') as [|p|p] eqn:E.
    - simpl. lia.
    - rewrite Z.shiftl_mul_pow2 by lia. reflexivity.
    - unfold e' in E. lia. }
  destruct (Z.div_eucl m' (Z.pos my)) as [q r] eqn:E.
  exists q, e', (new_location (Z.pos my) r). split; [reflexivity|].
  split; [reflexivity|]. rewrite <- Hm'. unfold Z.div. now rewrite E.
Qed.

(** The position of the leading bit of the integer quotient. *)
Lemma quotient_digits (mx : positive) (ex : Z) (my : positive) (ey e' : Z) :
  let bx := Z.pos (digits2_pos mx) + ex in
  let cy := Z.pos (digits2_pos my) + ey in
  e' = Z.min (fexp64 (bx - cy)) (ex - ey) ->
  let q := Z.pos mx * 2 ^ (ex - ey - e') / Z.pos my in
  0 <= q /\
  Zdigits2 q + e' <= Z.max (bx - cy + 1) (-1074) /\
  (-1073 <= bx - cy -> 0 < q /\ bx - cy <= Zdigits2 q + e').
Proof.
  intros bx cy He' q.
  pose proof (digits2_pos_bounds mx) as [Lx Ux].
  pose proof (digits2_pos_bounds my) as [Ly Uy].
  set (dx := Z.pos (digits2_pos mx)) in *. set (dy := Z.pos (digits2_pos my)) in *.
  set (s := ex - ey - e') in *.
  assert (0 <= s) as Hs by (unfold s; lia).
  assert (0 < 2 ^ s) as Ps by (apply Z.pow_pos_nonneg; lia).
  assert (0 <= q) as Hq by (apply Z.div_pos; lia).
  split; [assumption|]. split.
  - set (t := dx + s - dy + 1).
    assert (Z.pos mx * 2 ^ s < 2 ^ (dx + s)) as Hnum.
    { rewrite Z.pow_add_r by lia. apply Z.mul_lt_mono_pos_r; lia. }
    destruct (Z_lt_le_dec t 0) as [Ht|Ht].
    + assert (q = 0) as ->.
      { apply Z.div_small. split; [lia|].
        eapply Z.lt_le_trans; [exact Hnum|]. eapply Z.le_trans; [|exact Ly].
        apply Z.pow_le_mono_r; unfold t in Ht; lia. }
      simpl Zdigits2. unfold fexp64 in He'. unfold bx, cy. lia.
    + assert (q < 2 ^ t) as Hqt.
      { apply Z.div_lt_upper_bound; [lia|].
        eapply Z.lt_le_trans; [exact Hnum|].
        replace (dx + s) with (dy - 1 + t) by (unfold t; lia).
        rewrite Z.pow_add_r by lia. apply Z.mul_le_mono_nonneg_r; [|lia].
        apply Z.pow_nonneg; lia. }
      pose proof (Zdigits2_le q t Ht ltac:(lia)) as Hd.
      unfold t, s, bx, cy in *. lia.
  - intros Hb. set (u := dx - 1 + s - dy).
    assert (0 <= u) as Hu by (unfold u, s, fexp64, bx, cy in *; lia).
    assert (2 ^ u <= q) as Hqu.
    { apply Z.div_le_lower_bound; [lia|].
      eapply Z.le_trans; [apply Z.mul_le_mono_nonneg_r; [apply Z.pow_nonneg; lia|]|].
      - apply Z.lt_le_incl. exact Uy.
      - rewrite <- Z.pow_add_r by lia. replace (dy + u) with (dx - 1 + s) by (unfold u; lia).
        rewrite Z.pow_add_r by lia. apply Z.mul_le_mono_nonneg_r; lia. }
    assert (0 < 2 ^ u) by (apply Z.pow_pos_nonneg; lia).
    split; [lia|].
    pose proof (Zdigits2_ge q (u + 1) ltac:(lia)) as Hd.
    replace (u + 1 - 1) with u in Hd by lia. specialize (Hd Hqu).
    unfold u, s, bx, cy in *. lia.
Qed.

Lemma SFdiv_not_negative (j k : Z) (x y : spec_float) :
  below j x -> above k y -> not_negative (SF64div x y).
Proof.
  intros Hx Hy.
  destruct x as [sx| | |[] mx ex], y as [sy| | |[] my ey];
    cbv beta iota delta [below above] in Hx, Hy; try contradiction.
  - destruct sx; exact I.
  - destruct (SFdiv_finite mx ex my ey) as (q & e' & l & -> & He' & ->).
    apply binary_round_aux_not_negative. apply Z.div_pos; [|lia].
    apply Z.mul_nonneg_nonneg; [lia|]. apply Z.pow_nonneg. lia.
Qed.

Lemma SFdiv_below (j k : Z) (x y : spec_float) :
  below j x -> above k y -> -1075 <= j - k <= 1022 ->
  below (j - k + 2) (SF64div x y).
Proof.
  intros Hx Hy Hk.
  destruct x as [sx| | |[] mx ex], y as [sy| | |[] my ey];
    cbv beta iota delta [below above] in Hx, Hy; try contradiction.
  - destruct sx; exact I.
  - destruct (SFdiv_finite mx ex my ey) as (q & e' & l & -> & He' & Hq).
    pose proof (quotient_digits mx ex my ey e' He') as (Q0 & Q1 & _).
    rewrite <- Hq in Q0, Q1.
    replace (j - k + 2) with (j - k + 1 + 1) by lia.
    apply binary_round_aux_below; [assumption|lia|lia|].
    unfold fexp64 in He'. lia.
Qed.

Lemma SFdiv_above (jl jh kl kh : Z) (x y : spec_float) :
  above jl x -> below jh x -> above kl y -> below kh y ->
  -1073 <= jl - kh -> jh - kl <= 1022 ->
  above (jl - kh) (SF64div x y).
Proof.
  intros Ax Bx Ay By Hlo Hhi.
  destruct x as [sx| | |[] mx ex], y as [sy| | |[] my ey];
    cbv beta iota delta [below above] in Ax, Bx, Ay, By; try contradiction.
  destruct (SFdiv_finite mx ex my ey) as (q & e' & l & -> & He' & Hq).
  pose proof (quotient_digits mx ex my ey e' He') as (_ & Q1 & Q2).
  rewrite <- Hq in Q1, Q2. destruct (Q2 ltac:(lia)) as [Q3 Q4].
  apply binary_round_aux_above; [assumption|lia|lia|lia|].
  unfold fexp64 in He'. lia.
Qed.

(** ** The same bounds on primitive doubles *)

Lemma double_below_zero (k : Z) : double_below k 0%float.
Proof. exact I. Qed.

Lemma double_zero_or_above_zero (k : Z) : double_zero_or_above k 0%float.
Proof. exact I. Qed.

Lemma double_below_mono (j k : Z) (x : float) :
  j <= k -> double_below j x -> double_below k x.
Proof. apply below_mono. Qed.

Lemma double_below_not_negative (k : Z) (x : float) :
  double_below k x -> double_not_negative x.
Proof. apply below_not_negative. Qed.

(** [0 <= x] holds of every non-negative double. *)
Lemma leb_zero_not_negative (x : float) :
  double_not_negative x -> PrimFloat.leb 0 x = true.
Proof.
  unfold double_not_negative. rewrite FloatAxioms.leb_spec.
  change (Prim2SF 0) with (S754_zero false).
  destruct (Prim2SF x) as [s|[]| |[] m e];
    cbv beta iota delta [below above zero_or_above not_negative SFeqb SFleb SFcompare];
    intros H; try contradiction; reflexivity.
Qed.

(** A double that does not compare equal to 0 is not a zero. *)
Lemma neq_zero_above (k : Z) (x : float) :
  PrimFloat.eqb x 0 = false -> double_zero_or_above k x -> double_above k x.
Proof.
  unfold double_zero_or_above, double_above. rewrite FloatAxioms.eqb_spec.
  change (Prim2SF 0) with (S754_zero false).
  destruct (Prim2SF x) as [s|[]| |[] m e];
    cbv beta iota delta [below above zero_or_above not_negative SFeqb SFleb SFcompare];
    intros H H'; try contradiction;
    try discriminate; assumption.
Qed.

Lemma neq_zero_positive (j : Z) (x : float) :
  PrimFloat.eqb x 0 = false -> double_below j x -> exists k, double_above k x.
Proof.
  unfold double_below, double_above. rewrite FloatAxioms.eqb_spec.
  change (Prim2SF 0) with (S754_zero false).
  destruct (Prim2SF x) as [s|[]| |[] m e];
    cbv beta iota delta [below above zero_or_above not_negative SFeqb SFleb SFcompare];
    intros H H'; try contradiction;
    try discriminate.
  exists (Z.pos (digits2_pos m) + e). lia.
Qed.

(** Conversion of a positive integer. *)
Lemma of_uint63_bounds (z lo hi : Z) :
  0 < z < 2 ^ 62 -> 2 ^ (lo - 1) <= z < 2 ^ hi -> 1 <= lo -> hi <= 62 ->
  double_above lo (PrimFloat.of_uint63 (Uint63.of_Z z)) /\
  double_below (hi + 1) (PrimFloat.of_uint63 (Uint63.of_Z z)).
Proof.
  intros Hz Hb Hlo Hhi. unfold double_above, double_below.
  rewrite of_uint63_spec, Uint63.of_Z_spec.
  rewrite Z.mod_small by (change wB with (2 ^ 63); change (2 ^ 62) with 4611686018427387904 in Hz;
                          change (2 ^ 63) with 9223372036854775808; lia).
  destruct z as [|p|p]; try lia. cbn [binary_normalize].
  assert (0 <= hi) as Hhi0.
  { destruct (Z_le_gt_dec 0 hi); [assumption|]. rewrite (Z.pow_neg_r 2 hi) in Hb by lia. lia. }
  pose proof (Zdigits2_ge (Z.pos p) lo ltac:(lia) ltac:(lia)) as D1.
  pose proof (Zdigits2_le (Z.pos p) hi ltac:(lia) ltac:(lia)) as D2.
  rewrite Zdigits2_pos in D1, D2.
  split.
  - apply binary_round_above; lia.
  - apply binary_round_below; lia.
Qed.

Lemma double_add_below (k : Z) (x y : float) :
  double_below k x -> double_below k y -> -1075 <= k <= 1022 ->
  double_below (k + 2) (x + y)%float.
Proof. unfold double_below. rewrite FloatAxioms.add_spec. apply SFadd_below. Qed.

Lemma double_add_zero_or_above (k K : Z) (x y : float) :
  double_zero_or_above k x -> double_zero_or_above k y ->
  double_below K x -> double_below K y -> -1073 <= k -> K <= 1022 ->
  double_zero_or_above k (x + y)%float.
Proof.
  unfold double_zero_or_above, double_below. rewrite FloatAxioms.add_spec. apply SFadd_zero_or_above.
Qed.

Lemma double_add_scaled_le (N C : Z) (x y : float) :
  double_below 1024 x -> double_below 1024 y ->
  0 < N < 2 ^ 52 -> 0 <= C <= 2045 ->
  double_scaled x + double_scaled y <= N * 2 ^ C ->
  double_below 1024 (x + y)%float /\ double_scaled (x + y)%float <= N * 2 ^ C.
Proof.
  unfold double_below, double_scaled. rewrite FloatAxioms.add_spec.
  apply SFadd_scaled_le; apply Prim2SF_valid.
Qed.

Lemma double_below_scaled (k : Z) (x : float) :
  double_below k x -> -1074 <= k -> double_scaled x < 2 ^ (k + 1074).
Proof. apply below_scaled. apply Prim2SF_valid. Qed.

Lemma double_scaled_below (k : Z) (x : float) :
  double_below 1024 x -> double_scaled x < 2 ^ (k + 1074) -> double_below k x.
Proof.
  unfold double_below, double_scaled. intros H Hs.
  apply scaled_below; [apply Prim2SF_valid|now apply below_not_negative in H| |assumption].
  intros E. rewrite E in H. exact H.
Qed.

Lemma double_mul_below (j k : Z) (x y : float) :
  double_below j x -> double_below k y -> -1074 <= j + k <= 1023 ->
  double_below (j + k + 1) (x * y)%float.
Proof. unfold double_below. rewrite FloatAxioms.mul_spec. apply SFmul_below; apply Prim2SF_valid. Qed.

Lemma double_div_below (j k : Z) (x y : float) :
  double_below j x -> double_above k y -> -1075 <= j - k <= 1022 ->
  double_below (j - k + 2) (x / y)%float.
Proof. unfold double_below, double_above. rewrite FloatAxioms.div_spec. apply SFdiv_below. Qed.

Lemma double_div_not_negative (j k : Z) (x y : float) :
  double_below j x -> double_above k y -> double_not_negative (x / y)%float.
Proof.
  unfold double_below, double_above, double_not_negative. rewrite FloatAxioms.div_spec.
  apply SFdiv_not_negative.
Qed.

(** A quotient of a value that is zero or at least [2 ^ (jl - 1)]. *)
Lemma double_div_zero_or_above (jl jh kl kh : Z) (x y : float) :
  double_zero_or_above jl x -> double_below jh x ->
  double_above kl y -> double_below kh y ->
  -1073 <= jl - kh -> jh - kl <= 1022 ->
  double_zero_or_above (jl - kh) (x / y)%float.
Proof.
  unfold double_zero_or_above, double_below, double_above. rewrite FloatAxioms.div_spec.
  intros Zx Bx Ay By Hlo Hhi.
  destruct (Prim2SF x) as [sx| | |[] mx ex] eqn:Ex;
    cbv beta iota delta [zero_or_above] in Zx; try contradiction.
  - destruct (Prim2SF y) as [sy| | |[] my ey];
      cbv beta iota delta [above] in Ay; try contradiction.
    destruct sx; exact I.
  - apply above_zero_or_above.
    apply (SFdiv_above jl jh kl kh); assumption.
Qed.

(** * No negative value comes out of the pipeline *)

Lemma double_of_Z_bounds (z lo hi : Z) :
  0 < z < 2 ^ 62 -> 2 ^ (lo - 1) <= z < 2 ^ hi -> 1 <= lo -> hi <= 62 ->
  double_above lo (double_of_Z z) /\ double_below (hi + 1) (double_of_Z z).
Proof.
  intros Hz Hb Hlo Hhi. unfold double_of_Z.
  destruct (Z.ltb_spec z 0) as [|_]; [lia|]. now apply of_uint63_bounds.
Qed.

(** Sums of values below [2 ^ k]: each addition costs at most two
    binades. *)
Lemma fold_add_below (f : nat -> float) (k : Z) (l : list nat) (t : Z) (acc : float) :
  (forall i, In i l -> double_below k (f i)) ->
  double_below (k + 2 * t) acc ->
  0 <= t -> -1075 <= k -> k + 2 * (t + Z.of_nat (length l)) <= 1024 ->
  double_below (k + 2 * (t + Z.of_nat (length l)))
    (fold_left (fun sum i => PrimFloat.add sum (f i)) l acc).
Proof.
  revert t acc. induction l as [|i l IH]; intros t acc Hf Hacc Ht Hk Hfin.
  - simpl. now rewrite Z.add_0_r.
  - cbn [fold_left length] in *. rewrite Nat2Z.inj_succ in Hfin |- *.
    replace (t + Z.succ (Z.of_nat (length l))) with (t + 1 + Z.of_nat (length l)) in * by lia.
    apply IH; [intros; apply Hf; now right| |lia|lia|lia].
    replace (k + 2 * (t + 1)) with (k + 2 * t + 2) by lia.
    apply double_add_below; [assumption| |lia].
    apply double_below_mono with k; [lia|]. apply Hf. now left.
Qed.

Lemma fold_add_zero_or_above (f : nat -> float) (k K : Z) (l : list nat) (t : Z) (acc : float) :
  (forall i, In i l -> double_below k (f i) /\ double_zero_or_above K (f i)) ->
  double_below (k + 2 * t) acc -> double_zero_or_above K acc ->
  0 <= t -> -1075 <= k -> -1073 <= K -> k + 2 * (t + Z.of_nat (length l)) <= 1024 ->
  double_zero_or_above K (fold_left (fun sum i => PrimFloat.add sum (f i)) l acc).
Proof.
  revert t acc. induction l as [|i l IH]; intros t acc Hf Hacc Hz Ht Hk HK Hfin.
  - exact Hz.
  - cbn [fold_left length] in *. rewrite Nat2Z.inj_succ in Hfin.
    destruct (Hf i ltac:(now left)) as [Hfi Hzi].
    apply (IH (t + 1)); [intros; apply Hf; now right| | |lia|lia|lia|lia].
    + replace (k + 2 * (t + 1)) with (k + 2 * t + 2) by lia.
      apply double_add_below; [assumption| |lia].
      apply double_below_mono with k; [lia|assumption].
    + apply (double_add_zero_or_above K (k + 2 * t)); [assumption..| |lia|lia].
      apply double_below_mono with k; [lia|assumption].
Qed.

(** The sum of [len] values, each at most [2 ^ C] once scaled, is at
    most [len * 2 ^ C]: the bound is itself a double, so rounding cannot
    pass it. *)
Lemma fold_add_scaled_le (C : Z) (l : list float) (t : Z) (acc : float) :
  Forall (fun x => double_below 1024 x /\ double_scaled x <= 2 ^ C) l ->
  double_below 1024 acc -> double_scaled acc <= t * 2 ^ C ->
  0 <= t -> t + Z.of_nat (length l) < 2 ^ 52 -> 0 <= C <= 2045 ->
  double_below 1024 (fold_left PrimFloat.add l acc) /\
  double_scaled (fold_left PrimFloat.add l acc) <= (t + Z.of_nat (length l)) * 2 ^ C.
Proof.
  revert t acc. induction l as [|x l IH]; intros t acc Hl Hacc Hs Ht Hlen HC.
  - simpl. rewrite Z.add_0_r. auto.
  - cbn [fold_left length] in *. rewrite Nat2Z.inj_succ in Hlen |- *.
    inversion Hl as [|x' l' [Hx Hsx] Hl']; subst.
    destruct (double_add_scaled_le (t + 1) C acc x Hacc Hx ltac:(lia) HC ltac:(nia))
      as [Hb Hsum].
    replace (t + Z.succ (Z.of_nat (length l))) with (t + 1 + Z.of_nat (length l)) by lia.
    apply IH; [assumption..|lia|lia|assumption].
Qed.

Section NonNegative.

Variable data : RawGrid.
Variables m n : nat.
Hypothesis Hint : forall i j, raw data i j < 2147483648.
Hypothesis Hcols : (50 <= n)%nat.
Hypothesis Hn32 : Z.of_nat n < 4294967296.

Lemma background_value_bounds (i j : nat) :
  double_below 32 (background_value data i j) /\
  double_zero_or_above 1 (background_value data i j).
Proof.
  unfold background_value, SIGNAL_THRESHOLD.
  destruct (Z.gtb_spec (raw data i j) 2048) as [Hgt|_].
  - pose proof (Hint i j) as Hi.
    destruct (double_of_Z_bounds (raw data i j - 2048) 1 31) as [Ha Hb];
      [change (2 ^ 62) with 4611686018427387904; lia
      |change (2 ^ (1 - 1)) with 1; change (2 ^ 31) with 2147483648; lia|lia|lia|].
    split; [exact Hb|]. unfold double_zero_or_above. now apply above_zero_or_above.
  - split; [apply double_below_zero|apply double_zero_or_above_zero].
Qed.

Lemma fifteen_bounds :
  double_above 4 (double_of_nat BETA_THORNE_ROWS_COUNT) /\
  double_below 5 (double_of_nat BETA_THORNE_ROWS_COUNT).
Proof. split; vm_compute; [discriminate|discriminate]. Qed.

Lemma fifty_bounds :
  double_above 6 (double_of_nat MEDIAN_DETECTOR_COUNT) /\
  double_below 7 (double_of_nat MEDIAN_DETECTOR_COUNT).
Proof. split; vm_compute; [discriminate|discriminate]. Qed.

Lemma width_bounds : double_above 6 (double_of_nat n) /\ double_below 33 (double_of_nat n).
Proof.
  unfold double_of_nat.
  apply (double_of_Z_bounds (Z.of_nat n) 6 32);
    [change (2 ^ 62) with 4611686018427387904; lia
    |change (2 ^ (6 - 1)) with 32; change (2 ^ 32) with 4294967296; lia|lia|lia].
Qed.

Lemma row_ref_bounds (j : nat) :
  double_below 60 (row_ref data m j) /\ double_zero_or_above (-4) (row_ref data m j).
Proof.
  unfold row_ref. destruct fifteen_bounds as [A15 B15].
  set (sum := fold_left _ _ _).
  assert (double_below 62 sum) as Hb.
  { pose proof (fold_add_below (fun i => background_value data i j) 32
                  (seq (m - BETA_THORNE_ROWS_COUNT) BETA_THORNE_ROWS_COUNT) 0 0%float) as H.
    rewrite length_seq in H. unfold BETA_THORNE_ROWS_COUNT in H at 3.
    apply H; [|apply double_below_zero|lia..].
    intros i _. apply background_value_bounds. }
  assert (double_zero_or_above 1 sum) as Hz.
  { apply (fold_add_zero_or_above (fun i => background_value data i j) 32 1 _ 0);
      [|apply double_below_zero|apply double_zero_or_above_zero|lia..|].
    - intros i _. apply background_value_bounds.
    - rewrite length_seq. unfold BETA_THORNE_ROWS_COUNT. lia. }
  split.
  - apply (double_div_below 62 4); [assumption..|lia].
  - apply (double_div_zero_or_above 1 62 4 5); [assumption..|lia|lia].
Qed.

Lemma overall_row_ref_bound : double_below 88 (overall_row_ref data m n).
Proof.
  unfold overall_row_ref, overall_median_of, accumulate.
  destruct width_bounds as [An Bn].
  destruct (fold_add_scaled_le 1134 (map (row_ref data m) (seq 0 n)) 0 0%float)
    as [Hb Hs]; try lia.
  - apply Forall_forall. intros x Hx. apply list_elem_of_In, in_map_iff in Hx as (j & <- & _).
    destruct (row_ref_bounds j) as [Hj _]. split.
    + apply double_below_mono with 60; [lia|assumption].
    + apply Z.lt_le_incl. apply (double_below_scaled 60); [assumption|lia].
  - apply double_below_zero.
  - vm_compute. discriminate.
  - rewrite length_map, length_seq. change (2 ^ 52) with 4503599627370496. lia.
  - rewrite length_map, length_seq, Z.add_0_l in Hs.
    apply (double_div_below 92 6); [|assumption|lia].
    apply double_scaled_below; [assumption|].
    eapply Z.le_lt_trans; [exact Hs|].
    change (92 + 1074) with (32 + 1134). rewrite Z.pow_add_r by lia.
    apply Z.mul_lt_mono_pos_r; [apply Z.pow_pos_nonneg; lia|].
    change (2 ^ 32) with 4294967296. lia.
Qed.

Lemma scaled_value_bound (i j : nat) : double_below 127 (scaled_value data m n i j).
Proof.
  unfold scaled_value, scaling_of.
  destruct (background_value_bounds i j) as [Hb _].
  destruct (row_ref_bounds j) as [Rb Rz].
  destruct (in_row_strip m i).
  - apply double_below_mono with 32; [lia|assumption].
  - unfold double_neq. destruct (PrimFloat.eqb (row_ref data m j) 0) eqn:E; simpl.
    + apply double_below_zero.
    + apply (double_mul_below 32 94); [assumption| |lia].
      apply (double_div_below 88 (-4)); [apply overall_row_ref_bound| |lia].
      now apply neq_zero_above.
Qed.

Lemma col_ref_bound (i : nat) : double_below 223 (col_ref data m n i).
Proof.
  unfold col_ref. destruct fifty_bounds as [A50 _].
  apply (double_div_below 227 6); [|assumption|lia].
  destruct (in_row_strip m i).
  - assert (forall l acc, fold_left (fun (sum : float) (_ : nat) => sum) l acc = acc) as Hconst
      by (induction l; auto).
    rewrite Hconst. apply double_below_zero.
  - pose proof (fold_add_below (fun j => scaled_value data m n i j) 127
                  (seq (n - MEDIAN_DETECTOR_COUNT) MEDIAN_DETECTOR_COUNT) 0 0%float) as H.
    rewrite length_seq in H. unfold MEDIAN_DETECTOR_COUNT in H at 3.
    apply H; [|apply double_below_zero|lia..].
    intros j _. apply scaled_value_bound.
Qed.

Lemma clamp_not_negative (v : float) : double_not_negative v -> double_not_negative (clamp v).
Proof. unfold clamp. destruct (double_gt v 1); [intros _; exact I|auto]. Qed.

Lemma final_cell_not_negative (i j : nat) :
  (in_row_strip m i || in_column_strip n j = false ->
   PrimFloat.eqb (col_ref data m n i) 0 = false) ->
  double_not_negative (value (final_cell data m n i j)).
Proof.
  intros Hne. unfold final_cell.
  destruct (in_row_strip m i || in_column_strip n j); simpl; apply clamp_not_negative.
  - apply double_below_not_negative with 127. apply scaled_value_bound.
  - destruct (neq_zero_positive 223 _ (Hne eq_refl) (col_ref_bound i)) as [k Hk].
    apply (double_div_not_negative 127 k); [apply scaled_value_bound|assumption].
Qed.

End NonNegative.

(** Outside the grid [raw] reads its default. *)
Lemma raw_in_range_bound (data : RawGrid) (m n : nat) (hi : Z) :
  shape data m n -> 0 < hi ->
  (forall i j, (i < m)%nat -> (j < n)%nat -> raw data i j < hi) ->
  forall i j, raw data i j < hi.
Proof.
  intros [Hm Hn] Hhi H i j. unfold raw in *.
  destruct (data !! i) as [row|] eqn:Hrow; simpl; [|assumption].
  destruct (row !! j) as [z|] eqn:Hz; simpl; [|assumption].
  assert (i < m)%nat as Hi by (apply lookup_lt_Some in Hrow; lia).
  assert (j < n)%nat as Hj.
  { rewrite Forall_lookup in Hn. rewrite <- (Hn _ _ Hrow). now apply lookup_lt_Some in Hz. }
  specialize (H i j Hi Hj). rewrite Hrow in H. simpl in H. rewrite Hz in H. exact H.
Qed.

Lemma raw_constant_grid (m n : nat) (z : Z) (i j : nat) :
  (i < m)%nat -> (j < n)%nat -> raw (constant_grid m n z) i j = z.
Proof.
  intros Hi Hj. unfold raw, constant_grid.
  rewrite lookup_replicate_2 by assumption. simpl.
  now rewrite lookup_replicate_2 by assumption.
Qed.

(** C10: on a grid of 32-bit readings with at least 15 rows and 50
    columns, if [median_detector[i]] does not compare equal to 0 for every
    row [i] that has cells outside both strips (the rows whose cells are
    divided in stage 3), then every value of the returned grid satisfies
    [0 <= value]; in particular none is NaN. *)
Theorem no_negative_value (data : RawGrid) (m n : nat) :
  raw_grid data m n -> (15 <= m)%nat -> (50 <= n)%nat ->
  (forall i j, (i < m)%nat -> (j < n)%nat -> -2147483648 <= raw data i j < 2147483648) ->
  (forall i c, (i < m - 15)%nat -> (50 < n)%nat ->
     (after_column_reference data m n).2 !! i = Some c -> PrimFloat.eqb c 0 = false) ->
  exists g, process_data data = Returns g /\
    forall i j, (i < m)%nat -> (j < n)%nat -> PrimFloat.leb 0 (value (cell g i j)) = true.
Proof.
  intros Hraw Hm Hn Hint Hdiv.
  destruct (process_data_cells data m n Hraw Hm Hn) as (g & Hg & _ & Hc).
  destruct (after_column_reference_spec data m n Hm Hn) as (_ & _ & Hmed).
  exists g. split; [assumption|]. intros i j Hi Hj. rewrite Hc by assumption.
  apply leb_zero_not_negative. destruct Hraw as (Hs & _ & Hn32).
  apply final_cell_not_negative; [|assumption..|].
  - apply (raw_in_range_bound data m n); [assumption|lia|]. intros. now apply Hint.
  - intros Hout. apply orb_false_elim in Hout as [Hr Hcstrip].
    apply in_row_strip_false in Hr. apply in_column_strip_false in Hcstrip.
    apply (Hdiv i); [assumption|lia|].
    rewrite Hmed, list_lookup_fmap, lookup_seq_lt by assumption. reflexivity.
Qed.

Lemma raw_Forall (P : Z -> Prop) (data : RawGrid) (i j : nat) :
  P 0 -> Forall (Forall P) data -> P (raw data i j).
Proof.
  intros H0 Hall. unfold raw.
  destruct (data !! i) as [row|] eqn:Hrow; simpl; [|assumption].
  destruct (row !! j) as [z|] eqn:Hz; simpl; [|assumption].
  rewrite Forall_lookup in Hall. specialize (Hall _ _ Hrow).
  rewrite Forall_lookup in Hall. exact (Hall _ _ Hz).
Qed.

Lemma half_intensity_readings (i j : nat) :
  -2147483648 <= raw half_intensity i j < 2147483648.
Proof.
  apply (raw_Forall (fun z => -2147483648 <= z < 2147483648)); [lia|].
  unfold half_intensity. apply Forall_cons. split.
  - apply Forall_cons. split; [lia|]. apply Forall_replicate. lia.
  - apply Forall_replicate. apply Forall_replicate. lia.
Qed.

Lemma no_negative_value_witness :
  raw_grid half_intensity 16 51 /\ (15 <= 16)%nat /\ (50 <= 51)%nat /\
  (after_column_reference half_intensity 16 51).2 !! 0%nat = Some 2%float /\
  exists g, process_data half_intensity = Returns g /\
    forall i j, (i < 16)%nat -> (j < 51)%nat -> PrimFloat.leb 0 (value (cell g i j)) = true.
Proof.
  split; [apply raw_grid_half_intensity|]. split; [lia|]. split; [lia|].
  split; [vm_compute; reflexivity|].
  apply (no_negative_value half_intensity 16 51);
    [apply raw_grid_half_intensity|lia|lia| |].
  - intros i j _ _. apply half_intensity_readings.
  - intros i c Hi _ Hc. assert (i = 0%nat) as -> by lia.
    vm_compute in Hc. injection Hc as <-. reflexivity.
Defined.

(** * The thickness view rounds to the nearest integer *)

(** The quotient and the bit that [std_round] looks at give the integer
    part of [m / 2 ^ k + 1 / 2]. *)
Lemma round_half_up (m k : Z) :
  0 <= m -> 0 < k ->
  (if Z.testbit m (k - 1) then Z.shiftr m k + 1 else Z.shiftr m k)
  = (2 * m + 2 ^ k) / (2 * 2 ^ k).
Proof.
  intros Hm Hk. rewrite Z.shiftr_div_pow2 by lia.
  set (p := 2 ^ (k - 1)).
  assert (0 < p) as Hp by (apply Z.pow_pos_nonneg; lia).
  assert (2 ^ k = 2 * p) as ->.
  { unfold p. rewrite <- Z.pow_succ_r by lia. f_equal. lia. }
  pose proof (Z.div_mod m p ltac:(lia)) as Em.
  pose proof (Z.mod_pos_bound m p Hp) as Hr.
  pose proof (Z.div_mod (m / p) 2 ltac:(lia)) as Ea.
  pose proof (Z.mod_pos_bound (m / p) 2 ltac:(lia)) as Hb.
  assert (m / (2 * p) = m / p / 2) as Eq.
  { rewrite Z.mul_comm. symmetry. apply Z.div_div; lia. }
  rewrite Eq.
  set (a := m / p) in *. set (r := m mod p) in *.
  set (q := a / 2) in *. set (b := a mod 2) in *.
  destruct (Z.testbit m (k - 1)) eqn:Hbit.
  - apply Z.testbit_true in Hbit; [|lia]. fold p a b in Hbit.
    apply (Z.div_unique _ _ _ (2 * r)); nia.
  - assert (b = 0) as Hb0.
    { destruct (Z.eq_dec b 1) as [E|]; [|lia].
      assert (Z.testbit m (k - 1) = true) as H by (apply Z.testbit_true; [lia|exact E]).
      congruence. }
    apply (Z.div_unique _ _ _ (2 * p + 2 * r)); nia.
Qed.

(** An integer below [2 ^ 53] is a double. *)
Lemma of_uint63_exact (r : Z) :
  0 < r < 2 ^ 53 ->
  exists m3 e3,
    Prim2SF (PrimFloat.of_uint63 (Uint63.of_Z r)) = S754_finite false m3 e3 /\
    Z.shiftl (Z.pos m3) e3 = r.
Proof.
  intros Hr. rewrite of_uint63_spec, Uint63.of_Z_spec.
  rewrite Z.mod_small
    by (change wB with (2 ^ 63); change (2 ^ 53) with 9007199254740992 in Hr;
        change (2 ^ 63) with 9223372036854775808; lia).
  destruct r as [|p|p]; try lia. cbn [binary_normalize].
  destruct (binary_round_aligned p 0) as (m' & e' & -> & He' & Hm' & Hd).
  pose proof (Zdigits2_le (Z.pos p) 53 ltac:(lia) ltac:(lia)) as Hd53.
  rewrite Zdigits2_pos in Hd53.
  pose proof (Pos2Z.is_pos (digits2_pos p)) as Hdpos.
  destruct (binary_round_aux_spec false (Z.pos m') e' loc_Exact ltac:(lia))
    as (m2 & Hm2 & Hexact & Hres).
  rewrite Hd, Z.add_0_r in *.
  set (d := Z.pos (digits2_pos p)) in *.
  assert (e' = fexp64 d) as Ee by (unfold fexp64 in *; lia).
  assert (e' <= 0) as He0 by (unfold fexp64 in *; lia).
  replace (Z.max (fexp64 d) e') with e' in * by lia.
  replace (e' - e') with 0 in * by lia.
  change (2 ^ 0) with 1 in *. rewrite Z.div_1_r in *.
  rewrite (Hexact eq_refl (Z.mod_1_r _)) in *. clear Hm2 Hexact.
  destruct Hres as [[Hz _]|(m3 & e3 & He3 & Hm3 & ->)]; [lia|].
  assert (e' <= 970) by lia.
  destruct (Z.leb_spec e3 971) as [_|]; [|lia].
  exists m3, e3. split; [reflexivity|].
  assert (0 < 2 ^ (e3 - e')) as Hs by (apply Z.pow_pos_nonneg; lia).
  rewrite Hm' in Hm3. replace (0 - e') with (- e') in Hm3 by lia.
  destruct (Z_le_gt_dec e3 0) as [Hle|Hgt].
  - rewrite <- (Z.opp_involutive e3) at 1. rewrite Z.shiftl_opp_r.
    rewrite Z.shiftr_div_pow2 by lia.
    assert (0 < 2 ^ (- e3)) as Hq by (apply Z.pow_pos_nonneg; lia).
    assert (2 ^ (- e') = 2 ^ (- e3) * 2 ^ (e3 - e')) as Hsplit.
    { rewrite <- Z.pow_add_r by lia. f_equal. lia. }
    rewrite Hsplit, Z.mul_assoc in Hm3.
    apply Z.mul_cancel_r in Hm3; [|lia]. rewrite Hm3. apply Z.div_mul. lia.
  - assert (e3 = 1 /\ e' = 0) as [-> ->] by lia.
    change (2 ^ (1 - 0)) with 2 in Hm3. change (2 ^ (- 0)) with 1 in Hm3.
    rewrite Z.shiftl_mul_pow2 by lia. change (2 ^ 1) with 2. lia.
Qed.

(** [std::round] followed by the conversion to an integer gives the
    nearest integer, halfway cases away from zero. *)
Lemma truncate_std_round (x : float) : truncate (std_round x) = nearest_integer x.
Proof.
  unfold nearest_integer, std_round. pose proof (Prim2SF_valid x) as Hv.
  destruct (Prim2SF x) as [s|s| |s m e] eqn:Hx.
  - unfold truncate. now rewrite Hx.
  - unfold truncate. now rewrite Hx.
  - unfold truncate. now rewrite Hx.
  - apply valid_finite in Hv as [He _]. unfold fexp64 in He.
    destruct (Z.leb_spec 0 e) as [Hpos|Hneg].
    + unfold truncate. rewrite Hx. now rewrite Z.shiftl_mul_pow2.
    + pose proof (digits2_pos_bounds m) as [_ Um].
      pose proof (Pos2Z.is_pos (digits2_pos m)) as Hd.
      assert (Z.pos m < 2 ^ 53) as Hm.
      { eapply Z.lt_le_trans; [exact Um|]. apply Z.pow_le_mono_r; lia. }
      rewrite (round_half_up (Z.pos m) (- e)) by lia.
      set (n := (2 * Z.pos m + 2 ^ (- e)) / (2 * 2 ^ (- e))).
      assert (0 < 2 ^ (- e)) as Hp by (apply Z.pow_pos_nonneg; lia).
      assert (2 <= 2 ^ (- e)) as Hp2.
      { change 2 with (2 ^ 1) at 1. apply Z.pow_le_mono_r; lia. }
      assert (0 <= n < 2 ^ 53) as Hn.
      { unfold n. split; [apply Z.div_pos; lia|].
        apply Z.div_lt_upper_bound; [lia|]. change (2 ^ 53) with 9007199254740992 in *. nia. }
      destruct (Z.eqb_spec n 0) as [E|E].
      * rewrite E. destruct s; reflexivity.
      * destruct (of_uint63_exact n ltac:(lia)) as (m3 & e3 & Hf & Hs).
        destruct s; unfold truncate.
        -- rewrite FloatAxioms.opp_spec, Hf. cbn [SFopp negb]. now rewrite Hs.
        -- rewrite Hf. now rewrite Hs.
Qed.

(** The byte computed by the thickness loop is the specification's
    [round(t * 25)] clamped to 0..255, whenever the rounded number fits
    the [int] it is converted to. *)
Lemma thickness_byte_spec (log : float -> float) (c : PixelData) :
  thickness_byte log c = spec_thickness log (value c).
Proof.
  unfold thickness_byte, spec_thickness, double_gt, uchar_of_int, int_of_double.
  cbv zeta. rewrite truncate_std_round.
  destruct (nearest_integer _) as [iv|]; cbn [mbind option_bind]; [|reflexivity].
  destruct ((-2147483648 <=? iv) && (iv <=? 2147483647)); cbn [mbind option_bind];
    [|reflexivity].
  f_equal. destruct (Z.ltb_spec iv 0).
  - destruct (Z.gtb_spec 0 255); [lia|]. rewrite Z.mod_small by lia. lia.
  - destruct (Z.gtb_spec iv 255).
    + rewrite Z.mod_small by lia. lia.
    + rewrite Z.mod_small by lia. lia.
Qed.


Example nearest_integer_examples :
  nearest_integer 2.625 = Some 3 /\ nearest_integer 2.5 = Some 3 /\
  nearest_integer 12.5 = Some 13 /\ nearest_integer 2.375 = Some 2 /\
  nearest_integer (-2.5) = Some (-3) /\ nearest_integer 0.25 = Some 0 /\
  nearest_integer 250 = Some 250 /\ nearest_integer infinity = None /\
  nearest_integer nan = None.
Proof. evaluate. Qed.

(** C8: in the buffer of the thickness view the three channels of every
    pixel hold [round(t * 25)] clamped to 0..255, where [t] is [-ln v]
    when the value [v] of the cell is positive and 10 otherwise, and
    [round] is the nearest integer of the exact product, halfway cases
    away from zero ([spec_thickness] is defined from [nearest_integer],
    not from the code's rounding); the flag of the cell plays no part; a
    value of 0 gives the byte 250; for a logarithm with [ln 1 = 0], a
    value of 1 gives the byte 0; and a cell of positive value whose
    logarithm is -0.5 gives the byte 13, 12.5 being rounded up. *)
Theorem thickness_view_pixels (log : float -> float) (data : Grid) (m n : nat)
    (image : list Z) :
  image_grid data m n ->
  calculate_and_save_thickness log data = Some image ->
  forall i j, (i < m)%nat -> (j < n)%nat ->
    exists b,
      spec_thickness log (value (cell data i j)) = Some b /\
      0 <= b <= 255 /\
      image !! (3 * (i * n + j) + 2)%nat = Some b /\
      image !! (3 * (i * n + j) + 1)%nat = Some b /\
      image !! (3 * (i * n + j))%nat = Some b /\
      (value (cell data i j) = 0%float -> b = 250) /\
      (log 1%float = 0%float -> value (cell data i j) = 1%float -> b = 0) /\
      (double_gt (value (cell data i j)) 0 = true ->
       log (value (cell data i j)) = (-0.5)%float -> b = 13).
Proof.
  intros Hg Himage i j Hi Hj.
  rewrite (calculate_and_save_thickness_paint log data m n Hg) in Himage.
  destruct Hg as (_ & _ & _ & Hfits).
  destruct (paint_spec (thickness_color log) data m n Hfits _ image
              (length_replicate _ _) Himage) as [_ Hall].
  destruct (Hall i j Hi Hj) as (b & g & r & Hc & Hb & Hgr & Hr).
  unfold thickness_color in Hc. rewrite thickness_byte_spec in Hc.
  destruct (spec_thickness log (value (cell data i j))) as [b'|] eqn:E;
    simpl in Hc; [|discriminate].
  injection Hc as <- <- <-. exists b'. split; [reflexivity|].
  split; [|split; [assumption|split; [assumption|split; [assumption|split; [|split]]]]].
  - unfold spec_thickness in E.
    destruct (nearest_integer _) as [iv|]; simpl in E; [|discriminate].
    destruct (_ && _); [|discriminate]. injection E as <-. lia.
  - intros Hv. rewrite Hv in E. vm_compute in E. congruence.
  - intros Hlog Hv. rewrite Hv in E. unfold spec_thickness in E.
    change (PrimFloat.ltb 0 1) with true in E. cbv iota in E. rewrite Hlog in E.
    vm_compute in E. congruence.
  - intros Hv Hlog. unfold spec_thickness in E. unfold double_gt in Hv.
    rewrite Hv, Hlog in E. vm_compute in E. congruence.
Qed.

Lemma thickness_view_pixels_witness :
  image_grid (single_cell 0.25) 1 1 /\
  calculate_and_save_thickness log_table (single_cell 0.25) = Some [35; 35; 35] /\
  (0 < 1)%nat /\
  exists b,
    spec_thickness log_table (value (cell (single_cell 0.25) 0 0)) = Some b /\
    0 <= b <= 255 /\
    [35; 35; 35] !! (3 * (0 * 1 + 0) + 2)%nat = Some b /\
    [35; 35; 35] !! (3 * (0 * 1 + 0) + 1)%nat = Some b /\
    [35; 35; 35] !! (3 * (0 * 1 + 0))%nat = Some b /\
    (value (cell (single_cell 0.25) 0 0) = 0%float -> b = 250) /\
    (log_table 1%float = 0%float -> value (cell (single_cell 0.25) 0 0) = 1%float -> b = 0) /\
    (double_gt (value (cell (single_cell 0.25) 0 0)) 0 = true ->
     log_table (value (cell (single_cell 0.25) 0 0)) = (-0.5)%float -> b = 13).
Proof.
  split; [apply image_grid_single_cell|]. split; [vm_compute; reflexivity|].
  split; [lia|].
  apply (thickness_view_pixels log_table (single_cell 0.25) 1 1 [35; 35; 35]);
    [apply image_grid_single_cell|vm_compute; reflexivity|lia|lia].
Defined.

(** * When the encoders are defined *)

(** The fill succeeds only if every cell has a colour. *)
Lemma paint_defined_iff (color : PixelData -> option (Z * Z * Z)) (data : Grid) (m n : nat) :
  Z.of_nat (3 * (m * n)) < 2147483648 ->
  is_Some (paint color data m n (replicate (3 * (m * n)) 0)) <->
  forall i j, (i < m)%nat -> (j < n)%nat -> is_Some (color (cell data i j)).
Proof.
  intros Hfits. split.
  - intros [image Himage] i j Hi Hj.
    destruct (paint_spec color data m n Hfits _ image (length_replicate _ _) Himage)
      as [_ Hall].
    destruct (Hall i j Hi Hj) as (b & g & r & Hc & _). eauto.
  - intros Hcolor. apply paint_total; [assumption|apply length_replicate|assumption].
Qed.

(** X3: the normalized view is defined exactly when, for every unflagged
    cell, [value * 255] is finite and its integer part lies in 0..255. A
    NaN, an infinity, or a product of -1 or less or of 256 or more in a
    single unflagged cell makes the conversion to [unsigned char], and
    with it the whole call, undefined; the values of flagged cells do not
    matter. *)
Theorem normalized_view_defined_iff (data : Grid) (m n : nat) :
  image_grid data m n ->
  is_Some (create_and_save_image data) <->
  forall i j, (i < m)%nat -> (j < n)%nat -> is_calibrated (cell data i j) = false ->
    exists c, truncate (PrimFloat.mul (value (cell data i j)) 255) = Some c /\ 0 <= c <= 255.
Proof.
  intros Hg. rewrite (create_and_save_image_paint data m n Hg).
  destruct Hg as (_ & _ & _ & Hfits). rewrite (paint_defined_iff _ _ _ _ Hfits).
  split; intros H i j Hi Hj.
  - intros Hflag. specialize (H i j Hi Hj). unfold normalized_color in H.
    rewrite Hflag in H.
    destruct (uchar_of_double _) as [c|] eqn:E; [|destruct H; discriminate].
    apply uchar_of_double_truncates in E. eauto.
  - unfold normalized_color. destruct (is_calibrated (cell data i j)) eqn:Hflag; [eauto|].
    destruct (H i j Hi Hj Hflag) as (c & Hc & Hr).
    rewrite (proj2 (uchar_of_double_truncates _ c) (conj Hc Hr)). cbn. eauto.
Qed.

Lemma normalized_view_defined_iff_witness :
  is_Some (create_and_save_image (single_cell 0.5)) <->
  forall i j, (i < 1)%nat -> (j < 1)%nat -> is_calibrated (cell (single_cell 0.5) i j) = false ->
    exists c, truncate (PrimFloat.mul (value (cell (single_cell 0.5) i j)) 255) = Some c /\
      0 <= c <= 255.
Proof.
  apply (normalized_view_defined_iff (single_cell 0.5) 1 1). apply image_grid_single_cell.
Defined.

(** X4: the thickness view is defined exactly when, for every cell,
    flagged or not, [round(t * 25)] is finite and fits an [int], [t]
    being [-log(value)] for a positive value and 10 otherwise. *)
Theorem thickness_view_defined_iff (log : float -> float) (data : Grid) (m n : nat) :
  image_grid data m n ->
  is_Some (calculate_and_save_thickness log data) <->
  forall i j, (i < m)%nat -> (j < n)%nat ->
    let v := value (cell data i j) in
    let t := if double_gt v 0 then PrimFloat.opp (log v) else 10%float in
    exists iv, truncate (std_round (PrimFloat.mul t 25)) = Some iv /\
      -2147483648 <= iv <= 2147483647.
Proof.
  intros Hg. rewrite (calculate_and_save_thickness_paint log data m n Hg).
  destruct Hg as (_ & _ & _ & Hfits). rewrite (paint_defined_iff _ _ _ _ Hfits).
  split; intros H i j Hi Hj.
  - specialize (H i j Hi Hj). cbv zeta. unfold thickness_color, thickness_byte in H.
    cbv zeta in H. unfold int_of_double in H.
    destruct (truncate _) as [iv|]; [|destruct H; discriminate].
    cbn [mbind option_bind] in H. exists iv. split; [reflexivity|].
    destruct (Z.leb_spec (-2147483648) iv), (Z.leb_spec iv 2147483647);
      cbn in H; try (destruct H; discriminate). lia.
  - destruct (H i j Hi Hj) as (iv & Hiv & Hr). cbv zeta in Hiv.
    unfold thickness_color, thickness_byte. cbv zeta. unfold int_of_double. rewrite Hiv.
    cbn [mbind option_bind].
    destruct (Z.leb_spec (-2147483648) iv), (Z.leb_spec iv 2147483647); try lia.
    cbn. eauto.
Qed.

Lemma thickness_view_defined_iff_witness :
  is_Some (calculate_and_save_thickness (fun _ => 0%float) (single_cell 0.5)) <->
  forall i j, (i < 1)%nat -> (j < 1)%nat ->
    let v := value (cell (single_cell 0.5) i j) in
    let t := if double_gt v 0 then PrimFloat.opp ((fun _ => 0%float) v) else 10%float in
    exists iv, truncate (std_round (PrimFloat.mul t 25)) = Some iv /\
      -2147483648 <= iv <= 2147483647.
Proof.
  apply (thickness_view_defined_iff (fun _ => 0%float) (single_cell 0.5) 1 1).
  apply image_grid_single_cell.
Defined.

(** * The pipeline feeds the normalized view *)

(** A double that is not above 1 is below 1 or is 1. *)
Lemma not_above_one (x : float) (m : positive) (e : Z) :
  Prim2SF x = S754_finite false m e -> double_gt x 1 = false ->
  Z.pos (digits2_pos m) + e <= 0 \/ (m = 4503599627370496%positive /\ e = -52).
Proof.
  intros Hx Hgt. pose proof (Prim2SF_valid x) as Hv. rewrite Hx in Hv.
  apply valid_finite in Hv as [He _]. unfold fexp64 in He.
  unfold double_gt in Hgt. rewrite FloatAxioms.ltb_spec, Hx in Hgt.
  change (Prim2SF 1) with (S754_finite false 4503599627370496 (-52)) in Hgt.
  cbv beta iota delta [SFltb SFcompare] in Hgt.
  destruct (Z.compare_spec (-52) e) as [E|E|E]; [|discriminate|left; lia].
  right. subst e.
  assert (Z.pos (digits2_pos m) = 53) as Hd by lia.
  pose proof (digits2_pos_bounds m) as [Dlo _]. rewrite Hd in Dlo.
  change (2 ^ (53 - 1)) with 4503599627370496 in Dlo.
  change (PosDef.Pos.compare_cont Eq 4503599627370496 m)
    with (Pos.compare 4503599627370496 m) in Hgt.
  destruct (Pos.compare_spec 4503599627370496 m) as [E|E|E]; [|discriminate|].
  - split; [symmetry; exact E|reflexivity].
  - exfalso. apply Pos2Z.pos_lt_pos in E. lia.
Qed.

(** The product with 255 of a positive double below 1 rounds to 255 at
    most: 255 is a double, and a multiple of the unit in the last place
    of the product. *)
Lemma SFmul_255_below_one (m : positive) (e : Z) :
  Z.pos (digits2_pos m) + e <= 0 ->
  SF64mul (S754_finite false m e) (S754_finite false 8972014882652160 (-45))
  = S754_zero false \/
  exists m3 e3, e3 <= 0 /\ Z.pos m3 <= 255 * 2 ^ (- e3) /\
    SF64mul (S754_finite false m e) (S754_finite false 8972014882652160 (-45))
    = S754_finite false m3 e3.
Proof.
  intros Hb. unfold SF64mul, SFmul. cbn [xorb].
  pose proof (digits2_pos_bounds m) as [_ Um].
  pose proof (Pos2Z.is_pos (digits2_pos m)) as Hd.
  set (M := Z.pos (m * 8972014882652160)).
  assert (HM : M = Z.pos m * (255 * 2 ^ 45)) by (unfold M; rewrite Pos2Z.inj_mul; reflexivity).
  assert (0 < 2 ^ 45) as H45 by (apply Z.pow_pos_nonneg; lia).
  assert (0 < 2 ^ (- e)) as Hpe by (apply Z.pow_pos_nonneg; lia).
  assert (Z.pos m < 2 ^ (- e)) as Hm.
  { eapply Z.lt_le_trans; [exact Um|]. apply Z.pow_le_mono_r; lia. }
  assert (Zdigits2 M + (e + -45) <= 8) as HD.
  { assert (Zdigits2 M <= - e + 53); [|lia].
    apply Zdigits2_le; [lia|]. split; [unfold M; lia|].
    rewrite HM. replace (- e + 53) with (- e + 8 + 45) by lia.
    rewrite !Z.pow_add_r by lia. change (2 ^ 8) with 256. nia. }
  destruct (binary_round_aux_spec false M (e + -45) loc_Exact ltac:(unfold M; lia))
    as (m2 & Hm2 & _ & Hres).
  set (e1 := Z.max (fexp64 (Zdigits2 M + (e + -45))) (e + -45)) in *.
  assert (e + -45 <= e1 <= -1) as He1 by (unfold e1, fexp64; lia).
  assert (0 < 2 ^ (e1 - (e + -45))) as Hk by (apply Z.pow_pos_nonneg; lia).
  assert (0 < 2 ^ (- e1)) as Hq by (apply Z.pow_pos_nonneg; lia).
  assert (M < 255 * 2 ^ (- e1) * 2 ^ (e1 - (e + -45))) as HMlt.
  { rewrite <- Z.mul_assoc, <- Z.pow_add_r by lia.
    replace (- e1 + (e1 - (e + -45))) with (- e + 45) by lia.
    rewrite Z.pow_add_r by lia. rewrite HM. nia. }
  assert (M / 2 ^ (e1 - (e + -45)) < 255 * 2 ^ (- e1)) as Hm1.
  { apply Z.div_lt_upper_bound; [assumption|]. lia. }
  destruct Hres as [[_ ->]|(m3 & e3 & He3 & Hm3 & ->)]; [now left|].
  right. exists m3, e3.
  assert (0 < 2 ^ (e3 - e1)) as Hs by (apply Z.pow_pos_nonneg; lia).
  assert (e3 <= 0) as He3' by lia.
  destruct (Z.leb_spec e3 971) as [_|]; [|lia].
  split; [assumption|]. split; [|reflexivity].
  assert (0 < 2 ^ (- e3)) as Hq3 by (apply Z.pow_pos_nonneg; lia).
  assert (2 ^ (- e1) = 2 ^ (- e3) * 2 ^ (e3 - e1)) as Hsplit.
  { rewrite <- Z.pow_add_r by lia. f_equal. lia. }
  assert (Z.pos m3 * 2 ^ (e3 - e1) <= 255 * 2 ^ (- e3) * 2 ^ (e3 - e1)) as Hle.
  { rewrite Hm3, <- Z.mul_assoc, <- Hsplit. lia. }
  apply Z.mul_le_mono_pos_r in Hle; assumption.
Qed.

Lemma shiftl_le_255 (m : positive) (e : Z) :
  e <= 0 -> Z.pos m <= 255 * 2 ^ (- e) -> 0 <= Z.shiftl (Z.pos m) e <= 255.
Proof.
  intros He Hm. rewrite <- (Z.opp_involutive e) at 1 2. rewrite Z.shiftl_opp_r.
  rewrite Z.shiftr_div_pow2 by lia.
  assert (0 < 2 ^ (- e)) by (apply Z.pow_pos_nonneg; lia).
  split; [apply Z.div_pos; lia|].
  apply Z.div_le_upper_bound; lia.
Qed.

(** A double in the interval from 0 to 1 is encoded as a byte. *)
Lemma unit_interval_byte (x : float) :
  double_not_negative x -> double_gt x 1 = false ->
  exists c, truncate (PrimFloat.mul x 255) = Some c /\ 0 <= c <= 255.
Proof.
  intros Hn Hgt. unfold truncate. rewrite FloatAxioms.mul_spec.
  change (Prim2SF 255) with (S754_finite false 8972014882652160 (-45)).
  unfold double_not_negative in Hn.
  destruct (Prim2SF x) as [s|[]| |[] m e] eqn:Hx;
    cbv beta iota delta [not_negative] in Hn; try contradiction.
  - exists 0. destruct s; (split; [reflexivity|lia]).
  - unfold double_gt in Hgt. rewrite FloatAxioms.ltb_spec, Hx in Hgt. discriminate.
  - destruct (not_above_one x m e Hx Hgt) as [Hb|[-> ->]].
    + destruct (SFmul_255_below_one m e Hb) as [->|(m3 & e3 & He3 & Hm3 & ->)].
      * exists 0. split; [reflexivity|lia].
      * eexists. split; [reflexivity|]. now apply shiftl_le_255.
    + exists 255. split; [vm_compute; reflexivity|lia].
Qed.

(** With every divisor of stage 3 different from 0, the unflagged cells
    of the returned grid hold values the normalized view can encode. *)
Lemma final_cell_byte (data : RawGrid) (m n i j : nat) :
  raw_grid data m n -> (50 <= n)%nat ->
  (forall i j, (i < m)%nat -> (j < n)%nat -> raw data i j < 2147483648) ->
  PrimFloat.eqb (col_ref data m n i) 0 = false ->
  exists c, truncate (PrimFloat.mul (value (final_cell data m n i j)) 255) = Some c /\
    0 <= c <= 255.
Proof.
  intros (Hs & _ & Hn32) Hn Hint Hne. apply unit_interval_byte.
  - apply final_cell_not_negative; [|assumption..|auto].
    apply (raw_in_range_bound data m n); [assumption|lia|assumption].
  - unfold final_cell. destruct (_ || _); apply clamp_not_above_one.
Qed.

(** The grid the pipeline computes can be encoded when no divisor of
    stage 3 is 0. *)
Lemma after_column_division_view_defined (data : RawGrid) (m n : nat) :
  raw_grid data m n -> (15 <= m)%nat -> (50 <= n)%nat ->
  Z.of_nat (3 * (m * n)) < 2147483648 ->
  (forall i j, (i < m)%nat -> (j < n)%nat -> raw data i j < 2147483648) ->
  (forall i c, (i < m - 15)%nat -> (50 < n)%nat ->
     (after_column_reference data m n).2 !! i = Some c -> PrimFloat.eqb c 0 = false) ->
  image_grid (after_column_division data m n) m n /\
  is_Some (create_and_save_image (after_column_division data m n)).
Proof.
  intros Hraw Hm Hn Hfits Hint Hdiv.
  destruct (after_column_division_spec data m n Hm Hn) as [Hs Hc].
  destruct (after_column_reference_spec data m n Hm Hn) as (_ & _ & Hmed).
  assert (image_grid (after_column_division data m n) m n) as Hgrid
    by (split; [assumption|split; [lia|split; [lia|assumption]]]).
  split; [assumption|].
  apply (create_and_save_image_defined _ m n Hgrid).
  intros i j Hi Hj Hflag. rewrite Hc in Hflag |- * by assumption.
  assert (in_row_strip m i || in_column_strip n j = false) as Hout.
  { unfold final_cell in Hflag. destruct (_ || _); [discriminate|reflexivity]. }
  apply orb_false_elim in Hout as [Hr Hcs].
  apply in_row_strip_false in Hr. apply in_column_strip_false in Hcs.
  destruct (final_cell_byte data m n i j Hraw Hn) as (c & Hc' & Hrange).
  - assumption.
  - apply (Hdiv i); [assumption|lia|].
    rewrite Hmed, list_lookup_fmap, lookup_seq_lt by assumption. reflexivity.
  - rewrite (proj2 (uchar_of_double_truncates _ c) (conj Hc' Hrange)). eauto.
Qed.

(** X5: the normalized view of a calibrated grid is well defined. On a
    grid of [int] readings with at least 15 rows and 50 columns whose
    pixel buffer fits an [int] index, if [median_detector[i]] does not
    compare equal to 0 for any row [i] that has cells outside both
    strips, then [process_data] returns a grid on which
    [create_and_save_image] fills its buffer without any undefined
    conversion: every unflagged value lies between 0 and 1 and its
    product with 255 rounds to at most 255. *)
Theorem calibrated_view_defined (data : RawGrid) (m n : nat) :
  raw_grid data m n -> (15 <= m)%nat -> (50 <= n)%nat ->
  Z.of_nat (3 * (m * n)) < 2147483648 ->
  (forall i j, (i < m)%nat -> (j < n)%nat -> -2147483648 <= raw data i j < 2147483648) ->
  (forall i c, (i < m - 15)%nat -> (50 < n)%nat ->
     (after_column_reference data m n).2 !! i = Some c -> PrimFloat.eqb c 0 = false) ->
  exists g image, process_data data = Returns g /\ create_and_save_image g = Some image.
Proof.
  intros Hraw Hm Hn Hfits Hint Hdiv.
  destruct (after_column_division_view_defined data m n Hraw Hm Hn Hfits) as [_ [image Himage]];
    [intros i j Hi Hj; now apply Hint|assumption|].
  exists (after_column_division data m n), image.
  split; [now apply process_data_returns|assumption].
Qed.

Lemma calibrated_view_defined_witness :
  exists g image,
    process_data half_intensity = Returns g /\ create_and_save_image g = Some image.
Proof.
  apply (calibrated_view_defined half_intensity 16 51).
  - exact raw_grid_half_intensity.
  - lia.
  - lia.
  - reflexivity.
  - intros i j _ _. apply half_intensity_readings.
  - intros i c Hi _ Hc. assert (i = 0%nat) as -> by lia.
    vm_compute in Hc. injection Hc as <-. reflexivity.
Defined.

(** * The rows of the beta-thorne strip *)

Lemma above_two_gt_one (x : float) : double_above 2 x -> double_gt x 1 = true.
Proof.
  unfold double_above, double_gt. rewrite FloatAxioms.ltb_spec.
  pose proof (Prim2SF_valid x) as Hv.
  destruct (Prim2SF x) as [s|s| |[] m e]; cbv beta iota delta [above]; try contradiction.
  intros Ha. apply valid_finite in Hv as [He _]. unfold fexp64 in He.
  change (Prim2SF 1) with (S754_finite false 4503599627370496 (-52)).
  cbv beta iota delta [SFltb SFcompare].
  destruct (Z.compare_spec (-52) e) as [E|E|E]; [lia|reflexivity|lia].
Qed.

(** X6: the last 15 rows come out binary. On a grid of at least 15 rows
    and 50 columns, a cell of the last 15 rows of the returned grid
    holds exactly 1 when its reading is above 2048 and exactly 0
    otherwise: these cells keep their background-subtracted reading, an
    integer, and the final clamp cuts it to 1. *)
Theorem row_strip_is_binary (data : RawGrid) (m n : nat) :
  raw_grid data m n -> (15 <= m)%nat -> (50 <= n)%nat ->
  (forall i j, (i < m)%nat -> (j < n)%nat -> raw data i j < 2147483648) ->
  exists g, process_data data = Returns g /\
    forall i j, (m - 15 <= i < m)%nat -> (j < n)%nat ->
      value (cell g i j) = if raw data i j >? 2048 then 1%float else 0%float.
Proof.
  intros Hraw Hm Hn Hint.
  destruct (process_data_cells data m n Hraw Hm Hn) as (g & Hg & _ & Hc).
  exists g. split; [assumption|]. intros i j Hi Hj. rewrite Hc by lia.
  unfold final_cell, scaled_value, scaling_of.
  rewrite (proj2 (in_row_strip_true m i)) by lia. cbn [orb value].
  unfold background_value, SIGNAL_THRESHOLD.
  destruct (Z.gtb_spec (raw data i j) 2048) as [Hgt|Hle]; [|reflexivity].
  specialize (Hint i j ltac:(lia) Hj).
  destruct (Z.eq_dec (raw data i j - 2048) 1) as [->|Hne]; [reflexivity|].
  unfold clamp. rewrite above_two_gt_one; [reflexivity|].
  apply (double_of_Z_bounds (raw data i j - 2048) 2 31);
    [change (2 ^ 62) with 4611686018427387904; lia
    |change (2 ^ (2 - 1)) with 2; change (2 ^ 31) with 2147483648; lia|lia|lia].
Qed.

Lemma row_strip_is_binary_witness :
  exists g, process_data half_intensity = Returns g /\
    forall i j, (16 - 15 <= i < 16)%nat -> (j < 51)%nat ->
      value (cell g i j) = if raw half_intensity i j >? 2048 then 1%float else 0%float.
Proof.
  apply (row_strip_is_binary half_intensity 16 51).
  - exact raw_grid_half_intensity.
  - lia.
  - lia.
  - intros i j _ _. apply half_intensity_readings.
Defined.

(** * Readings at or below the threshold *)

Lemma background_value_ext (data data' : RawGrid) (i j : nat) :
  Z.max 2048 (raw data i j) = Z.max 2048 (raw data' i j) ->
  background_value data i j = background_value data' i j.
Proof.
  intros H. unfold background_value, SIGNAL_THRESHOLD.
  destruct (Z.gtb_spec (raw data i j) 2048), (Z.gtb_spec (raw data' i j) 2048);
    try reflexivity; try lia.
  replace (raw data' i j) with (raw data i j) by lia. reflexivity.
Qed.

Section SameBackground.

Variables data data' : RawGrid.
Variables m n : nat.
Hypothesis Hm : (15 <= m)%nat.
Hypothesis Hn : (50 <= n)%nat.
Hypothesis Hsame : forall i j, (i < m)%nat -> (j < n)%nat ->
  background_value data i j = background_value data' i j.

Lemma row_ref_ext (j : nat) : (j < n)%nat -> row_ref data m j = row_ref data' m j.
Proof.
  intros Hj. unfold row_ref. f_equal. apply fold_left_ext_in.
  intros a i Hi. apply in_seq in Hi. unfold BETA_THORNE_ROWS_COUNT in Hi.
  rewrite Hsame by lia. reflexivity.
Qed.

Lemma overall_row_ref_ext : overall_row_ref data m n = overall_row_ref data' m n.
Proof.
  unfold overall_row_ref. f_equal. apply map_ext_in.
  intros j Hj. apply in_seq in Hj. apply row_ref_ext. lia.
Qed.

Lemma scaled_value_ext (i j : nat) :
  (i < m)%nat -> (j < n)%nat -> scaled_value data m n i j = scaled_value data' m n i j.
Proof.
  intros Hi Hj. unfold scaled_value, scaling_of.
  now rewrite overall_row_ref_ext, row_ref_ext, Hsame.
Qed.

Lemma col_ref_ext (i : nat) : (i < m)%nat -> col_ref data m n i = col_ref data' m n i.
Proof.
  intros Hi. unfold col_ref. f_equal. apply fold_left_ext_in.
  intros a j Hj. apply in_seq in Hj. unfold MEDIAN_DETECTOR_COUNT in Hj.
  rewrite scaled_value_ext by lia. reflexivity.
Qed.

Lemma final_cell_ext (i j : nat) :
  (i < m)%nat -> (j < n)%nat -> final_cell data m n i j = final_cell data' m n i j.
Proof.
  intros Hi Hj. unfold final_cell. now rewrite scaled_value_ext, col_ref_ext.
Qed.

End SameBackground.

(** Two grids of cells of the same shape with the same cells are equal. *)
Lemma grid_ext (g1 g2 : Grid) (m n : nat) :
  shape g1 m n -> shape g2 m n ->
  (forall i j, (i < m)%nat -> (j < n)%nat -> cell g1 i j = cell g2 i j) ->
  g1 = g2.
Proof.
  intros H1 H2 Hcell. apply list_eq_same_length with m; [apply H2|apply H1|].
  intros i r1 r2 Hi Hr1 Hr2.
  pose proof H1 as [_ F1]. pose proof H2 as [_ F2].
  rewrite Forall_lookup in F1, F2.
  pose proof (F1 i r1 Hr1) as L1. pose proof (F2 i r2 Hr2) as L2.
  apply list_eq_same_length with n; [assumption|assumption|].
  intros j x y Hj Hx Hy.
  specialize (Hcell i j Hi Hj). unfold cell in Hcell.
  rewrite Hr1, Hr2 in Hcell. simpl in Hcell. rewrite Hx, Hy in Hcell. exact Hcell.
Qed.

(** X7: readings at or below the threshold are indistinguishable. Two
    grids of the same sizes whose readings agree wherever they are above
    2048, and are both at most 2048 elsewhere, give the same outcome of
    [process_data]: the same error, or the same grid, value for value
    and flag for flag. *)
Theorem dark_readings_are_alike (data data' : RawGrid) (m n : nat) :
  raw_grid data m n -> raw_grid data' m n -> (0 < m)%nat -> (0 < n)%nat ->
  (forall i j, (i < m)%nat -> (j < n)%nat ->
     Z.max 2048 (raw data i j) = Z.max 2048 (raw data' i j)) ->
  process_data data = process_data data'.
Proof.
  intros Hraw Hraw' Hm Hn Hsame.
  destruct (Nat.lt_ge_cases m 15) as [H15|H15].
  { rewrite (process_data_throws_rows data m n), (process_data_throws_rows data' m n);
      auto. }
  destruct (Nat.lt_ge_cases n 50) as [H50|H50].
  { rewrite (process_data_throws_columns data m n), (process_data_throws_columns data' m n);
      auto. }
  rewrite (process_data_returns data m n), (process_data_returns data' m n) by assumption.
  f_equal.
  destruct (after_column_division_spec data m n H15 H50) as [Hs Hc].
  destruct (after_column_division_spec data' m n H15 H50) as [Hs' Hc'].
  apply (grid_ext _ _ m n Hs Hs'). intros i j Hi Hj.
  rewrite Hc, Hc' by assumption.
  apply final_cell_ext; [assumption|assumption| |assumption|assumption].
  intros i' j' Hi' Hj'. apply background_value_ext. now apply Hsame.
Qed.

Lemma dark_readings_are_alike_witness :
  process_data (constant_grid 16 51 0) = process_data (constant_grid 16 51 2048).
Proof.
  apply (dark_readings_are_alike (constant_grid 16 51 0) (constant_grid 16 51 2048) 16 51).
  - apply raw_grid_constant; lia.
  - apply raw_grid_constant; lia.
  - lia.
  - lia.
  - intros i j Hi Hj. rewrite !raw_constant_grid by assumption. reflexivity.
Defined.

(** * The bitmap file *)

Lemma int_result_Some (z : Z) :
  -2147483648 <= z <= 2147483647 -> int_result z = Some z.
Proof.
  intros H. unfold int_result.
  destruct (Z.leb_spec (-2147483648) z); [|lia].
  destruct (Z.leb_spec z 2147483647); [reflexivity|lia].
Qed.

Lemma int_result_inv (z r : Z) :
  int_result z = Some r -> r = z /\ -2147483648 <= z <= 2147483647.
Proof.
  unfold int_result.
  destruct (Z.leb_spec (-2147483648) z); simpl; [|discriminate].
  destruct (Z.leb_spec z 2147483647); [|discriminate].
  intros [= <-]. lia.
Qed.

(** The four bytes stored for an [int] are its two's-complement
    little-endian representation. *)
Lemma le_decode_bytes (z : Z) :
  le_decode [uchar_of_int z; uchar_of_int (Z.shiftr z 8);
             uchar_of_int (Z.shiftr z 16); uchar_of_int (Z.shiftr z 24)]
  = z mod 4294967296.
Proof.
  unfold le_decode, uchar_of_int. cbn [fold_right].
  rewrite !Z.shiftr_div_pow2 by lia.
  change (2 ^ 8) with 256. change (2 ^ 16) with 65536. change (2 ^ 24) with 16777216.
  Z.to_euclidean_division_equations. lia.
Qed.

Tactic Notation "explode" ident(h) integer(n) :=
  do n (destruct h as [|? h]; [discriminate|]); destruct h; [|discriminate].

Ltac zero_at Hclean k :=
  let H := fresh in
  pose proof (Hclean k ltac:(lia)) as H; cbn in H; injection H as ->.

Lemma createBitmapFileHeader_defined (h : list Z) (height stride : Z) :
  -2147483648 <= stride * height -> 54 + stride * height <= 2147483647 ->
  is_Some (createBitmapFileHeader h height stride).
Proof.
  intros H1 H2. unfold createBitmapFileHeader.
  rewrite int_result_Some by lia. cbn [mbind option_bind].
  unfold FILE_HEADER_SIZE, INFO_HEADER_SIZE.
  rewrite int_result_Some by lia. cbn [mbind option_bind]. eauto.
Qed.

Lemma createBitmapFileHeader_inv (h fh : list Z) (height stride : Z) :
  createBitmapFileHeader h height stride = Some fh ->
  -2147483648 <= stride * height <= 2147483647 /\
  -2147483648 <= 54 + stride * height <= 2147483647 /\
  fh = <[10%nat := 54]> (<[5%nat := uchar_of_int (Z.shiftr (54 + stride * height) 24)]>
       (<[4%nat := uchar_of_int (Z.shiftr (54 + stride * height) 16)]>
       (<[3%nat := uchar_of_int (Z.shiftr (54 + stride * height) 8)]>
       (<[2%nat := uchar_of_int (54 + stride * height)]>
       (<[1%nat := 77]> (<[0%nat := 66]> h)))))).
Proof.
  unfold createBitmapFileHeader. intros H.
  destruct (int_result (stride * height)) as [p|] eqn:E1; [|discriminate].
  apply int_result_inv in E1 as [-> E1]. cbn [mbind option_bind] in H.
  destruct (int_result _) as [p|] eqn:E2; [|discriminate].
  apply int_result_inv in E2 as [-> E2]. cbn [mbind option_bind] in H.
  unfold FILE_HEADER_SIZE, INFO_HEADER_SIZE in *.
  injection H as <-. change (14 + 40) with 54 in *.
  split; [lia|]. split; [lia|]. reflexivity.
Qed.

(** X8: the file header that [createBitmapFileHeader] builds. *)
Theorem file_header_fields (h : list Z) (height stride : Z) :
  length h = 14%nat ->
  (forall k, (6 <= k < 10 \/ 11 <= k < 14)%nat -> h !! k = Some 0) ->
  -2147483648 <= stride * height -> 54 + stride * height <= 2147483647 ->
  exists fh, createBitmapFileHeader h height stride = Some fh /\
    length fh = 14%nat /\
    slice 0 2 fh = [66; 77] /\
    le_decode (slice 2 4 fh) = (54 + stride * height) mod 4294967296 /\
    slice 6 4 fh = [0; 0; 0; 0] /\
    le_decode (slice 10 4 fh) = 54.
Proof.
  intros Hlen Hclean H1 H2.
  destruct (createBitmapFileHeader_defined h height stride H1 H2) as [fh Hfh].
  exists fh. split; [exact Hfh|].
  apply createBitmapFileHeader_inv in Hfh as (_ & _ & ->).
  explode h 14.
  zero_at Hclean 6%nat. zero_at Hclean 7%nat. zero_at Hclean 8%nat. zero_at Hclean 9%nat.
  zero_at Hclean 11%nat. zero_at Hclean 12%nat. zero_at Hclean 13%nat.
  unfold slice. cbn [list_insert insert take drop length].
  split; [reflexivity|]. split; [reflexivity|].
  split; [apply le_decode_bytes|]. split; reflexivity.
Qed.

Lemma file_header_fields_witness :
  exists fh, createBitmapFileHeader (replicate 14 0) 16 156 = Some fh /\
    length fh = 14%nat /\
    slice 0 2 fh = [66; 77] /\
    le_decode (slice 2 4 fh) = (54 + 156 * 16) mod 4294967296 /\
    slice 6 4 fh = [0; 0; 0; 0] /\
    le_decode (slice 10 4 fh) = 54.
Proof.
  apply (file_header_fields (replicate 14 0) 16 156).
  - reflexivity.
  - intros k Hk. apply lookup_replicate. split; [reflexivity|lia].
  - lia.
  - lia.
Defined.

(** X9: the info header that [createBitmapInfoHeader] builds. *)
Theorem info_header_fields (h : list Z) (height width : Z) :
  length h = 40%nat ->
  (forall k, (1 <= k < 4 \/ k = 13 \/ 15 <= k < 40)%nat -> h !! k = Some 0) ->
  let ih := createBitmapInfoHeader h height width in
  length ih = 40%nat /\
  le_decode (slice 0 4 ih) = 40 /\
  le_decode (slice 4 4 ih) = width mod 4294967296 /\
  le_decode (slice 8 4 ih) = height mod 4294967296 /\
  le_decode (slice 12 2 ih) = 1 /\
  le_decode (slice 14 2 ih) = 24 /\
  slice 16 24 ih = replicate 24 0.
Proof.
  intros Hlen Hclean ih. subst ih.
  explode h 40.
  zero_at Hclean 1%nat. zero_at Hclean 2%nat. zero_at Hclean 3%nat. zero_at Hclean 13%nat.
  zero_at Hclean 15%nat. zero_at Hclean 16%nat. zero_at Hclean 17%nat. zero_at Hclean 18%nat.
  zero_at Hclean 19%nat. zero_at Hclean 20%nat. zero_at Hclean 21%nat. zero_at Hclean 22%nat.
  zero_at Hclean 23%nat. zero_at Hclean 24%nat. zero_at Hclean 25%nat. zero_at Hclean 26%nat.
  zero_at Hclean 27%nat. zero_at Hclean 28%nat. zero_at Hclean 29%nat. zero_at Hclean 30%nat.
  zero_at Hclean 31%nat. zero_at Hclean 32%nat. zero_at Hclean 33%nat. zero_at Hclean 34%nat.
  zero_at Hclean 35%nat. zero_at Hclean 36%nat. zero_at Hclean 37%nat. zero_at Hclean 38%nat.
  zero_at Hclean 39%nat.
  unfold createBitmapInfoHeader, slice. cbn [list_insert insert take drop length].
  split; [reflexivity|]. split; [reflexivity|].
  split; [apply le_decode_bytes|]. split; [apply le_decode_bytes|].
  split; [reflexivity|]. split; reflexivity.
Qed.

Lemma info_header_fields_witness :
  let ih := createBitmapInfoHeader (replicate 40 0) 16 51 in
  length ih = 40%nat /\
  le_decode (slice 0 4 ih) = 40 /\
  le_decode (slice 4 4 ih) = 51 mod 4294967296 /\
  le_decode (slice 8 4 ih) = 16 mod 4294967296 /\
  le_decode (slice 12 2 ih) = 1 /\
  le_decode (slice 14 2 ih) = 24 /\
  slice 16 24 ih = replicate 24 0.
Proof.
  apply (info_header_fields (replicate 40 0) 16 51).
  - reflexivity.
  - intros k Hk. apply lookup_replicate. split; [reflexivity|lia].
Defined.

(** ** Rows and padding *)

Lemma row_stride_spec (w : nat) :
  let wb := Z.of_nat w * Z.of_nat BYTES_PER_PIXEL in
  let pad := Z.rem (4 - Z.rem wb 4) 4 in
  0 <= pad <= 3 /\ wb + pad = Z.of_nat (row_stride w) /\
  (row_stride w = 3 * w + Z.to_nat pad)%nat.
Proof.
  intros wb pad. subst wb pad. unfold BYTES_PER_PIXEL, row_stride.
  rewrite (Z.rem_mod_nonneg (Z.of_nat w * Z.of_nat 3) 4) by lia.
  rewrite (Z.rem_mod_nonneg (4 - _) 4) by (pose proof (Z.mod_pos_bound (Z.of_nat w * Z.of_nat 3) 4); lia).
  assert (E : Z.of_nat (4 * ((3 * w + 3) / 4)) = 4 * ((3 * Z.of_nat w + 3) / 4)).
  { rewrite Nat2Z.inj_mul, Nat2Z.inj_div, Nat2Z.inj_add, Nat2Z.inj_mul. reflexivity. }
  assert (Z.of_nat w * Z.of_nat 3 = 3 * Z.of_nat w) as -> by lia.
  split; [|split].
  - pose proof (Z.mod_pos_bound (4 - (3 * Z.of_nat w) mod 4) 4). lia.
  - rewrite E. Z.to_euclidean_division_equations. lia.
  - apply Nat2Z.inj. rewrite E, Nat2Z.inj_add, Nat2Z.inj_mul, Z2Nat.id.
    + Z.to_euclidean_division_equations. lia.
    + pose proof (Z.mod_pos_bound (4 - (3 * Z.of_nat w) mod 4) 4). lia.
Qed.

Lemma take_padding (p : Z) :
  0 <= p <= 3 -> take (Z.to_nat p) [0; 0; 0] = replicate (Z.to_nat p) 0.
Proof.
  intros H.
  assert (p = 0 \/ p = 1 \/ p = 2 \/ p = 3) as [->|[->|[->| ->]]] by lia; reflexivity.
Qed.

Lemma read_bytes_in_range (image : list Z) (o l : nat) :
  (o + l <= length image)%nat ->
  read_bytes image (Z.of_nat o) (Z.of_nat l) = Some (take l (drop o image)).
Proof.
  intros H. unfold read_bytes.
  destruct (Z.leb_spec 0 (Z.of_nat o)); [|lia].
  destruct (Z.leb_spec 0 (Z.of_nat l)); [|lia].
  destruct (Z.leb_spec (Z.of_nat o + Z.of_nat l) (Z.of_nat (length image))); [|lia].
  simpl. now rewrite !Nat2Z.id.
Qed.

(** What [generateBitmapImage] does with the two arrays. *)
Lemma generateBitmapImage_statics (st st' : statics) (image file : list Z) (height width : Z) :
  generateBitmapImage st image height width = Some (file, st') ->
  exists stride fh, createBitmapFileHeader (fileHeader st) height stride = Some fh /\
    st' = mkStatics fh (createBitmapInfoHeader (infoHeader st) height width).
Proof.
  unfold generateBitmapImage. intros H.
  destruct (int_result (width * _)) as [wb|]; [|discriminate]. cbn [mbind option_bind] in H.
  destruct (int_result (wb + _)) as [stride|]; [|discriminate]. cbn [mbind option_bind] in H.
  destruct (createBitmapFileHeader _ _ _) as [fh|] eqn:E; [|discriminate].
  cbn [mbind option_bind] in H.
  destruct (for_range _ _ _ _) as [f|]; [|discriminate]. cbn [mbind option_bind] in H.
  injection H as <- <-. eauto.
Qed.

Lemma generateBitmapImage_spec (st : statics) (image : list Z) (h w : nat) :
  sized_statics st ->
  (3 * w * h <= length image)%nat ->
  Z.of_nat (row_stride w) <= 2147483647 ->
  54 + Z.of_nat (row_stride w) * Z.of_nat h <= 2147483647 ->
  exists fh file,
    createBitmapFileHeader (fileHeader st) (Z.of_nat h) (Z.of_nat (row_stride w)) = Some fh /\
    generateBitmapImage st image (Z.of_nat h) (Z.of_nat w)
    = Some (file, mkStatics fh (createBitmapInfoHeader (infoHeader st) (Z.of_nat h) (Z.of_nat w))) /\
    rows_written image w h
      (fh ++ createBitmapInfoHeader (infoHeader st) (Z.of_nat h) (Z.of_nat w)) file.
Proof.
  intros [Hf Hi] Himage Hs Hsize.
  destruct (row_stride_spec w) as (Hpad & Hstride & Hnat).
  cbv zeta in Hpad, Hstride, Hnat.
  destruct (createBitmapFileHeader_defined (fileHeader st) (Z.of_nat h) (Z.of_nat (row_stride w)))
    as [fh Hfh]; [lia|lia|].
  exists fh.
  set (ih := createBitmapInfoHeader (infoHeader st) (Z.of_nat h) (Z.of_nat w)).
  assert (Hlfh : length fh = 14%nat).
  { apply createBitmapFileHeader_inv in Hfh as (_ & _ & ->). now rewrite !length_insert. }
  assert (Hlih : length ih = 40%nat).
  { subst ih. unfold createBitmapInfoHeader. now rewrite !length_insert. }
  unfold generateBitmapImage.
  rewrite int_result_Some by lia. cbn [mbind option_bind].
  rewrite Hstride. rewrite int_result_Some by lia. cbn [mbind option_bind].
  rewrite Hfh. cbn [mbind option_bind]. fold ih.
  change (Z.to_nat FILE_HEADER_SIZE) with 14%nat.
  change (Z.to_nat INFO_HEADER_SIZE) with 40%nat.
  rewrite (take_ge fh) by lia. rewrite (take_ge ih) by lia.
  rewrite Nat2Z.id.
  match goal with |- context [for_range 0 h ?b ?s] =>
    assert (exists file, for_range 0 h b s = Some file /\ rows_written image w h (fh ++ ih) file)
      as (file & -> & Hrows)
  end.
  { apply (for_range_invariant
      (fun i s => exists file, s = Some file /\ rows_written image w i (fh ++ ih) file)); [lia| |].
    - exists (fh ++ ih). split; [reflexivity|]. split; [|split].
      + rewrite length_app. lia.
      + apply take_ge. rewrite length_app. lia.
      + intros; lia.
    - intros i s Hi' (file & -> & Hlen & Hhdr & Hrows). cbn [mbind option_bind].
      rewrite int_result_Some by nia. cbn [mbind option_bind].
      replace (Z.of_nat i * (Z.of_nat w * Z.of_nat BYTES_PER_PIXEL))
        with (Z.of_nat (i * (3 * w))) by (unfold BYTES_PER_PIXEL; lia).
      replace (Z.of_nat BYTES_PER_PIXEL * Z.of_nat w) with (Z.of_nat (3 * w))
        by (unfold BYTES_PER_PIXEL; lia).
      rewrite read_bytes_in_range by nia. cbn [mbind option_bind].
      rewrite take_padding by lia.
      eexists. split; [reflexivity|].
      assert (Hrow : length (take (3 * w) (drop (i * (3 * w)) image)) = (3 * w)%nat).
      { rewrite length_take, length_drop. nia. }
      split; [|split].
      + rewrite !length_app, Hrow, length_replicate. lia.
      + rewrite take_app_le by lia. assumption.
      + intros r k Hr Hk.
        destruct (decide (r = i)) as [->|Hne].
        * rewrite lookup_app_r by lia.
          replace (54 + i * row_stride w + k - length file)%nat with k by lia.
          destruct (Nat.ltb_spec k (3 * w)).
          -- rewrite lookup_app_l by lia.
             rewrite lookup_take_lt by lia. now rewrite lookup_drop.
          -- rewrite lookup_app_r by lia. apply lookup_replicate. split; [reflexivity|lia].
        * rewrite lookup_app_l by nia. apply Hrows; lia. }
  cbn [mbind option_bind]. exists file. auto.
Qed.

Lemma slice_take (p l n : nat) (file : list Z) :
  (p + l <= n)%nat -> slice p l (take n file) = slice p l file.
Proof.
  intros H. unfold slice.
  replace n with (p + (n - p))%nat by lia.
  rewrite <- take_drop_commute, take_take. f_equal. lia.
Qed.

(** The fields of the 54 header bytes built on clean arrays. *)
Lemma header_fields (st : statics) (height stride width : Z) (fh : list Z) :
  clean_statics st ->
  createBitmapFileHeader (fileHeader st) height stride = Some fh ->
  let hdr := fh ++ createBitmapInfoHeader (infoHeader st) height width in
  slice 0 2 hdr = [66; 77] /\
  le_decode (slice 2 4 hdr) = (54 + stride * height) mod 4294967296 /\
  le_decode (slice 10 4 hdr) = 54 /\
  le_decode (slice 14 4 hdr) = 40 /\
  le_decode (slice 18 4 hdr) = width mod 4294967296 /\
  le_decode (slice 22 4 hdr) = height mod 4294967296 /\
  le_decode (slice 26 2 hdr) = 1 /\
  le_decode (slice 28 2 hdr) = 24 /\
  slice 30 24 hdr = replicate 24 0.
Proof.
  destruct st as [f i]. intros ([Hf Hi] & Hcf & Hci) Hfh. cbn [fileHeader infoHeader] in *.
  apply createBitmapFileHeader_inv in Hfh as (_ & _ & ->).
  explode f 14.
  zero_at Hcf 6%nat. zero_at Hcf 7%nat. zero_at Hcf 8%nat. zero_at Hcf 9%nat.
  zero_at Hcf 11%nat. zero_at Hcf 12%nat. zero_at Hcf 13%nat.
  explode i 40.
  zero_at Hci 1%nat. zero_at Hci 2%nat. zero_at Hci 3%nat. zero_at Hci 13%nat.
  zero_at Hci 15%nat. zero_at Hci 16%nat. zero_at Hci 17%nat. zero_at Hci 18%nat.
  zero_at Hci 19%nat. zero_at Hci 20%nat. zero_at Hci 21%nat. zero_at Hci 22%nat.
  zero_at Hci 23%nat. zero_at Hci 24%nat. zero_at Hci 25%nat. zero_at Hci 26%nat.
  zero_at Hci 27%nat. zero_at Hci 28%nat. zero_at Hci 29%nat. zero_at Hci 30%nat.
  zero_at Hci 31%nat. zero_at Hci 32%nat. zero_at Hci 33%nat. zero_at Hci 34%nat.
  zero_at Hci 35%nat. zero_at Hci 36%nat. zero_at Hci 37%nat. zero_at Hci 38%nat.
  zero_at Hci 39%nat.
  unfold createBitmapInfoHeader, slice. cbn [list_insert insert take drop length app].
  split; [reflexivity|]. split; [apply le_decode_bytes|]. split; [reflexivity|].
  split; [reflexivity|]. split; [apply le_decode_bytes|]. split; [apply le_decode_bytes|].
  split; [reflexivity|]. split; reflexivity.
Qed.

Lemma clean_initial_statics : clean_statics initial_statics.
Proof.
  split; [split; reflexivity|].
  split; intros k Hk; apply lookup_replicate; (split; [reflexivity|lia]).
Qed.

Lemma read_bytes_inv (image row : list Z) (o l : nat) :
  read_bytes image (Z.of_nat o) (Z.of_nat l) = Some row -> (o + l <= length image)%nat.
Proof.
  unfold read_bytes.
  destruct (Z.leb_spec 0 (Z.of_nat o)); [|discriminate].
  destruct (Z.leb_spec 0 (Z.of_nat l)); [|discriminate].
  destruct (Z.leb_spec (Z.of_nat o + Z.of_nat l) (Z.of_nat (length image)));
    [|discriminate].
  intros _. lia.
Qed.

(** A defined call stayed inside [int] and inside the buffer. *)
Lemma generateBitmapImage_inv (st st' : statics) (image file : list Z) (h w : nat) :
  generateBitmapImage st image (Z.of_nat h) (Z.of_nat w) = Some (file, st') ->
  Z.of_nat (row_stride w) <= 2147483647 /\
  54 + Z.of_nat (row_stride w) * Z.of_nat h <= 2147483647 /\
  (3 * w * h <= length image)%nat.
Proof.
  intros H. destruct (row_stride_spec w) as (Hpad & Hstride & Hnat).
  cbv zeta in Hpad, Hstride, Hnat.
  unfold generateBitmapImage in H.
  destruct (int_result (Z.of_nat w * _)) as [wb|] eqn:E1; [|discriminate].
  apply int_result_inv in E1 as [-> E1]. cbn [mbind option_bind] in H.
  rewrite Hstride in H.
  destruct (int_result (Z.of_nat (row_stride w))) as [stride|] eqn:E2; [|discriminate].
  apply int_result_inv in E2 as [-> E2]. cbn [mbind option_bind] in H.
  destruct (createBitmapFileHeader _ _ _) as [fh|] eqn:E3; [|discriminate].
  apply createBitmapFileHeader_inv in E3 as (_ & E3 & _). cbn [mbind option_bind] in H.
  split; [lia|]. split; [lia|].
  rewrite Nat2Z.id in H.
  match type of H with context [for_range 0 h ?b ?s] =>
    assert (forall f, for_range 0 h b s = Some f -> (3 * w * h <= length image)%nat) as Hloop
  end.
  { apply (for_range_invariant
      (fun i s => forall f, s = Some f -> (3 * w * i <= length image)%nat)); [lia| |].
    - intros; lia.
    - intros i [f|] Hi _ f' Hbody; [|discriminate]. cbn [mbind option_bind] in Hbody.
      destruct (int_result _) as [o|] eqn:Eo; [|discriminate].
      apply int_result_inv in Eo as [-> _]. cbn [mbind option_bind] in Hbody.
      destruct (read_bytes _ _ _) as [row|] eqn:Er; [|discriminate].
      replace (Z.of_nat i * (Z.of_nat w * Z.of_nat BYTES_PER_PIXEL))
        with (Z.of_nat (i * (3 * w))) in Er by (unfold BYTES_PER_PIXEL; lia).
      replace (Z.of_nat BYTES_PER_PIXEL * Z.of_nat w) with (Z.of_nat (3 * w)) in Er
        by (unfold BYTES_PER_PIXEL; lia).
      apply read_bytes_inv in Er. lia. }
  destruct (for_range _ _ _ _) as [f|]; [|discriminate]. now apply (Hloop f).
Qed.

(** The file of a defined call on clean arrays starts with headers that
    describe it. *)
Lemma generateBitmapImage_header (st st' : statics) (image file : list Z) (h w : nat) :
  clean_statics st -> Z.of_nat h <= 2147483647 ->
  generateBitmapImage st image (Z.of_nat h) (Z.of_nat w) = Some (file, st') ->
  bitmap_header h w file.
Proof.
  intros Hclean Hh Hgen.
  destruct (row_stride_spec w) as (Hpad & Hstride & Hnat). cbv zeta in Hpad, Hstride, Hnat.
  destruct (generateBitmapImage_inv st st' image file h w Hgen) as (Hs & Hsize & Himage).
  destruct (generateBitmapImage_spec st image h w (proj1 Hclean) Himage Hs Hsize)
    as (fh & file' & Hfh & Hgen' & Hlen & Hhdr & _).
  rewrite Hgen' in Hgen. injection Hgen as <- _.
  pose proof (header_fields st (Z.of_nat h) (Z.of_nat (row_stride w)) (Z.of_nat w) fh Hclean Hfh)
    as H. cbv zeta in H. rewrite <- Hhdr in H.
  rewrite !slice_take in H by lia.
  destruct H as (H0 & H2 & H10 & H14 & H18 & H22 & H26 & H28 & H30).
  unfold bitmap_header. rewrite H2, H18, H22, Hlen.
  rewrite (Z.mod_small (54 + _)), (Z.mod_small (Z.of_nat w)), (Z.mod_small (Z.of_nat h)) by lia.
  repeat (split; [first [assumption | reflexivity | lia]|]). assumption.
Qed.



(** X11: after the 54 header bytes the file holds the rows of the buffer
    in order, each followed by 0 to 3 zero bytes that bring its length to
    [row_stride w], the least multiple of 4 that is at least [3 * w]. *)
Theorem bitmap_rows_are_padded (st st' : statics) (image file : list Z) (h w : nat) :
  sized_statics st ->
  generateBitmapImage st image (Z.of_nat h) (Z.of_nat w) = Some (file, st') ->
  length file = (54 + h * row_stride w)%nat /\
  (3 * w <= row_stride w < 3 * w + 4)%nat /\ (row_stride w mod 4 = 0)%nat /\
  forall i k, (i < h)%nat ->
    ((k < 3 * w)%nat ->
       file !! (54 + i * row_stride w + k)%nat = image !! (i * (3 * w) + k)%nat) /\
    ((3 * w <= k < row_stride w)%nat ->
       file !! (54 + i * row_stride w + k)%nat = Some 0).
Proof.
  intros Hsized Hgen.
  destruct (row_stride_spec w) as (Hpad & Hstride & Hnat). cbv zeta in Hpad, Hstride, Hnat.
  destruct (generateBitmapImage_inv st st' image file h w Hgen) as (Hs & Hsize & Himage).
  destruct (generateBitmapImage_spec st image h w Hsized Himage Hs Hsize)
    as (fh & file' & _ & Hgen' & Hlen & _ & Hrows).
  rewrite Hgen' in Hgen. injection Hgen as <- _.
  split; [assumption|]. split; [lia|]. split.
  { unfold row_stride. rewrite Nat.mul_comm. apply Nat.Div0.mod_mul. }
  intros i k Hi.
  split; intros Hk.
  - rewrite Hrows by lia. destruct (Nat.ltb_spec k (3 * w)); [reflexivity|lia].
  - rewrite Hrows by lia. destruct (Nat.ltb_spec k (3 * w)); [lia|reflexivity].
Qed.

Lemma bitmap_rows_are_padded_witness :
  length two_by_two_file = (54 + 2 * row_stride 2)%nat /\
  (3 * 2 <= row_stride 2 < 3 * 2 + 4)%nat /\ (row_stride 2 mod 4 = 0)%nat /\
  forall i k, (i < 2)%nat ->
    ((k < 3 * 2)%nat ->
       two_by_two_file !! (54 + i * row_stride 2 + k)%nat
       = two_by_two !! (i * (3 * 2) + k)%nat) /\
    ((3 * 2 <= k < row_stride 2)%nat ->
       two_by_two_file !! (54 + i * row_stride 2 + k)%nat = Some 0).
Proof.
  apply (bitmap_rows_are_padded initial_statics two_by_two_statics two_by_two
           two_by_two_file 2 2).
  - split; reflexivity.
  - vm_compute. reflexivity.
Defined.

(** ** The static arrays *)

Lemma createBitmapFileHeader_overwrites (h fh : list Z) (a b c d : Z) :
  length h = 14%nat ->
  createBitmapFileHeader h a b = Some fh ->
  createBitmapFileHeader fh c d = createBitmapFileHeader h c d.
Proof.
  intros Hlen Hfh. apply createBitmapFileHeader_inv in Hfh as (_ & _ & ->).
  explode h 14. unfold createBitmapFileHeader.
  destruct (int_result (d * c)) as [p|]; [|reflexivity]. cbn [mbind option_bind].
  destruct (int_result _) as [s|]; reflexivity.
Qed.

Lemma createBitmapInfoHeader_overwrites (h : list Z) (a b c d : Z) :
  length h = 40%nat ->
  createBitmapInfoHeader (createBitmapInfoHeader h a b) c d = createBitmapInfoHeader h c d.
Proof. intros Hlen. explode h 40. reflexivity. Qed.

Lemma generateBitmapImage_ext (st1 st2 : statics) (image : list Z) (height width : Z) :
  (forall s, createBitmapFileHeader (fileHeader st1) height s
             = createBitmapFileHeader (fileHeader st2) height s) ->
  createBitmapInfoHeader (infoHeader st1) height width
  = createBitmapInfoHeader (infoHeader st2) height width ->
  generateBitmapImage st1 image height width = generateBitmapImage st2 image height width.
Proof.
  intros Hf Hi. unfold generateBitmapImage.
  destruct (int_result (width * _)) as [wb|]; [|reflexivity]. cbn [mbind option_bind].
  destruct (int_result (wb + _)) as [stride|]; [|reflexivity]. cbn [mbind option_bind].
  rewrite Hf, Hi. reflexivity.
Qed.

(** The positions the builders never write keep their zeros. *)
Lemma generateBitmapImage_clean (st st' : statics) (image file : list Z) (height width : Z) :
  clean_statics st ->
  generateBitmapImage st image height width = Some (file, st') ->
  clean_statics st'.
Proof.
  intros ([Hf Hi] & Hcf & Hci) Hgen.
  apply generateBitmapImage_statics in Hgen as (stride & fh & Hfh & ->).
  apply createBitmapFileHeader_inv in Hfh as (_ & _ & ->).
  split; [split|split]; cbn [fileHeader infoHeader].
  - now rewrite !length_insert.
  - unfold createBitmapInfoHeader. now rewrite !length_insert.
  - intros k Hk. rewrite !list_lookup_insert_ne by lia. now apply Hcf.
  - intros k Hk. unfold createBitmapInfoHeader.
    rewrite !list_lookup_insert_ne by lia. now apply Hci.
Qed.

(** X12: the header arrays are [static], but a call leaves nothing in them
    that a later call can see: after any call, [generateBitmapImage]
    writes the same file and leaves the same arrays as it would have
    without that call, and arrays that were clean stay clean. *)
Theorem static_headers_keep_no_history (st st1 : statics) (image1 file1 : list Z)
    (height1 width1 : Z) :
  sized_statics st ->
  generateBitmapImage st image1 height1 width1 = Some (file1, st1) ->
  (forall image height width,
     generateBitmapImage st1 image height width = generateBitmapImage st image height width) /\
  (clean_statics st -> clean_statics st1).
Proof.
  intros [Hf Hi] Hgen. split.
  - intros image height width.
    apply generateBitmapImage_statics in Hgen as (stride & fh & Hfh & ->).
    apply generateBitmapImage_ext; cbn [fileHeader infoHeader].
    + intros s. now apply (createBitmapFileHeader_overwrites _ _ height1 stride).
    + now apply createBitmapInfoHeader_overwrites.
  - intros Hclean. exact (generateBitmapImage_clean _ _ _ _ _ _ Hclean Hgen).
Qed.

Lemma static_headers_keep_no_history_witness :
  (forall image height width,
     generateBitmapImage two_by_two_statics image height width
     = generateBitmapImage initial_statics image height width) /\
  (clean_statics initial_statics -> clean_statics two_by_two_statics).
Proof.
  apply (static_headers_keep_no_history initial_statics two_by_two_statics
           two_by_two two_by_two_file 2 2).
  - split; reflexivity.
  - vm_compute. reflexivity.
Defined.

(** ** The two views as files *)

Lemma int_of_unsigned_small (k : nat) :
  Z.of_nat k < 2147483648 -> int_of_unsigned k = Z.of_nat k.
Proof.
  intros H. unfold int_of_unsigned.
  destruct (Z.ltb_spec (Z.of_nat k) 2147483648); [reflexivity|lia].
Qed.

(** A painted buffer, written as a file: the colour of cell (i, j) is at
    offset [54 + i * row_stride n + 3 * j]. *)
Lemma painted_file (color : PixelData -> option (Z * Z * Z)) (data : Grid) (m n : nat)
    (st st' : statics) (image file : list Z) :
  image_grid data m n -> sized_statics st ->
  paint color data m n (replicate (3 * (m * n)) 0) = Some image ->
  generateBitmapImage st image (Z.of_nat m) (Z.of_nat n) = Some (file, st') ->
  length file = (54 + m * row_stride n)%nat /\
  forall i j, (i < m)%nat -> (j < n)%nat ->
    exists b g r, color (cell data i j) = Some (b, g, r) /\
      file !! (54 + i * row_stride n + 3 * j)%nat = Some b /\
      file !! (54 + i * row_stride n + 3 * j + 1)%nat = Some g /\
      file !! (54 + i * row_stride n + 3 * j + 2)%nat = Some r.
Proof.
  intros (Hshape & Hm & Hn & Hfits) Hsized Hpaint Hgen.
  destruct (paint_spec color data m n Hfits _ image (length_replicate _ _) Hpaint)
    as [Hlen Hall].
  destruct (generateBitmapImage_inv st st' image file m n Hgen) as (Hs & Hsize & Himage).
  destruct (generateBitmapImage_spec st image m n Hsized Himage Hs Hsize)
    as (fh & file' & _ & Hgen' & Hl & _ & Hrows).
  rewrite Hgen' in Hgen. injection Hgen as <- _.
  split; [assumption|].
  intros i j Hi Hj. destruct (Hall i j Hi Hj) as (b & g & r & Hc & Hb & Hg & Hr).
  destruct (row_stride_spec n) as (Hpad & _ & Hnat). cbv zeta in Hpad, Hnat.
  exists b, g, r. split; [assumption|].
  replace (54 + i * row_stride n + 3 * j + 1)%nat
    with (54 + i * row_stride n + (3 * j + 1))%nat by lia.
  replace (54 + i * row_stride n + 3 * j + 2)%nat
    with (54 + i * row_stride n + (3 * j + 2))%nat by lia.
  rewrite !Hrows by lia.
  destruct (Nat.ltb_spec (3 * j) (3 * n)); [|lia].
  destruct (Nat.ltb_spec (3 * j + 1) (3 * n)); [|lia].
  destruct (Nat.ltb_spec (3 * j + 2) (3 * n)); [|lia].
  replace (i * (3 * n) + 3 * j)%nat with (3 * (i * n + j))%nat by lia.
  replace (i * (3 * n) + (3 * j + 1))%nat with (3 * (i * n + j) + 1)%nat by lia.
  replace (i * (3 * n) + (3 * j + 2))%nat with (3 * (i * n + j) + 2)%nat by lia.
  auto.
Qed.

Lemma image_grid_int_sizes (data : Grid) (m n : nat) :
  image_grid data m n ->
  int_of_unsigned (to_unsigned (length data)) = Z.of_nat m /\
  int_of_unsigned (to_unsigned (length (default [] (data !! 0%nat)))) = Z.of_nat n.
Proof.
  intros Hg. destruct (image_grid_sizes data m n Hg) as (-> & -> & _).
  destruct Hg as (_ & Hm & Hn & Hfits).
  split; apply int_of_unsigned_small; nia.
Qed.



(** X14: the file of the normalized view. Row [i] of the grid is the
    [i]-th row stored after the 54 header bytes and the pixel of cell
    (i, j) is at offset [54 + i * row_stride n + 3 * j], blue first: a
    flagged cell is stored as 0, 0, 255 and an unflagged cell as three
    times the byte its value converts to. *)
Theorem normalized_file_pixels (st st' : statics) (data : Grid) (m n : nat)
    (file : list Z) :
  image_grid data m n -> sized_statics st ->
  create_and_save_image_file st data = Some (file, st') ->
  length file = (54 + m * row_stride n)%nat /\
  forall i j, (i < m)%nat -> (j < n)%nat ->
    (is_calibrated (cell data i j) = true ->
       file !! (54 + i * row_stride n + 3 * j)%nat = Some 0 /\
       file !! (54 + i * row_stride n + 3 * j + 1)%nat = Some 0 /\
       file !! (54 + i * row_stride n + 3 * j + 2)%nat = Some 255) /\
    (is_calibrated (cell data i j) = false ->
       exists c, uchar_of_double (PrimFloat.mul (value (cell data i j)) 255) = Some c /\
         file !! (54 + i * row_stride n + 3 * j)%nat = Some c /\
         file !! (54 + i * row_stride n + 3 * j + 1)%nat = Some c /\
         file !! (54 + i * row_stride n + 3 * j + 2)%nat = Some c).
Proof.
  intros Hg Hsized Hfile. unfold create_and_save_image_file in Hfile.
  destruct (image_grid_int_sizes data m n Hg) as [Em En]. rewrite Em, En in Hfile.
  destruct (create_and_save_image data) as [image|] eqn:Himage; [|discriminate].
  cbn [mbind option_bind] in Hfile.
  rewrite (create_and_save_image_paint data m n Hg) in Himage.
  destruct (painted_file normalized_color data m n st st' image file Hg Hsized Himage Hfile)
    as [Hlen Hall].
  split; [assumption|]. intros i j Hi Hj.
  destruct (Hall i j Hi Hj) as (b & g & r & Hc & Hb & Hgr & Hr).
  unfold normalized_color in Hc. split; intros Hflag; rewrite Hflag in Hc.
  - injection Hc as <- <- <-. auto.
  - destruct (uchar_of_double _) as [c|] eqn:E; simpl in Hc; [|discriminate].
    injection Hc as <- <- <-. exists c. auto.
Qed.

Lemma normalized_file_pixels_witness :
  length single_cell_file = (54 + 1 * row_stride 1)%nat /\
  forall i j, (i < 1)%nat -> (j < 1)%nat ->
    (is_calibrated (cell (single_cell 0.5) i j) = true ->
       single_cell_file !! (54 + i * row_stride 1 + 3 * j)%nat = Some 0 /\
       single_cell_file !! (54 + i * row_stride 1 + 3 * j + 1)%nat = Some 0 /\
       single_cell_file !! (54 + i * row_stride 1 + 3 * j + 2)%nat = Some 255) /\
    (is_calibrated (cell (single_cell 0.5) i j) = false ->
       exists c,
         uchar_of_double (PrimFloat.mul (value (cell (single_cell 0.5) i j)) 255) = Some c /\
         single_cell_file !! (54 + i * row_stride 1 + 3 * j)%nat = Some c /\
         single_cell_file !! (54 + i * row_stride 1 + 3 * j + 1)%nat = Some c /\
         single_cell_file !! (54 + i * row_stride 1 + 3 * j + 2)%nat = Some c).
Proof.
  apply (normalized_file_pixels initial_statics single_cell_statics (single_cell 0.5) 1 1
           single_cell_file).
  - apply image_grid_single_cell.
  - split; reflexivity.
  - vm_compute. reflexivity.
Defined.

(** X15: the file of the thickness view: the pixel of cell (i, j) is at
    offset [54 + i * row_stride n + 3 * j] and its three bytes hold
    [round(t * 25)] clamped to 0..255, whatever the flag of the cell,
    [round] being the nearest integer of the exact product, halfway cases
    away from zero ([spec_thickness] is defined from [nearest_integer]). *)
Theorem thickness_file_pixels (log : float -> float) (st st' : statics) (data : Grid)
    (m n : nat) (file : list Z) :
  image_grid data m n -> sized_statics st ->
  calculate_and_save_thickness_file log st data = Some (file, st') ->
  length file = (54 + m * row_stride n)%nat /\
  forall i j, (i < m)%nat -> (j < n)%nat ->
    exists b, spec_thickness log (value (cell data i j)) = Some b /\
      file !! (54 + i * row_stride n + 3 * j)%nat = Some b /\
      file !! (54 + i * row_stride n + 3 * j + 1)%nat = Some b /\
      file !! (54 + i * row_stride n + 3 * j + 2)%nat = Some b.
Proof.
  intros Hg Hsized Hfile. unfold calculate_and_save_thickness_file in Hfile.
  destruct (image_grid_int_sizes data m n Hg) as [Em En]. rewrite Em, En in Hfile.
  destruct (calculate_and_save_thickness log data) as [image|] eqn:Himage; [|discriminate].
  cbn [mbind option_bind] in Hfile.
  rewrite (calculate_and_save_thickness_paint log data m n Hg) in Himage.
  destruct (painted_file (thickness_color log) data m n st st' image file Hg Hsized Himage Hfile)
    as [Hlen Hall].
  split; [assumption|]. intros i j Hi Hj.
  destruct (Hall i j Hi Hj) as (b & g & r & Hc & Hb & Hgr & Hr).
  unfold thickness_color in Hc. rewrite thickness_byte_spec in Hc.
  destruct (spec_thickness log (value (cell data i j))) as [b'|] eqn:E;
    simpl in Hc; [|discriminate].
  injection Hc as <- <- <-. exists b'. auto.
Qed.

Lemma thickness_file_pixels_witness :
  slice 54 4 single_cell_thickness_file = [17; 17; 17; 0] /\
  length single_cell_thickness_file = (54 + 1 * row_stride 1)%nat /\
  forall i j, (i < 1)%nat -> (j < 1)%nat ->
    exists b,
      spec_thickness log_table (value (cell (single_cell 0.5) i j)) = Some b /\
      single_cell_thickness_file !! (54 + i * row_stride 1 + 3 * j)%nat = Some b /\
      single_cell_thickness_file !! (54 + i * row_stride 1 + 3 * j + 1)%nat = Some b /\
      single_cell_thickness_file !! (54 + i * row_stride 1 + 3 * j + 2)%nat = Some b.
Proof.
  split; [reflexivity|].
  apply (thickness_file_pixels log_table initial_statics single_cell_statics
           (single_cell 0.5) 1 1 single_cell_thickness_file).
  - apply image_grid_single_cell.
  - split; reflexivity.
  - vm_compute. reflexivity.
Defined.

(** * Reading the input file *)

(** ** The stream *)

Lemma stream_read_ok (bytes : list Z) (pos : nat) (x : list (option Z)) :
  (pos + 4 <= length bytes)%nat ->
  stream_read (mkStream bytes pos false) x
  = (mkStream bytes (pos + 4) false, Some <$> take 4 (drop pos bytes)).
Proof.
  intros H. unfold stream_read. cbn [failed content position].
  rewrite length_take, length_drop.
  replace (4 `min` (length bytes - pos))%nat with 4%nat by lia. reflexivity.
Qed.

Lemma stream_read_short (bytes : list Z) (pos : nat) (x : list (option Z)) :
  (length bytes < pos + 4)%nat ->
  stream_read (mkStream bytes pos false) x
  = (mkStream bytes (pos + length (take 4 (drop pos bytes))) true,
     (Some <$> take 4 (drop pos bytes)) ++ drop (length (take 4 (drop pos bytes))) x).
Proof.
  intros H. unfold stream_read. cbn [failed content position].
  destruct (Nat.eqb_spec (length (take 4 (drop pos bytes))) 4) as [E|_]; [|reflexivity].
  rewrite length_take, length_drop in E. lia.
Qed.

Lemma stream_read_failed (bytes : list Z) (pos : nat) (x : list (option Z)) :
  stream_read (mkStream bytes pos true) x = (mkStream bytes pos true, x).
Proof. reflexivity. Qed.

Lemma unsigned_value_written (l : list Z) :
  unsigned_value (Some <$> l) = Some (le_decode l).
Proof.
  unfold unsigned_value.
  assert (mapM id (Some <$> l) = Some l) as ->; [|reflexivity].
  induction l as [|b l IH]; [reflexivity|]. cbn. cbn in IH. now rewrite IH.
Qed.

(** An object that was written in part only has no value. *)
Lemma unsigned_value_partial (got : list Z) :
  (length got < 4)%nat ->
  unsigned_value ((Some <$> got) ++ drop (length got) uninitialized) = None.
Proof.
  intros H. destruct got as [|a [|b [|c [|d got]]]]; try reflexivity.
  simpl in H. lia.
Qed.

Lemma le_decode_word_bound (l : list Z) :
  Forall is_byte l -> (length l <= 4)%nat -> 0 <= le_decode l < 4294967296.
Proof.
  intros Hb Hl. destruct l as [|a [|b [|c [|d [|e l]]]]]; simpl in Hl; try lia.
  all: repeat match goal with H : Forall _ (_ :: _) |- _ =>
         apply Forall_cons in H as [? H] end.
  all: unfold is_byte in *; cbn [le_decode fold_right]; lia.
Qed.

(** ** The header *)

(** With 8 bytes or more both sizes are read, the stream moves to offset
    64 and the call goes on with the test on the sizes. *)
Lemma read_data_from_file_header (host : machine) (files : string -> option (list Z))
    (filename : string)
    (bytes : list Z) :
  files filename = Some bytes -> (8 <= length bytes)%nat ->
  0 <= le_decode (take 4 bytes) -> 0 <= le_decode (take 4 (drop 4 bytes)) ->
  read_data_from_file host files filename
  = if ((header_height bytes =? 0) || (header_width bytes =? 0))%nat
    then Some (Thrown zero_dimensions)
    else if negb (allocates host 125 (header_height bytes) (header_width bytes))
    then Some (Thrown (bad_alloc_what host))
    else s ← read_cells bytes (header_height bytes) (header_width bytes);
         Some (Value (s.2, header_height bytes, header_width bytes)).
Proof.
  intros Hfile Hlen Hw Hh. unfold read_data_from_file. rewrite Hfile.
  rewrite stream_read_ok by lia. rewrite stream_read_ok by (cbn; lia).
  cbn [tellg seekg failed content position].
  change (Z.to_nat (Z.of_nat (0 + 4 + 4) mod 4294967296 + 4 * 14)) with 64%nat.
  rewrite !unsigned_value_written. cbn [mbind option_bind].
  change (drop (0 + 4) bytes) with (drop 4 bytes). change (drop 0 bytes) with bytes.
  assert ((header_height bytes =? 0)%nat = (le_decode (take 4 (drop 4 bytes)) =? 0)) as ->.
  { unfold header_height. destruct (Z.eqb_spec (le_decode (take 4 (drop 4 bytes))) 0) as [->|];
      [reflexivity|]. apply Nat.eqb_neq. lia. }
  assert ((header_width bytes =? 0)%nat = (le_decode (take 4 bytes) =? 0)) as ->.
  { unfold header_width. destruct (Z.eqb_spec (le_decode (take 4 bytes)) 0) as [->|];
      [reflexivity|]. apply Nat.eqb_neq. lia. }
  destruct (le_decode (take 4 (drop 4 bytes)) =? 0); [reflexivity|].
  cbn [mbind option_bind orb].
  destruct (le_decode (take 4 bytes) =? 0); [reflexivity|].
  fold (header_height bytes). fold (header_width bytes).
  destruct (allocates host 125 (header_height bytes) (header_width bytes)); reflexivity.
Qed.

(** With fewer than 8 bytes [height] is not written in full and the test
    on the sizes reads it. *)
Lemma read_data_from_file_no_header (host : machine) (files : string -> option (list Z))
    (filename : string)
    (bytes : list Z) :
  files filename = Some bytes -> (length bytes < 8)%nat ->
  read_data_from_file host files filename = None.
Proof.
  intros Hfile Hlen. unfold read_data_from_file. rewrite Hfile.
  destruct (Nat.le_gt_cases 4 (length bytes)) as [H4|H4].
  - rewrite stream_read_ok by lia. rewrite stream_read_short by (cbn; lia).
    cbn [tellg seekg failed]. cbn [drop plus].
    rewrite unsigned_value_partial; [reflexivity|].
    rewrite length_take, length_drop. lia.
  - rewrite stream_read_short by (cbn; lia). rewrite stream_read_failed. reflexivity.
Qed.

Lemma header_nonneg (bytes : list Z) :
  Forall is_byte bytes ->
  0 <= le_decode (take 4 bytes) /\ 0 <= le_decode (take 4 (drop 4 bytes)).
Proof.
  intros H. split.
  - apply le_decode_word_bound; [now apply Forall_take|rewrite length_take; lia].
  - apply le_decode_word_bound; [now apply Forall_take, Forall_drop|rewrite length_take; lia].
Qed.

Lemma read_data_from_file_bytes (host : machine) (files : string -> option (list Z))
    (filename : string)
    (bytes : list Z) :
  files filename = Some bytes -> Forall is_byte bytes -> (8 <= length bytes)%nat ->
  read_data_from_file host files filename
  = if ((header_height bytes =? 0) || (header_width bytes =? 0))%nat
    then Some (Thrown zero_dimensions)
    else if negb (allocates host 125 (header_height bytes) (header_width bytes))
    then Some (Thrown (bad_alloc_what host))
    else s ← read_cells bytes (header_height bytes) (header_width bytes);
         Some (Value (s.2, header_height bytes, header_width bytes)).
Proof.
  intros Hfile Hbytes Hlen. destruct (header_nonneg bytes Hbytes).
  now apply read_data_from_file_header.
Qed.

(** ** The cells *)

Lemma complete_words_spec (bytes : list Z) :
  (4 * complete_words bytes <= length bytes - 64 < 4 * complete_words bytes + 4)%nat.
Proof.
  unfold complete_words.
  pose proof (Nat.div_mod_eq (length bytes - 64) 4) as E.
  pose proof (Nat.mod_upper_bound (length bytes - 64) 4 ltac:(lia)). lia.
Qed.

Lemma length_word_at (bytes : list Z) (k : nat) :
  (k < complete_words bytes)%nat -> length (word_at bytes k) = 4%nat.
Proof.
  intros H. pose proof (complete_words_spec bytes).
  unfold word_at. rewrite length_take, length_drop. lia.
Qed.

Lemma length_stale_word (bytes : list Z) :
  (1 <= complete_words bytes)%nat -> length (stale_word bytes) = 4%nat.
Proof.
  intros H. unfold stale_word. cbv zeta.
  rewrite length_app, length_drop, (length_word_at bytes (complete_words bytes - 1)) by lia.
  pose proof (complete_words_spec bytes).
  unfold word_at at 1 2. rewrite length_take, length_drop. lia.
Qed.

Lemma reads_S (bytes : list Z) (k : nat) :
  reads bytes (S k) = stream_read (reads bytes k).1 (reads bytes k).2.
Proof. reflexivity. Qed.

(** The reads succeed as long as the file holds a whole word; the first
    read past that point fails and stores what is left over the previous
    word; the later ones do nothing. *)
Lemma reads_spec (bytes : list Z) (k : nat) :
  (1 <= complete_words bytes)%nat ->
  reads bytes (S k)
  = (if (k <? complete_words bytes)%nat
     then mkStream bytes (64 + 4 * (k + 1)) false
     else mkStream bytes
            (64 + 4 * complete_words bytes + length (word_at bytes (complete_words bytes)))
            true,
     Some <$> word_read bytes k).
Proof.
  intros Hc. pose proof (complete_words_spec bytes) as Hspec.
  induction k as [|k IH].
  - rewrite reads_S. unfold word_read.
    destruct (Nat.ltb_spec 0 (complete_words bytes)); [|lia].
    change (reads bytes 0) with (mkStream bytes 64 false, uninitialized). cbn [fst snd].
    rewrite stream_read_ok by lia. unfold word_at.
    replace (64 + 4 * 0)%nat with 64%nat by lia.
    replace (64 + 4 * (0 + 1))%nat with (64 + 4)%nat by lia. reflexivity.
  - rewrite reads_S, IH. cbn [fst snd]. unfold word_read.
    destruct (Nat.ltb_spec k (complete_words bytes)) as [Hk|Hk];
      destruct (Nat.ltb_spec (S k) (complete_words bytes)) as [Hk'|Hk']; try lia.
    + rewrite stream_read_ok by lia. unfold word_at.
      replace (64 + 4 * (S k + 1))%nat with (64 + 4 * (k + 1) + 4)%nat by lia.
      replace (64 + 4 * S k)%nat with (64 + 4 * (k + 1))%nat by lia. reflexivity.
    + assert (S k = complete_words bytes) as E by lia.
      rewrite stream_read_short by lia.
      unfold stale_word, word_at. cbv zeta. rewrite fmap_app, fmap_drop.
      replace (64 + 4 * (k + 1))%nat with (64 + 4 * complete_words bytes)%nat by lia.
      replace (complete_words bytes - 1)%nat with k by lia. reflexivity.
    + rewrite stream_read_failed. reflexivity.
Qed.

(** Without a whole word the first read leaves [number] without a value. *)
Lemma reads_none (bytes : list Z) :
  complete_words bytes = 0%nat -> unsigned_value (reads bytes 1).2 = None.
Proof.
  intros Hc. pose proof (complete_words_spec bytes) as Hspec.
  rewrite reads_S.
  change (reads bytes 0) with (mkStream bytes 64 false, uninitialized). cbn [fst snd].
  rewrite stream_read_short by lia. cbn [snd].
  apply unsigned_value_partial. rewrite length_take, length_drop. lia.
Qed.

(** Writing one cell of a grid of integers. *)
Lemma shape_store (data : RawGrid) (h w i j : nat) (x : Z) :
  shape data h w -> shape (alter (fun row => <[j := x]> row) i data) h w.
Proof.
  intros [Hm Hn]. split; [now rewrite length_alter|].
  apply Forall_lookup. intros k row Hk. rewrite Forall_lookup in Hn.
  destruct (decide (i = k)) as [->|Hne].
  - rewrite list_lookup_alter_eq in Hk.
    destruct (data !! k) as [row0|] eqn:E; simpl in Hk; [|discriminate].
    inversion Hk; subst. rewrite length_insert. eauto.
  - rewrite list_lookup_alter_ne in Hk by done. eauto.
Qed.

Lemma raw_store_eq (data : RawGrid) (h w i j : nat) (x : Z) :
  shape data h w -> (i < h)%nat -> (j < w)%nat ->
  raw (alter (fun row => <[j := x]> row) i data) i j = x.
Proof.
  intros Hs Hi Hj.
  destruct (shape_lookup data h w i j Hs Hi Hj) as (row & y & Hrow & Hy & Hlen).
  unfold raw. rewrite list_lookup_alter_eq, Hrow. simpl.
  rewrite list_lookup_insert_eq by lia. reflexivity.
Qed.

Lemma raw_store_ne (data : RawGrid) (i j i' j' : nat) (x : Z) :
  (i', j') <> (i, j) ->
  raw (alter (fun row => <[j := x]> row) i data) i' j' = raw data i' j'.
Proof.
  intros Hne. unfold raw.
  destruct (decide (i = i')) as [->|Hi].
  - rewrite list_lookup_alter_eq.
    destruct (data !! i') as [row|]; simpl; [|reflexivity].
    rewrite list_lookup_insert_ne; [reflexivity|]. intros ->. now apply Hne.
  - now rewrite list_lookup_alter_ne.
Qed.

Lemma raw_replicate (h w i j : nat) : raw (replicate h (replicate w 0)) i j = 0.
Proof.
  unfold raw. destruct (replicate h (replicate w 0) !! i) as [row|] eqn:E; [|reflexivity].
  apply lookup_replicate in E as [-> _]. simpl.
  destruct (replicate w 0 !! j) as [x|] eqn:E'; [|reflexivity].
  apply lookup_replicate in E' as [-> _]. reflexivity.
Qed.

(** The loops store in cell (i, j) the value of [number] after
    [i * w + j + 1] reads. *)
Lemma read_cells_spec (bytes : list Z) (h w : nat) :
  (1 <= complete_words bytes)%nat ->
  exists data,
    read_cells bytes h w = Some ((reads bytes (h * w)).1, (reads bytes (h * w)).2, data) /\
    shape data h w /\
    forall i j, (i < h)%nat -> (j < w)%nat ->
      raw data i j = int_of_word (le_decode (word_read bytes (i * w + j))).
Proof.
  intros Hc.
  pose (Inv := fun (k : nat) (s : option (ifstream * list (option Z) * RawGrid)) =>
    exists data, s = Some ((reads bytes k).1, (reads bytes k).2, data) /\
      shape data h w /\
      forall i j, (i < h)%nat -> (j < w)%nat ->
        raw data i j
        = if (i * w + j <? k)%nat
          then int_of_word (le_decode (word_read bytes (i * w + j)))
          else 0).
  assert (Inv (h * w)%nat (read_cells bytes h w)) as (data & Hdata & Hs & Hcells).
  { unfold read_cells.
    apply (for_range_invariant (fun i s => Inv (i * w)%nat s)); [lia| |].
    - exists (replicate h (replicate w 0)). split; [reflexivity|].
      split; [apply shape_replicate|]. intros i j _ _. rewrite raw_replicate.
      destruct (Nat.ltb_spec (i * w + j) (0 * w)); [lia|reflexivity].
    - intros i s Hi HInv.
      replace (S i * w)%nat with (i * w + w)%nat by lia.
      apply (for_range_invariant (fun j s => Inv (i * w + j)%nat s)); [lia| |].
      + now rewrite Nat.add_0_r.
      + intros j s' Hj (data & -> & Hs & Hcells). cbn [mbind option_bind].
        rewrite <- reads_S. rewrite reads_spec by assumption. cbn [fst snd].
        rewrite unsigned_value_written. cbn [mbind option_bind].
        eexists. split; [|split].
        * replace (i * w + S j)%nat with (S (i * w + j)) by lia.
          rewrite reads_spec by assumption. reflexivity.
        * now apply shape_store.
        * intros i' j' Hi' Hj'.
          destruct (decide ((i', j') = (i, j))) as [[= -> ->]|Hne].
          -- rewrite (raw_store_eq data h w) by (assumption || lia).
             destruct (Nat.ltb_spec (i * w + j) (i * w + S j)); [reflexivity|lia].
          -- rewrite raw_store_ne by assumption. rewrite Hcells by assumption.
             assert (i' * w + j' <> i * w + j)%nat as Hk.
             { intros E. apply linear_index_inj in E as [-> ->]; [|lia..]. now apply Hne. }
             destruct (Nat.ltb_spec (i' * w + j') (i * w + j)),
                      (Nat.ltb_spec (i' * w + j') (i * w + S j)); try reflexivity; lia. }
  exists data. split; [assumption|]. split; [assumption|].
  intros i j Hi Hj. rewrite Hcells by assumption.
  pose proof (linear_index_bound h w i j Hi Hj).
  destruct (Nat.ltb_spec (i * w + j) (h * w)); [reflexivity|lia].
Qed.

(** Without a whole word at offset 64 the first cell is stored from a
    [number] that has no value. *)
Lemma read_cells_none (bytes : list Z) (h w : nat) :
  complete_words bytes = 0%nat -> (0 < h)%nat -> (0 < w)%nat ->
  read_cells bytes h w = None.
Proof.
  intros Hc Hh Hw.
  pose (Inv := fun (k : nat) (s : option (ifstream * list (option Z) * RawGrid)) =>
    if k is 0%nat
    then s = Some (mkStream bytes 64 false, uninitialized, replicate h (replicate w 0))
    else s = None).
  assert (Inv h (read_cells bytes h w)) as H.
  { unfold read_cells. apply (for_range_invariant Inv); [lia|reflexivity|].
    intros i s Hi HInv.
    assert (Inv (if i is 0%nat then w else 1%nat) (for_range 0 w
      (fun j s => '(inf, number, data) ← s;
         let '(inf0, number0) := stream_read inf number in
         v ← unsigned_value number0;
         Some (inf0, number0, alter (fun row => <[j := int_of_word v]> row) i data)) s))
      as H.
    { destruct i as [|i].
      - apply (for_range_invariant Inv); [lia|exact HInv|].
        intros j s' Hj HInv'. destruct j as [|j].
        + cbn in HInv'. subst s'. cbn [mbind option_bind].
          pose proof (reads_none bytes Hc) as Hnone.
          rewrite reads_S in Hnone.
          change (reads bytes 0) with (mkStream bytes 64 false, uninitialized) in Hnone.
          cbn [fst snd] in Hnone.
          destruct (stream_read _ _) as [inf number]. cbn [snd] in Hnone.
          rewrite Hnone. reflexivity.
        + cbn in HInv'. subst s'. reflexivity.
      - cbn in HInv. subst s.
        apply (for_range_invariant (fun _ s => s = None)); [lia|reflexivity|].
        intros j s' _ ->. reflexivity. }
    destruct i as [|i]; [destruct w; [lia|exact H]|exact H]. }
  destruct h; [lia|exact H].
Qed.

Lemma complete_words_positive (bytes : list Z) :
  (1 <= complete_words bytes)%nat <-> (68 <= length bytes)%nat.
Proof. pose proof (complete_words_spec bytes). lia. Qed.

Lemma int_of_word_range (z : Z) :
  0 <= z < 4294967296 -> -2147483648 <= int_of_word z < 2147483648.
Proof. intros H. unfold int_of_word. destruct (Z.ltb_spec z 2147483648); lia. Qed.

Lemma is_byte_word_at (bytes : list Z) (k : nat) :
  Forall is_byte bytes -> Forall is_byte (word_at bytes k).
Proof. intros H. unfold word_at. now apply Forall_take, Forall_drop. Qed.

Lemma is_byte_word_read (bytes : list Z) (k : nat) :
  Forall is_byte bytes -> Forall is_byte (word_read bytes k).
Proof.
  intros H. unfold word_read, stale_word.
  destruct (_ <? _)%nat; [now apply is_byte_word_at|].
  apply Forall_app. split; [|apply Forall_drop]; now apply is_byte_word_at.
Qed.

Lemma length_word_read (bytes : list Z) (k : nat) :
  (1 <= complete_words bytes)%nat -> length (word_read bytes k) = 4%nat.
Proof.
  intros H. unfold word_read. destruct (Nat.ltb_spec k (complete_words bytes)).
  - now apply length_word_at.
  - now apply length_stale_word.
Qed.

Lemma header_bounds (bytes : list Z) :
  Forall is_byte bytes ->
  Z.of_nat (header_height bytes) < 4294967296 /\
  Z.of_nat (header_width bytes) < 4294967296.
Proof.
  intros H. unfold header_height, header_width.
  pose proof (le_decode_word_bound (take 4 (drop 4 bytes))) as H1.
  pose proof (le_decode_word_bound (take 4 bytes)) as H2.
  rewrite !Z2Nat.id.
  - split; [apply H1|apply H2]; try (rewrite length_take; lia).
    + now apply Forall_take, Forall_drop.
    + now apply Forall_take.
  - apply H2; [now apply Forall_take|rewrite length_take; lia].
  - apply H1; [now apply Forall_take, Forall_drop|rewrite length_take; lia].
Qed.

Lemma read_cell_range (bytes : list Z) (k : nat) :
  Forall is_byte bytes -> (68 <= length bytes)%nat ->
  -2147483648 <= int_of_word (le_decode (word_read bytes k)) < 2147483648.
Proof.
  intros Hbytes Hlen. apply int_of_word_range. apply le_decode_word_bound.
  - now apply is_byte_word_read.
  - rewrite length_word_read by (now apply complete_words_positive). lia.
Qed.

(** A file of 68 bytes or more with sizes that are not 0 is read into a
    grid of these sizes, once the grid is obtained. *)
Lemma read_data_from_file_returns (host : machine) (files : string -> option (list Z))
    (filename : string)
    (bytes : list Z) :
  files filename = Some bytes -> Forall is_byte bytes -> (68 <= length bytes)%nat ->
  (0 < header_height bytes)%nat -> (0 < header_width bytes)%nat ->
  allocates host 125 (header_height bytes) (header_width bytes) = true ->
  exists data,
    read_data_from_file host files filename
    = Some (Value (data, header_height bytes, header_width bytes)) /\
    raw_grid data (header_height bytes) (header_width bytes) /\
    forall i j, (i < header_height bytes)%nat -> (j < header_width bytes)%nat ->
      raw data i j = int_of_word (le_decode (word_read bytes (i * header_width bytes + j))).
Proof.
  intros Hfile Hbytes Hlen Hh Hw Halloc.
  rewrite (read_data_from_file_bytes host files filename bytes Hfile Hbytes) by lia.
  destruct (Nat.eqb_spec (header_height bytes) 0); [lia|].
  destruct (Nat.eqb_spec (header_width bytes) 0); [lia|]. cbn [orb].
  rewrite Halloc. cbn [negb].
  destruct (read_cells_spec bytes (header_height bytes) (header_width bytes))
    as (data & -> & Hs & Hcells); [now apply complete_words_positive|].
  cbn [mbind option_bind snd]. exists data. split; [reflexivity|].
  destruct (header_bounds bytes Hbytes) as [Bh Bw].
  split; [split; [assumption|split; assumption]|assumption].
Qed.

(** Nothing else is read into a grid. *)
Lemma read_data_from_file_value_inv (host : machine) (files : string -> option (list Z))
    (filename : string)
    (bytes : list Z) (data : RawGrid) (h w : nat) :
  files filename = Some bytes -> Forall is_byte bytes ->
  read_data_from_file host files filename = Some (Value (data, h, w)) ->
  h = header_height bytes /\ w = header_width bytes /\
  (0 < h)%nat /\ (0 < w)%nat /\ (68 <= length bytes)%nat /\
  allocates host 125 h w = true.
Proof.
  intros Hfile Hbytes Hread.
  destruct (Nat.le_gt_cases 8 (length bytes)) as [H8|H8];
    [|now rewrite (read_data_from_file_no_header host files filename bytes Hfile H8) in Hread].
  rewrite (read_data_from_file_bytes host files filename bytes Hfile Hbytes H8) in Hread.
  destruct (Nat.eqb_spec (header_height bytes) 0) as [|Hh]; [discriminate|].
  destruct (Nat.eqb_spec (header_width bytes) 0) as [|Hw]; [discriminate|].
  cbn [orb] in Hread.
  destruct (allocates host 125 _ _) eqn:Halloc; [|discriminate]. cbn [negb] in Hread.
  destruct (Nat.eq_dec (complete_words bytes) 0%nat) as [Hc|Hc].
  { rewrite read_cells_none in Hread by (assumption || lia). discriminate. }
  destruct (read_cells bytes _ _) as [s|]; [|discriminate].
  cbn [mbind option_bind] in Hread. injection Hread as _ <- <-.
  split; [reflexivity|]. split; [reflexivity|]. split; [lia|]. split; [lia|].
  split; [|exact Halloc]. apply complete_words_positive. lia.
Qed.

(** With sizes that are not 0, a grid that cannot be obtained ends the
    call with [std::bad_alloc], whatever else the file holds. *)
Lemma read_data_from_file_bad_alloc (host : machine) (files : string -> option (list Z))
    (filename : string)
    (bytes : list Z) :
  files filename = Some bytes -> Forall is_byte bytes -> (8 <= length bytes)%nat ->
  (0 < header_height bytes)%nat -> (0 < header_width bytes)%nat ->
  allocates host 125 (header_height bytes) (header_width bytes) = false ->
  read_data_from_file host files filename = Some (Thrown (bad_alloc_what host)).
Proof.
  intros Hfile Hbytes Hlen Hh Hw Halloc.
  rewrite (read_data_from_file_bytes host files filename bytes Hfile Hbytes Hlen).
  destruct (Nat.eqb_spec (header_height bytes) 0); [lia|].
  destruct (Nat.eqb_spec (header_width bytes) 0); [lia|]. cbn [orb].
  now rewrite Halloc.
Qed.

(** X16: a file of 68 bytes or more whose two sizes are not 0 has one
    error only, [std::bad_alloc] when the grid of line 125 cannot be
    obtained. When it is obtained the file is read without any error,
    whatever its length: cell (i, j) is the 32-bit word at offset
    [64 + 4 * (i * w + j)], least significant byte first, converted to
    [int]; once the file has run out every remaining cell receives the
    same value, the last word read overwritten by the bytes that were
    left. The 56 bytes from offset 8 are never looked at. *)
Theorem read_file_cells (host : machine) (files : string -> option (list Z))
    (filename : string)
    (bytes : list Z) :
  files filename = Some bytes -> Forall is_byte bytes -> (68 <= length bytes)%nat ->
  (0 < header_height bytes)%nat -> (0 < header_width bytes)%nat ->
  if allocates host 125 (header_height bytes) (header_width bytes)
  then
    exists data,
      read_data_from_file host files filename
      = Some (Value (data, header_height bytes, header_width bytes)) /\
      shape data (header_height bytes) (header_width bytes) /\
      forall i j, (i < header_height bytes)%nat -> (j < header_width bytes)%nat ->
        ((i * header_width bytes + j < complete_words bytes)%nat ->
           raw data i j
           = int_of_word (le_decode (word_at bytes (i * header_width bytes + j)))) /\
        ((complete_words bytes <= i * header_width bytes + j)%nat ->
           raw data i j = int_of_word (le_decode (stale_word bytes)))
  else read_data_from_file host files filename = Some (Thrown (bad_alloc_what host)).
Proof.
  intros Hfile Hbytes Hlen Hh Hw.
  destruct (allocates host 125 _ _) eqn:Halloc;
    [|apply (read_data_from_file_bad_alloc host files filename bytes); assumption || lia].
  destruct (read_data_from_file_returns host files filename bytes Hfile Hbytes Hlen Hh Hw Halloc)
    as (data & Hread & [Hs _] & Hcells).
  exists data. split; [assumption|]. split; [assumption|].
  intros i j Hi Hj. rewrite Hcells by assumption. unfold word_read.
  destruct (Nat.ltb_spec (i * header_width bytes + j) (complete_words bytes));
    split; intros; try reflexivity; lia.
Qed.

(** X17: whatever [read_data_from_file] returns from a file of bytes is a
    grid that [process_data] accepts: rectangular, of the two sizes of
    the header, which are positive and below 2^32, with every reading in
    the range of [int]. *)
Theorem read_result_well_formed (host : machine) (files : string -> option (list Z))
    (filename : string)
    (bytes : list Z) (data : RawGrid) (h w : nat) :
  files filename = Some bytes -> Forall is_byte bytes ->
  read_data_from_file host files filename = Some (Value (data, h, w)) ->
  h = header_height bytes /\ w = header_width bytes /\
  (0 < h)%nat /\ (0 < w)%nat /\ raw_grid data h w /\
  forall i j, (i < h)%nat -> (j < w)%nat -> -2147483648 <= raw data i j < 2147483648.
Proof.
  intros Hfile Hbytes Hread.
  destruct (read_data_from_file_value_inv host files filename bytes data h w Hfile Hbytes Hread)
    as (-> & -> & Hh & Hw & Hlen & Halloc).
  destruct (read_data_from_file_returns host files filename bytes Hfile Hbytes Hlen Hh Hw Halloc)
    as (data' & Hread' & Hraw & Hcells).
  rewrite Hread' in Hread. injection Hread as ->.
  split; [reflexivity|]. split; [reflexivity|]. split; [assumption|]. split; [assumption|].
  split; [assumption|].
  intros i j Hi Hj. rewrite Hcells by assumption. now apply read_cell_range.
Qed.

(** X18: a size of 0 in the header is reported as an error, whatever
    follows in the file. *)
Theorem read_zero_dimension (host : machine) (files : string -> option (list Z))
    (filename : string)
    (bytes : list Z) :
  files filename = Some bytes -> Forall is_byte bytes -> (8 <= length bytes)%nat ->
  header_height bytes = 0%nat \/ header_width bytes = 0%nat ->
  read_data_from_file host files filename = Some (Thrown zero_dimensions).
Proof.
  intros Hfile Hbytes Hlen Hzero.
  rewrite (read_data_from_file_bytes host files filename bytes Hfile Hbytes Hlen).
  destruct Hzero as [-> | ->]; [reflexivity|]. now rewrite orb_true_r.
Qed.

(** X19: reading a file that exists is defined exactly when the file
    holds the two sizes and, unless one of them is 0 or the grid of line
    125 cannot be obtained, at least one whole word at offset 64: a file
    cut short before that point is not reported, its missing bytes are
    used without having been set. The two errors come first: a size of 0
    and [std::bad_alloc] are thrown before the first reading is
    read. *)
Theorem read_defined_iff (host : machine) (files : string -> option (list Z))
    (filename : string)
    (bytes : list Z) :
  files filename = Some bytes -> Forall is_byte bytes ->
  is_Some (read_data_from_file host files filename) <->
  (8 <= length bytes)%nat /\
  (header_height bytes = 0%nat \/ header_width bytes = 0%nat \/
   allocates host 125 (header_height bytes) (header_width bytes) = false \/
   (68 <= length bytes)%nat).
Proof.
  intros Hfile Hbytes. split.
  - intros [r Hr].
    destruct (Nat.le_gt_cases 8 (length bytes)) as [H8|H8];
      [|now rewrite (read_data_from_file_no_header host files filename bytes Hfile H8) in Hr].
    split; [assumption|].
    rewrite (read_data_from_file_bytes host files filename bytes Hfile Hbytes H8) in Hr.
    destruct (Nat.eqb_spec (header_height bytes) 0) as [|Hh]; [now left|].
    destruct (Nat.eqb_spec (header_width bytes) 0) as [|Hw]; [now right; left|].
    cbn [orb] in Hr. right. right.
    destruct (allocates host 125 _ _); [right|now left]. cbn [negb] in Hr.
    apply complete_words_positive.
    destruct (Nat.eq_dec (complete_words bytes) 0%nat) as [Hc|Hc]; [|lia].
    rewrite read_cells_none in Hr by (assumption || lia). discriminate.
  - intros [H8 H].
    rewrite (read_data_from_file_bytes host files filename bytes Hfile Hbytes H8).
    destruct (Nat.eqb_spec (header_height bytes) 0) as [|Hh]; [cbn; eauto|].
    destruct (Nat.eqb_spec (header_width bytes) 0) as [|Hw]; [cbn; eauto|].
    cbn [orb]. destruct H as [H|[H|[H|H]]]; [lia|lia|rewrite H; cbn; eauto|].
    destruct (allocates host 125 _ _); [cbn [negb]|cbn; eauto].
    destruct (read_cells_spec bytes (header_height bytes) (header_width bytes))
      as (data & -> & _); [now apply complete_words_positive|].
    cbn [mbind option_bind]. eauto.
Qed.

(** ** Files in the expected format *)

Lemma le_decode_encode_word (z : Z) : le_decode (encode_word z) = z mod 4294967296.
Proof.
  unfold le_decode, encode_word. cbn [fold_right].
  Z.to_euclidean_division_equations. lia.
Qed.

Lemma int_of_word_decode (z : Z) :
  -2147483648 <= z < 2147483648 -> int_of_word (le_decode (encode_word z)) = z.
Proof.
  intros H. rewrite le_decode_encode_word. unfold int_of_word.
  destruct (Z.ltb_spec (z mod 4294967296) 2147483648);
    Z.to_euclidean_division_equations; lia.
Qed.

Lemma length_encoded_words (cells : list Z) :
  length (flat_map encode_word cells) = (4 * length cells)%nat.
Proof. induction cells as [|z cells IH]; [reflexivity|]. cbn [flat_map]. rewrite length_app, IH. cbn. lia. Qed.

Lemma word_of_encoded_words (cells trailing : list Z) (k : nat) (z : Z) :
  cells !! k = Some z ->
  take 4 (drop (4 * k) (flat_map encode_word cells ++ trailing)) = encode_word z.
Proof.
  revert k. induction cells as [|y cells IH]; intros k Hk; [discriminate|].
  destruct k as [|k].
  - injection Hk as ->. reflexivity.
  - cbn [lookup list_lookup] in Hk. replace (4 * S k)%nat with (4 + 4 * k)%nat by lia.
    cbn [flat_map]. rewrite <- app_assoc.
    change (encode_word y ++ flat_map encode_word cells ++ trailing)
      with ([y mod 256; y / 256 mod 256; y / 65536 mod 256; y / 16777216 mod 256]
            ++ (flat_map encode_word cells ++ trailing)).
    cbn [app Nat.add drop]. now apply IH.
Qed.

Lemma concat_lookup (data : RawGrid) (h w i j : nat) :
  shape data h w -> (i < h)%nat -> (j < w)%nat ->
  concat data !! (i * w + j)%nat = Some (raw data i j).
Proof.
  revert h i. induction data as [|row data IH]; intros h i [Hlen Hrows] Hi Hj.
  - simpl in Hlen. lia.
  - apply Forall_cons in Hrows as [Hrow Hrows]. cbn [concat].
    destruct i as [|i].
    + rewrite lookup_app_l by (simpl; lia). unfold raw. cbn.
      destruct (lookup_lt_is_Some_2 row j) as [x Hx]; [lia|]. now rewrite Hx.
    + rewrite lookup_app_r by (simpl; lia).
      replace (S i * w + j - length row)%nat with (i * w + j)%nat by (simpl; lia).
      simpl in Hlen. rewrite (IH (length data) i); [reflexivity|now split|lia|assumption].
Qed.

Lemma length_concat_shape (data : RawGrid) (h w : nat) :
  shape data h w -> length (concat data) = (h * w)%nat.
Proof.
  revert h. induction data as [|row data IH]; intros h [Hlen Hrows].
  - simpl in Hlen. subst h. reflexivity.
  - apply Forall_cons in Hrows as [Hrow Hrows]. cbn [concat]. rewrite length_app.
    simpl in Hlen. subst h. rewrite (IH (length data)) by now split. lia.
Qed.

(** Two grids of the same shape with the same cells are equal. *)
Lemma raw_grid_ext (g1 g2 : RawGrid) (h w : nat) :
  shape g1 h w -> shape g2 h w ->
  (forall i j, (i < h)%nat -> (j < w)%nat -> raw g1 i j = raw g2 i j) ->
  g1 = g2.
Proof.
  intros H1 H2 Hraw. apply list_eq_same_length with h; [apply H2|apply H1|].
  intros i r1 r2 Hi Hr1 Hr2.
  pose proof H1 as [_ F1]. pose proof H2 as [_ F2].
  rewrite Forall_lookup in F1, F2.
  pose proof (F1 i r1 Hr1) as L1. pose proof (F2 i r2 Hr2) as L2.
  apply list_eq_same_length with w; [assumption|assumption|].
  intros j x y Hj Hx Hy.
  specialize (Hraw i j Hi Hj). unfold raw in Hraw.
  rewrite Hr1, Hr2 in Hraw. simpl in Hraw. rewrite Hx, Hy in Hraw. exact Hraw.
Qed.

Lemma encode_file_words (width height : nat) (reserved trailing : list Z) (data : RawGrid)
    (k : nat) (z : Z) :
  length reserved = 56%nat -> concat data !! k = Some z ->
  word_at (encode_file width height reserved data ++ trailing) k = encode_word z.
Proof.
  intros Hres Hk. unfold word_at, encode_file.
  rewrite <- !app_assoc.
  rewrite (app_assoc (encode_word _)), (app_assoc (_ ++ _) reserved).
  rewrite drop_app_ge by (rewrite !length_app, Hres; cbn; lia).
  rewrite !length_app, Hres. cbn [encode_word length].
  replace (64 + 4 * k - (4 + 4 + 56))%nat with (4 * k)%nat by lia.
  now apply word_of_encoded_words.
Qed.

Lemma encode_file_header (width height : nat) (reserved trailing : list Z) (data : RawGrid) :
  Z.of_nat width < 4294967296 -> Z.of_nat height < 4294967296 ->
  header_width (encode_file width height reserved data ++ trailing) = width /\
  header_height (encode_file width height reserved data ++ trailing) = height.
Proof.
  intros Hw Hh. unfold header_width, header_height, encode_file.
  rewrite <- !app_assoc.
  change (take 4 (encode_word (Z.of_nat width) ++ _)) with (encode_word (Z.of_nat width)).
  change (drop 4 (encode_word (Z.of_nat width) ++ ?l)) with l.
  change (take 4 (encode_word (Z.of_nat height) ++ _)) with (encode_word (Z.of_nat height)).
  rewrite !le_decode_encode_word, !Z.mod_small by lia. lia.
Qed.

Lemma encode_file_header_nonneg (width height : nat) (reserved trailing : list Z)
    (data : RawGrid) :
  0 <= le_decode (take 4 (encode_file width height reserved data ++ trailing)) /\
  0 <= le_decode (take 4 (drop 4 (encode_file width height reserved data ++ trailing))).
Proof.
  unfold encode_file. rewrite <- !app_assoc.
  change (take 4 (encode_word (Z.of_nat width) ++ _)) with (encode_word (Z.of_nat width)).
  change (drop 4 (encode_word (Z.of_nat width) ++ ?l)) with l.
  change (take 4 (encode_word (Z.of_nat height) ++ _)) with (encode_word (Z.of_nat height)).
  rewrite !le_decode_encode_word.
  split; apply Z.mod_pos_bound; lia.
Qed.

Lemma length_encode_file (width height : nat) (reserved : list Z) (data : RawGrid) (h w : nat) :
  length reserved = 56%nat -> shape data h w ->
  length (encode_file width height reserved data) = (64 + 4 * (h * w))%nat.
Proof.
  intros Hres Hs. unfold encode_file.
  rewrite !length_app, Hres, length_encoded_words, (length_concat_shape data h w Hs).
  cbn. lia.
Qed.

(** X20: round trip. A grid of [int] readings written in the expected
    format is read back unchanged, with its two sizes, whatever the 14
    skipped words hold and whatever follows the readings in the file,
    on a machine that obtains the grid at line 125. *)
Theorem read_round_trip (host : machine) (files : string -> option (list Z))
    (filename : string)
    (data : RawGrid) (h w : nat) (reserved trailing : list Z) :
  raw_grid data h w -> (0 < h)%nat -> (0 < w)%nat ->
  (forall i j, (i < h)%nat -> (j < w)%nat -> -2147483648 <= raw data i j < 2147483648) ->
  length reserved = 56%nat ->
  files filename = Some (encode_file w h reserved data ++ trailing) ->
  allocates host 125 h w = true ->
  read_data_from_file host files filename = Some (Value (data, h, w)).
Proof.
  intros (Hs & Bh & Bw) Hh Hw Hint Hres Hfile Halloc.
  set (bytes := encode_file w h reserved data ++ trailing) in *.
  assert (Hlen : length bytes = (64 + 4 * (h * w) + length trailing)%nat).
  { unfold bytes. now rewrite length_app, (length_encode_file w h reserved data h w). }
  destruct (encode_file_header w h reserved trailing data Bw Bh) as [Ew Eh]. fold bytes in Ew, Eh.
  destruct (encode_file_header_nonneg w h reserved trailing data) as [Nw Nh].
  fold bytes in Nw, Nh.
  rewrite (read_data_from_file_header host files filename bytes Hfile) by (assumption || lia).
  rewrite Ew, Eh.
  destruct (Nat.eqb_spec h 0); [lia|]. destruct (Nat.eqb_spec w 0); [lia|]. cbn [orb].
  rewrite Halloc. cbn [negb].
  pose proof (complete_words_spec bytes) as Hc.
  destruct (read_cells_spec bytes h w) as (data' & -> & Hs' & Hcells); [nia|].
  cbn [mbind option_bind snd]. do 4 f_equal.
  apply (raw_grid_ext data' data h w Hs' Hs). intros i j Hi Hj.
  rewrite Hcells by assumption. unfold word_read.
  pose proof (linear_index_bound h w i j Hi Hj).
  destruct (Nat.ltb_spec (i * w + j) (complete_words bytes)); [|nia].
  unfold bytes. rewrite (encode_file_words w h reserved trailing data _ (raw data i j) Hres)
    by now apply (concat_lookup data h w).
  apply int_of_word_decode. now apply Hint.
Qed.

Lemma is_byte_encode_word (z : Z) : Forall is_byte (encode_word z).
Proof.
  unfold encode_word.
  repeat (apply Forall_cons; split; [unfold is_byte; apply Z.mod_pos_bound; lia|]).
  constructor.
Qed.

Lemma is_byte_encode_file (width height : nat) (reserved : list Z) (data : RawGrid) :
  Forall is_byte reserved -> Forall is_byte (encode_file width height reserved data).
Proof.
  intros Hres. unfold encode_file. rewrite !Forall_app.
  split; [apply is_byte_encode_word|]. split; [apply is_byte_encode_word|].
  split; [assumption|].
  induction (concat data) as [|z cells IH]; [constructor|].
  cbn [flat_map]. apply Forall_app. split; [apply is_byte_encode_word|assumption].
Qed.

Lemma is_byte_small_file : Forall is_byte small_file.
Proof. apply is_byte_encode_file, Forall_replicate. unfold is_byte. lia. Qed.

Lemma raw_grid_small : raw_grid [[3; -1]] 1 2.
Proof.
  split; [|split; lia]. split; [reflexivity|].
  apply Forall_cons. split; [reflexivity|constructor].
Qed.

Lemma read_file_cells_witness :
  (exists data,
     read_data_from_file roomy (one_file "block.int" short_file) "block.int"
     = Some (Value (data, header_height short_file, header_width short_file)) /\
     shape data (header_height short_file) (header_width short_file) /\
     forall i j, (i < header_height short_file)%nat -> (j < header_width short_file)%nat ->
       ((i * header_width short_file + j < complete_words short_file)%nat ->
          raw data i j
          = int_of_word (le_decode (word_at short_file (i * header_width short_file + j)))) /\
       ((complete_words short_file <= i * header_width short_file + j)%nat ->
          raw data i j = int_of_word (le_decode (stale_word short_file)))) /\
  read_data_from_file (cramped 1) (one_file "block.int" short_file) "block.int"
  = Some (Thrown "std::bad_alloc").
Proof.
  split.
  - refine (read_file_cells roomy (one_file "block.int" short_file) "block.int" short_file
              _ _ _ _ _).
    + reflexivity.
    + apply Forall_take, is_byte_small_file.
    + vm_compute. lia.
    + vm_compute. lia.
    + vm_compute. lia.
  - refine (read_file_cells (cramped 1) (one_file "block.int" short_file) "block.int"
              short_file _ _ _ _ _).
    + reflexivity.
    + apply Forall_take, is_byte_small_file.
    + vm_compute. lia.
    + vm_compute. lia.
    + vm_compute. lia.
Defined.

Lemma read_round_trip_witness :
  read_data_from_file roomy (one_file "block.int" (small_file ++ [1; 2; 3])) "block.int"
  = Some (Value ([[3; -1]], 1%nat, 2%nat)).
Proof.
  apply (read_round_trip roomy (one_file "block.int" (small_file ++ [1; 2; 3])) "block.int"
           [[3; -1]] 1 2 (replicate 56 7) [1; 2; 3]).
  - exact raw_grid_small.
  - lia.
  - lia.
  - intros i j Hi Hj.
    assert (i = 0%nat) as -> by lia.
    assert (j = 0%nat \/ j = 1%nat) as [-> | ->] by lia.
    + change (raw [[3; -1]] 0 0) with 3. lia.
    + change (raw [[3; -1]] 0 1) with (-1). lia.
  - reflexivity.
  - reflexivity.
  - reflexivity.
Defined.

Lemma read_result_well_formed_witness :
  1%nat = header_height small_file /\ 2%nat = header_width small_file /\
  (0 < 1)%nat /\ (0 < 2)%nat /\ raw_grid [[3; -1]] 1 2 /\
  forall i j, (i < 1)%nat -> (j < 2)%nat -> -2147483648 <= raw [[3; -1]] i j < 2147483648.
Proof.
  apply (read_result_well_formed roomy (one_file "block.int" small_file) "block.int"
           small_file).
  - reflexivity.
  - exact is_byte_small_file.
  - vm_compute. reflexivity.
Defined.

Lemma read_zero_dimension_witness :
  read_data_from_file (cramped 0)
    (one_file "block.int" (encode_file 2 0 (replicate 56 7) [[3; -1]])) "block.int"
  = Some (Thrown zero_dimensions).
Proof.
  apply (read_zero_dimension _ _ "block.int" (encode_file 2 0 (replicate 56 7) [[3; -1]])).
  - reflexivity.
  - apply is_byte_encode_file, Forall_replicate. unfold is_byte. lia.
  - vm_compute. lia.
  - left. reflexivity.
Defined.

Lemma read_defined_iff_witness :
  (is_Some (read_data_from_file roomy (one_file "block.int" (take 66 small_file))
              "block.int") <->
   (8 <= length (take 66 small_file))%nat /\
   (header_height (take 66 small_file) = 0%nat \/
    header_width (take 66 small_file) = 0%nat \/
    true = false \/ (68 <= length (take 66 small_file))%nat)) /\
  (is_Some (read_data_from_file (cramped 1) (one_file "block.int" (take 66 small_file))
              "block.int") <->
   (8 <= length (take 66 small_file))%nat /\
   (header_height (take 66 small_file) = 0%nat \/
    header_width (take 66 small_file) = 0%nat \/
    false = false \/ (68 <= length (take 66 small_file))%nat)).
Proof.
  split.
  - apply (read_defined_iff roomy (one_file "block.int" (take 66 small_file)) "block.int").
    + reflexivity.
    + apply Forall_take, is_byte_small_file.
  - apply (read_defined_iff (cramped 1) (one_file "block.int" (take 66 small_file))
             "block.int").
    + reflexivity.
    + apply Forall_take, is_byte_small_file.
Defined.

(** * The program *)

Lemma read_data_from_file_thrown (host : machine) (files : string -> option (list Z))
    (filename what : string) :
  read_data_from_file host files filename = Some (Thrown what) ->
  what = could_not_open filename \/ what = zero_dimensions \/
  (what = bad_alloc_what host /\
   exists rows columns, allocates host 125 rows columns = false).
Proof.
  unfold read_data_from_file. destruct (files filename) as [bytes|]; [|intros [= <-]; now left].
  destruct (stream_read _ _) as [inf width]. destruct (stream_read _ _) as [inf' height].
  destruct (unsigned_value height) as [h|]; [|discriminate]. cbn [mbind option_bind].
  destruct (h =? 0); cbn [mbind option_bind]; [intros [= <-]; now right; left|].
  destruct (unsigned_value width) as [w|]; [|discriminate]. cbn [mbind option_bind].
  destruct (w =? 0); [intros [= <-]; now right; left|].
  destruct (allocates host 125 _ _) eqn:Halloc; cbn [negb].
  - destruct (for_range _ _ _ _); discriminate.
  - intros [= <-]. right. right. eauto.
Qed.

Ltac one_of_lines := cbn; repeat (first [left; reflexivity | right]).

Lemma process_data_throw (data : RawGrid) (what : string) :
  process_data data = Throw what -> what = not_enough_rows \/ what = not_enough_columns.
Proof.
  unfold process_data. destruct (_ <? _)%nat; [intros [= <-]; now left|].
  destruct (betathorne_reference _ _ _) as [pd med].
  destruct (_ <? _)%nat; [intros [= <-]; now right|].
  destruct (detector_reference _ _ _). discriminate.
Qed.

(** [process_data] on a machine: either its three vectors play no part,
    or one of them is not obtained. *)
Lemma process_data_on_cases (host : machine) (data : RawGrid) :
  process_data_on host data = process_data data \/
  (process_data_on host data = Throw (bad_alloc_what host) /\
   exists line rows columns,
     In line [141; 158; 187]%nat /\ allocates host line rows columns = false).
Proof.
  unfold process_data_on. cbv zeta.
  destruct (allocates host 141 _ _) eqn:H141; cbn [negb];
    [|right; split; [reflexivity|]; do 3 eexists; split; [|exact H141]; one_of_lines].
  destruct (_ <? BETA_THORNE_ROWS_COUNT)%nat; [now left|].
  destruct (allocates host 158 _ _) eqn:H158; cbn [negb];
    [|right; split; [reflexivity|]; do 3 eexists; split; [|exact H158]; one_of_lines].
  destruct (_ <? MEDIAN_DETECTOR_COUNT)%nat; [now left|].
  destruct (allocates host 187 _ _) eqn:H187; cbn [negb];
    [|right; split; [reflexivity|]; do 3 eexists; split; [|exact H187]; one_of_lines].
  now left.
Qed.

Lemma process_data_on_returns (host : machine) (data : RawGrid) (g : Grid) :
  process_data_on host data = Returns g -> process_data data = Returns g.
Proof.
  intros H. destruct (process_data_on_cases host data) as [E|[E _]];
    rewrite E in H; [assumption|discriminate].
Qed.

(** On a well-formed grid the vectors are asked for in the order of the
    source: line 141, then line 158 once there are 15 rows, then line
    187 once there are 50 columns as well. *)
Lemma process_data_on_obtained (host : machine) (data : RawGrid) (m n : nat) :
  raw_grid data m n -> (0 < m)%nat ->
  allocates host 141 m n = true ->
  ((15 <= m)%nat -> allocates host 158 n 1 = true) ->
  ((15 <= m)%nat -> (50 <= n)%nat -> allocates host 187 m 1 = true) ->
  process_data_on host data = process_data data.
Proof.
  intros Hraw Hpos H141 H158 H187.
  pose proof (raw_grid_width data m n Hraw Hpos) as Hlen.
  destruct Hraw as ([Hm Hn] & Hm32 & Hn32).
  unfold process_data_on. rewrite Hm, Hlen. cbv zeta.
  rewrite !to_unsigned_small by assumption.
  rewrite H141. cbn [negb].
  destruct (Nat.ltb_spec m BETA_THORNE_ROWS_COUNT) as [|H15]; [reflexivity|].
  unfold BETA_THORNE_ROWS_COUNT in H15. rewrite (H158 H15). cbn [negb].
  destruct (Nat.ltb_spec n MEDIAN_DETECTOR_COUNT) as [|H50]; [reflexivity|].
  unfold MEDIAN_DETECTOR_COUNT in H50. now rewrite (H187 H15 H50).
Qed.

(** X21: what a run of [main] can end with. Either the exit code is 1 and
    [std::cerr] received one line, [An error occurred: ] followed by the
    [what()] of the exception and a line terminator: one of the four
    messages of the program, or that of [std::bad_alloc] when a vector
    was not obtained. No file has been written by then, except that the
    normalized view has when [choice] is 1 and it is a vector of the
    thickness view (line 239 or 242) that was not obtained. Or the exit
    code is 0, nothing went to [std::cerr], and the files written are the
    normalized view followed, when [choice] is 1 and only then, by the
    thickness view. *)
Theorem main_outcome (host : machine) (files : string -> option (list Z))
    (log : float -> float) (choice : Z) (r : run) :
  main host files log choice = Some r ->
  (exit_code r = 1 /\
   exists what,
     cerr r = Some (String.append "An error occurred: " (String.append what endl)) /\
     ((written r = [] /\
       (what = could_not_open "block.int" \/ what = zero_dimensions \/
        what = not_enough_rows \/ what = not_enough_columns \/
        (what = bad_alloc_what host /\
         exists line rows columns,
           In line [125; 141; 158; 187; 215]%nat /\
           allocates host line rows columns = false))) \/
      (choice = 1 /\ (written r).*1 = ["normalized_image.bmp"%string] /\
       what = bad_alloc_what host /\
       exists line rows columns,
         In line [239; 242]%nat /\ allocates host line rows columns = false))) \/
  (exit_code r = 0 /\ cerr r = None /\
   (written r).*1
   = if choice =? 1 then ["normalized_image.bmp"%string; "thickness_image.bmp"%string]
     else ["normalized_image.bmp"%string]).
Proof.
  unfold main. intros H.
  destruct (read_data_from_file host files "block.int") as [[[[data m] n]|what]|] eqn:Hread;
    [| |discriminate]; cbn [mbind option_bind] in H.
  - destruct (process_data_on host data) as [g|what] eqn:Hp; cbv zeta in H.
    + destruct (allocates host 215 _ _) eqn:H215; cbn [negb] in H.
      * destruct (create_and_save_image_file initial_statics g) as [[normalized st]|];
          [|discriminate]. cbn [mbind option_bind] in H.
        destruct (Z.eqb_spec choice 1) as [Hc|Hc].
        -- destruct (allocates host 239 _ _) eqn:H239; cbn [negb] in H.
           ++ destruct (allocates host 242 _ _) eqn:H242; cbn [negb] in H.
              ** destruct (calculate_and_save_thickness_file log st g)
                   as [[thickness st']|]; [|discriminate].
                 cbn [mbind option_bind] in H. injection H as <-. right. auto.
              ** injection H as <-. left. split; [reflexivity|].
                 exists (bad_alloc_what host). split; [reflexivity|]. right.
                 split; [assumption|]. split; [reflexivity|]. split; [reflexivity|].
                 do 3 eexists. split; [|exact H242]. one_of_lines.
           ++ injection H as <-. left. split; [reflexivity|].
              exists (bad_alloc_what host). split; [reflexivity|]. right.
              split; [assumption|]. split; [reflexivity|]. split; [reflexivity|].
              do 3 eexists. split; [|exact H239]. one_of_lines.
        -- injection H as <-. right. auto.
      * injection H as <-. left. split; [reflexivity|].
        exists (bad_alloc_what host). split; [reflexivity|]. left.
        split; [reflexivity|]. do 4 right. split; [reflexivity|].
        do 3 eexists. split; [|exact H215]. one_of_lines.
    + injection H as <-. left. split; [reflexivity|].
      exists what. split; [reflexivity|]. left. split; [reflexivity|].
      destruct (process_data_on_cases host data) as [E|[E (line & rows & columns & Hl & Ha)]];
        rewrite E in Hp.
      * apply process_data_throw in Hp. tauto.
      * injection Hp as <-. do 4 right. split; [reflexivity|].
        exists line, rows, columns. split; [|assumption]. cbn in Hl |- *. tauto.
  - injection H as <-. left. split; [reflexivity|].
    exists what. split; [reflexivity|]. left. split; [reflexivity|].
    apply read_data_from_file_thrown in Hread
      as [->|[->|[-> (rows & columns & Ha)]]]; [tauto|tauto|].
    do 4 right. split; [reflexivity|].
    exists 125%nat, rows, columns. split; [|assumption]. one_of_lines.
Qed.

(** X22: an input that cannot be used. When block.int cannot be opened,
    or holds a height or a width of 0, the run ends with exit code 1,
    writes no file, and [std::cerr] receives one line: the message of
    [read_data_from_file] behind [An error occurred: ], followed by the
    line terminator of [std::endl]. No vector has been asked for by
    then, so this holds on every machine. *)
Theorem main_reports_unreadable_input (host : machine) (files : string -> option (list Z))
    (log : float -> float) (choice : Z) :
  (files "block.int"%string = None ->
   main host files log choice
   = Some (mkRun 1
             (Some (String.append "An error occurred: Error: could not open file block.int"
                      (String (Ascii.ascii_of_nat 10) EmptyString)))
             [])) /\
  (forall bytes, files "block.int"%string = Some bytes -> Forall is_byte bytes ->
     (8 <= length bytes)%nat ->
     header_height bytes = 0%nat \/ header_width bytes = 0%nat ->
     main host files log choice
     = Some (mkRun 1
               (Some (String.append "An error occurred: Error: image dimensions cannot be zero."
                        (String (Ascii.ascii_of_nat 10) EmptyString)))
               [])).
Proof.
  split.
  - intros Hfile. unfold main, read_data_from_file. rewrite Hfile. reflexivity.
  - intros bytes Hfile Hbytes Hlen Hzero. unfold main.
    rewrite (read_data_from_file_bytes host files "block.int" bytes Hfile Hbytes Hlen).
    destruct Hzero as [-> | ->]; [reflexivity|]. now rewrite orb_true_r.
Qed.

Lemma main_reports_unreadable_input_witness :
  main (cramped 0) (fun _ => None) (fun _ => 0%float) 0
  = Some (mkRun 1
            (Some (String.append "An error occurred: Error: could not open file block.int"
                     (String (Ascii.ascii_of_nat 10) EmptyString)))
            [])
  /\
  main (cramped 0) (one_file "block.int" (encode_file 2 0 (replicate 56 7) [[3; -1]]))
    (fun _ => 0%float) 0
  = Some (mkRun 1
            (Some (String.append "An error occurred: Error: image dimensions cannot be zero."
                     (String (Ascii.ascii_of_nat 10) EmptyString)))
            []).
Proof.
  split.
  - apply (proj1 (main_reports_unreadable_input (cramped 0) (fun _ => None)
                    (fun _ => 0%float) 0)).
    reflexivity.
  - apply (proj2 (main_reports_unreadable_input (cramped 0)
                    (one_file "block.int" (encode_file 2 0 (replicate 56 7) [[3; -1]]))
                    (fun _ => 0%float) 0)
             (encode_file 2 0 (replicate 56 7) [[3; -1]])).
    + reflexivity.
    + apply is_byte_encode_file, Forall_replicate. unfold is_byte. lia.
    + vm_compute. lia.
    + left. reflexivity.
Defined.

(** X23: an input of fewer than 15 rows or fewer than 50 columns, on a
    machine that obtains the vectors built before the check that fails
    (those of lines 125 and 141 before the rows are checked, that of
    line 158 as well before the columns are), makes the run end with
    exit code 1 and the message of [process_data] on [std::cerr], behind
    [An error occurred: ] and before a line terminator, without any file
    written; the rows are checked first. The readings play no part, and
    neither does the length of the file past its first 68 bytes. *)
Theorem main_rejects_small_images (host : machine) (files : string -> option (list Z))
    (log : float -> float) (choice : Z) (bytes : list Z) :
  files "block.int"%string = Some bytes -> Forall is_byte bytes ->
  (68 <= length bytes)%nat ->
  (0 < header_height bytes)%nat -> (0 < header_width bytes)%nat ->
  (header_height bytes < 15)%nat \/ (header_width bytes < 50)%nat ->
  allocates host 125 (header_height bytes) (header_width bytes) = true ->
  allocates host 141 (header_height bytes) (header_width bytes) = true ->
  ((15 <= header_height bytes)%nat -> allocates host 158 (header_width bytes) 1 = true) ->
  main host files log choice
  = Some (mkRun 1
            (Some (String.append "An error occurred: "
                     (String.append
                        (if (header_height bytes <? 15)%nat
                         then "Error: Not enough rows for beta-thorne calibration."
                         else "Error: Not enough columns for detector calibration.")
                        (String (Ascii.ascii_of_nat 10) EmptyString))))
            []).
Proof.
  intros Hfile Hbytes Hlen Hh Hw Hsmall H125 H141 H158.
  destruct (read_data_from_file_returns host files "block.int" bytes Hfile Hbytes Hlen Hh Hw
              H125) as (data & Hread & Hraw & _).
  unfold main. rewrite Hread. cbn [mbind option_bind].
  rewrite (process_data_on_obtained host data _ _ Hraw Hh H141 H158) by (intros; lia).
  destruct (Nat.ltb_spec (header_height bytes) 15) as [H15|H15].
  - now rewrite (process_data_throws_rows data _ _ Hraw Hh H15).
  - rewrite (process_data_throws_columns data _ _ Hraw H15); [reflexivity|lia].
Qed.

(** The files of the two views start with the headers of the grid. *)
Lemma view_file_header (st st' : statics) (g : Grid) (m n : nat) (image file : list Z) :
  image_grid g m n -> clean_statics st ->
  generateBitmapImage st image
    (int_of_unsigned (to_unsigned (length g)))
    (int_of_unsigned (to_unsigned (length (default [] (g !! 0%nat))))) = Some (file, st') ->
  bitmap_header m n file /\ clean_statics st'.
Proof.
  intros Hg Hclean Hgen.
  destruct (image_grid_int_sizes g m n Hg) as [Em En]. rewrite Em, En in Hgen.
  split.
  - apply (generateBitmapImage_header st st' image file m n Hclean); [|assumption].
    destruct Hg as (_ & Hm & Hn & Hfits). nia.
  - exact (generateBitmapImage_clean _ _ _ _ _ _ Hclean Hgen).
Qed.

(** X24: when the run ends with exit code 0 the input had at least 15
    rows and 50 columns, and every file written starts with headers that
    describe an image of the sizes read from the input, 24 bits per
    pixel, and has the length they announce; the headers of the second
    file are not disturbed by the [static] arrays having served for the
    first. This holds on every machine. *)
Theorem main_files_describe_input (host : machine) (files : string -> option (list Z))
    (log : float -> float) (choice : Z) (bytes : list Z) (r : run) :
  files "block.int"%string = Some bytes -> Forall is_byte bytes ->
  Z.of_nat (3 * (header_height bytes * header_width bytes)) < 2147483648 ->
  main host files log choice = Some r -> exit_code r = 0 ->
  (15 <= header_height bytes)%nat /\ (50 <= header_width bytes)%nat /\
  Forall (fun f => bitmap_header (header_height bytes) (header_width bytes) f.2) (written r).
Proof.
  intros Hfile Hbytes Hfits Hmain Hexit. unfold main in Hmain.
  destruct (read_data_from_file host files "block.int") as [[[[data m] n]|what]|] eqn:Hread;
    [| |discriminate]; cbn [mbind option_bind] in Hmain;
    [|injection Hmain as <-; discriminate].
  destruct (read_data_from_file_value_inv host files "block.int" bytes data m n Hfile Hbytes
              Hread) as (-> & -> & Hh & Hw & Hlen & Halloc).
  destruct (read_data_from_file_returns host files "block.int" bytes Hfile Hbytes Hlen Hh Hw
              Halloc) as (data' & Hread' & Hraw & _).
  rewrite Hread' in Hread. injection Hread as ->.
  set (h := header_height bytes) in *. set (w := header_width bytes) in *.
  destruct (process_data_on host data) as [g0|what] eqn:Hon;
    [|injection Hmain as <-; discriminate].
  apply process_data_on_returns in Hon.
  destruct (Nat.ltb_spec h 15) as [H15|H15].
  { rewrite (process_data_throws_rows data _ _ Hraw Hh H15) in Hon. discriminate. }
  destruct (Nat.ltb_spec w 50) as [H50|H50].
  { rewrite (process_data_throws_columns data _ _ Hraw H15 H50) in Hon. discriminate. }
  split; [assumption|]. split; [assumption|].
  rewrite (process_data_returns data h w Hraw H15 H50) in Hon. injection Hon as <-.
  set (g := after_column_division data h w) in *.
  assert (image_grid g h w) as Hg.
  { split; [|split; [lia|split; [lia|assumption]]].
    apply after_column_division_spec; assumption. }
  cbv zeta in Hmain.
  destruct (negb (allocates host 215 _ _)); [injection Hmain as <-; discriminate|].
  unfold create_and_save_image_file, calculate_and_save_thickness_file in Hmain.
  destruct (create_and_save_image g) as [image|]; [|discriminate].
  cbn [mbind option_bind] in Hmain.
  destruct (generateBitmapImage initial_statics image _ _) as [[normalized st]|] eqn:Hgen;
    [|discriminate]. cbn [mbind option_bind] in Hmain.
  destruct (view_file_header _ _ g h w image normalized Hg clean_initial_statics Hgen)
    as [Hn Hclean].
  destruct (choice =? 1).
  - destruct (negb (allocates host 239 _ _)); [injection Hmain as <-; discriminate|].
    destruct (negb (allocates host 242 _ _)); [injection Hmain as <-; discriminate|].
    destruct (calculate_and_save_thickness log g) as [image'|]; [|discriminate].
    cbn [mbind option_bind] in Hmain.
    destruct (generateBitmapImage st image' _ _) as [[thickness st']|] eqn:Hgen';
      [|discriminate]. cbn [mbind option_bind] in Hmain.
    destruct (view_file_header _ _ g h w image' thickness Hg Hclean Hgen') as [Ht _].
    injection Hmain as <-. cbn [written].
    apply Forall_cons. split; [exact Hn|]. apply Forall_cons. split; [exact Ht|constructor].
  - injection Hmain as <-. cbn [written].
    apply Forall_cons. split; [exact Hn|constructor].
Qed.

Lemma main_outcome_witness :
  exit_code starved_run = 1 /\
  cerr starved_run
  = Some (String.append "An error occurred: std::bad_alloc"
            (String (Ascii.ascii_of_nat 10) EmptyString)) /\
  (written starved_run).*1 = ["normalized_image.bmp"%string] /\
  ((exit_code starved_run = 1 /\
    exists what,
      cerr starved_run
      = Some (String.append "An error occurred: " (String.append what endl)) /\
      ((written starved_run = [] /\
        (what = could_not_open "block.int" \/ what = zero_dimensions \/
         what = not_enough_rows \/ what = not_enough_columns \/
         (what = bad_alloc_what (fails_at 239) /\
          exists line rows columns,
            In line [125; 141; 158; 187; 215]%nat /\
            allocates (fails_at 239) line rows columns = false))) \/
       (1 = 1 /\ (written starved_run).*1 = ["normalized_image.bmp"%string] /\
        what = bad_alloc_what (fails_at 239) /\
        exists line rows columns,
          In line [239; 242]%nat /\ allocates (fails_at 239) line rows columns = false))) \/
   (exit_code starved_run = 0 /\ cerr starved_run = None /\
    (written starved_run).*1
    = if 1 =? 1 then ["normalized_image.bmp"%string; "thickness_image.bmp"%string]
      else ["normalized_image.bmp"%string])).
Proof.
  split; [reflexivity|]. split; [reflexivity|]. split; [reflexivity|].
  apply (main_outcome (fails_at 239) (one_file "block.int" bright_file) (fun _ => 0%float) 1
           starved_run).
  vm_compute. reflexivity.
Defined.

Lemma main_rejects_small_images_witness :
  main roomy (one_file "block.int" small_file) (fun _ => 0%float) 1
  = Some (mkRun 1
            (Some (String.append "An error occurred: "
                     (String.append
                        (if (header_height small_file <? 15)%nat
                         then "Error: Not enough rows for beta-thorne calibration."
                         else "Error: Not enough columns for detector calibration.")
                        (String (Ascii.ascii_of_nat 10) EmptyString))))
            []).
Proof.
  apply (main_rejects_small_images roomy (one_file "block.int" small_file)
           (fun _ => 0%float) 1 small_file).
  - reflexivity.
  - exact is_byte_small_file.
  - vm_compute. lia.
  - vm_compute. lia.
  - vm_compute. lia.
  - left. vm_compute. lia.
  - reflexivity.
  - reflexivity.
  - reflexivity.
Defined.

Lemma is_byte_bright_file : Forall is_byte bright_file.
Proof. apply is_byte_encode_file, Forall_replicate. unfold is_byte. lia. Qed.

Lemma main_files_describe_input_witness :
  (15 <= header_height bright_file)%nat /\ (50 <= header_width bright_file)%nat /\
  Forall (fun f => bitmap_header (header_height bright_file) (header_width bright_file) f.2)
    (written bright_run).
Proof.
  apply (main_files_describe_input roomy (one_file "block.int" bright_file)
           (fun _ => 0%float) 1 bright_file bright_run).
  - reflexivity.
  - exact is_byte_bright_file.
  - vm_compute. reflexivity.
  - vm_compute. reflexivity.
  - reflexivity.
Defined.

(** X25: the normalized view of what [process_data] returns. In the file,
    the pixels of the last 15 rows and of the last 50 columns are pure
    red (blue 0, green 0, red 255) whatever was measured there, and every
    other pixel is gray: its three bytes are equal. *)
Theorem reference_strips_are_red (data : RawGrid) (m n : nat) (st st' : statics)
    (g : Grid) (file : list Z) :
  raw_grid data m n -> (15 <= m)%nat -> (50 <= n)%nat ->
  Z.of_nat (3 * (m * n)) < 2147483648 -> sized_statics st ->
  process_data data = Returns g ->
  create_and_save_image_file st g = Some (file, st') ->
  forall i j, (i < m)%nat -> (j < n)%nat ->
    ((m - 15 <= i)%nat \/ (n - 50 <= j)%nat ->
       file !! (54 + i * row_stride n + 3 * j)%nat = Some 0 /\
       file !! (54 + i * row_stride n + 3 * j + 1)%nat = Some 0 /\
       file !! (54 + i * row_stride n + 3 * j + 2)%nat = Some 255) /\
    ((i < m - 15)%nat -> (j < n - 50)%nat ->
       exists c, 0 <= c <= 255 /\
         file !! (54 + i * row_stride n + 3 * j)%nat = Some c /\
         file !! (54 + i * row_stride n + 3 * j + 1)%nat = Some c /\
         file !! (54 + i * row_stride n + 3 * j + 2)%nat = Some c).
Proof.
  intros Hraw Hm Hn Hfits Hsized Hp Hfile.
  destruct (process_data_cells data m n Hraw Hm Hn) as (g' & Hg' & Hs & Hc).
  rewrite Hg' in Hp. injection Hp as ->.
  assert (image_grid g m n) as Hg by (split; [assumption|split; [lia|split; [lia|assumption]]]).
  unfold create_and_save_image_file in Hfile.
  destruct (image_grid_int_sizes g m n Hg) as [Em En]. rewrite Em, En in Hfile.
  destruct (create_and_save_image g) as [image|] eqn:Himage; [|discriminate].
  cbn [mbind option_bind] in Hfile.
  rewrite (create_and_save_image_paint g m n Hg) in Himage.
  destruct (painted_file normalized_color g m n st st' image file Hg Hsized Himage Hfile)
    as [_ Hall].
  intros i j Hi Hj.
  destruct (Hall i j Hi Hj) as (b & gr & r & Hcol & Hb & Hgr & Hr).
  rewrite Hc in Hcol by assumption. unfold normalized_color, final_cell in Hcol.
  pose proof (in_row_strip_true m i) as R1. pose proof (in_row_strip_false m i) as R0.
  pose proof (in_column_strip_true n j) as C1. pose proof (in_column_strip_false n j) as C0.
  destruct (in_row_strip m i), (in_column_strip n j); cbn [orb is_calibrated value] in Hcol.
  1-3: injection Hcol as <- <- <-; split; [auto|]; intros H1 H2;
       first [apply R0 in H1; discriminate | apply C0 in H2; discriminate
             | pose proof (proj2 R1); pose proof (proj2 C1); lia].
  destruct (uchar_of_double _) as [c|] eqn:E; cbn in Hcol; [|discriminate].
  injection Hcol as <- <- <-. apply uchar_of_double_truncates in E as [_ E].
  split; [|intros _ _; exists c; auto].
  intros [H|H]; [apply R1 in H|apply C1 in H]; discriminate.
Qed.

Lemma reference_strips_are_red_witness :
  process_data half_intensity = Returns (after_column_division half_intensity 16 51) /\
  forall i j, (i < 16)%nat -> (j < 51)%nat ->
    ((16 - 15 <= i)%nat \/ (51 - 50 <= j)%nat ->
       half_intensity_file !! (54 + i * row_stride 51 + 3 * j)%nat = Some 0 /\
       half_intensity_file !! (54 + i * row_stride 51 + 3 * j + 1)%nat = Some 0 /\
       half_intensity_file !! (54 + i * row_stride 51 + 3 * j + 2)%nat = Some 255) /\
    ((i < 16 - 15)%nat -> (j < 51 - 50)%nat ->
       exists c, 0 <= c <= 255 /\
         half_intensity_file !! (54 + i * row_stride 51 + 3 * j)%nat = Some c /\
         half_intensity_file !! (54 + i * row_stride 51 + 3 * j + 1)%nat = Some c /\
         half_intensity_file !! (54 + i * row_stride 51 + 3 * j + 2)%nat = Some c).
Proof.
  split; [apply process_data_returns; [exact raw_grid_half_intensity|lia|lia]|].
  apply (reference_strips_are_red half_intensity 16 51 initial_statics half_intensity_statics
           (after_column_division half_intensity 16 51) half_intensity_file).
  - exact raw_grid_half_intensity.
  - lia.
  - lia.
  - reflexivity.
  - split; reflexivity.
  - apply process_data_returns; [exact raw_grid_half_intensity|lia|lia].
  - vm_compute. reflexivity.
Defined.






